(** * Sallybraids booking core: availability, restrictions, deposits, submission

    A shallow embedding of the booking logic of [assets/app.js] (client) and
    [assets/admin.js] (admin dashboard), both running in mock mode
    ([CONFIG.API_BASE_URL] is the empty string, the value the scripts default
    to), where every request is served by [mockApiRequest] over
    [localStorage].

    Modelling conventions.
    - JavaScript strings are sequences of ASCII characters.  On such strings
      [toUpperCase] maps [a-z] to [A-Z] and leaves every other character
      alone, [\d] is [0-9] and [\s] is the ASCII white space.  The one text
      of the scripts outside ASCII is carried as its UTF-8 bytes.
    - JavaScript numbers are binary64 numbers ([float]): hours, prices and
      deposits are computed with the operations of IEEE 754, and texts are
      read as numbers and numbers written as texts the way ECMAScript
      prescribes.  Counters the scripts keep below 2^53 ([Date.now()], loop
      indices) are natural numbers.
    - [JSON.parse (JSON.stringify x)] is the identity on the strings and
      records stored under [localStorage], so the store holds the records
      themselves; a number comes back as itself when it is finite and as
      [null] otherwise.
    - A function that can raise a [TypeError] returns an [outcome]. *)

From Stdlib Require Import String Ascii List ZArith NArith.
From Stdlib Require Import Lia Bool DecimalString DecimalN.
From Stdlib Require Import PrimFloat SpecFloat FloatOps FloatAxioms.
From Stdlib Require Import Permutation.
Import ListNotations.
Open Scope string_scope.

(* ================================================================= *)
(** ** JavaScript values and primitives *)

Module JS.

(** Values as [JSON.parse] produces them, plus [undefined]. *)
#[warnings="-register-all"] Inductive jsval : Type :=
| JUndefined
| JNull
| JBool (b : bool)
| JNum (x : float)
| JStr (s : string)
| JArr (elems : list jsval)
| JObj (props : list (string * jsval)).

(** Result of a computation that may throw. *)
Inductive outcome (A : Type) : Type :=
| Ret (a : A)
| Throw (err : string).
Arguments Ret {A} a.
Arguments Throw {A} err.

Definition bind {A B : Type} (m : outcome A) (k : A -> outcome B) : outcome B :=
  match m with
  | Ret a => k a
  | Throw e => Throw e
  end.

Notation "x <- m ;; k" := (bind m (fun x => k))
  (at level 61, m at next level, right associativity).

(** [!v] is [negb (truthy v)]. *)
Definition truthy (v : jsval) : bool :=
  match v with
  | JUndefined | JNull => false
  | JBool b => b
  | JNum x => negb (is_zero x || is_nan x)
  | JStr s => negb (s =? "")
  | JArr _ | JObj _ => true
  end.

Definition isArray (v : jsval) : bool :=
  match v with JArr _ => true | _ => false end.

(** [typeof v === 'string'] *)
Definition typeof_string (v : jsval) : bool :=
  match v with JStr _ => true | _ => false end.

(** *** Characters *)

Definition is_digit (c : ascii) : bool :=
  let n := nat_of_ascii c in (48 <=? n)%nat && (n <=? 57)%nat.

(** [\s] on ASCII: tab, line feed, vertical tab, form feed, carriage return,
    space. *)
Definition is_space (c : ascii) : bool :=
  let n := nat_of_ascii c in ((9 <=? n)%nat && (n <=? 13)%nat) || (n =? 32)%nat.

Definition upper_char (c : ascii) : ascii :=
  let n := nat_of_ascii c in
  if (97 <=? n)%nat && (n <=? 122)%nat then ascii_of_nat (n - 32) else c.

(** *** Strings *)

Fixpoint toUpperCase (s : string) : string :=
  match s with
  | EmptyString => EmptyString
  | String c r => String (upper_char c) (toUpperCase r)
  end.

Definition startsWith (s pre : string) : bool := String.prefix pre s.

(** [s.includes(sub)] *)
Fixpoint includes (s sub : string) : bool :=
  startsWith s sub ||
  match s with
  | EmptyString => false
  | String _ r => includes r sub
  end.

Fixpoint string_forallb (p : ascii -> bool) (s : string) : bool :=
  match s with
  | EmptyString => true
  | String c r => p c && string_forallb p r
  end.

Fixpoint string_filter (p : ascii -> bool) (s : string) : string :=
  match s with
  | EmptyString => EmptyString
  | String c r => if p c then String c (string_filter p r) else string_filter p r
  end.

Fixpoint string_rev_onto (s acc : string) : string :=
  match s with
  | EmptyString => acc
  | String c r => string_rev_onto r (String c acc)
  end.

Definition string_rev (s : string) : string := string_rev_onto s EmptyString.

Fixpoint trimStart (s : string) : string :=
  match s with
  | EmptyString => EmptyString
  | String c r => if is_space c then trimStart r else s
  end.

(** [s.trim()] *)
Definition trim (s : string) : string :=
  string_rev (trimStart (string_rev (trimStart s))).

(** [s.split(sep)] for a one-character separator; never empty. *)
Fixpoint split (sep : ascii) (s : string) : list string :=
  match s with
  | EmptyString => [EmptyString]
  | String c r =>
      if Ascii.eqb c sep then EmptyString :: split sep r
      else match split sep r with
           | h :: t => String c h :: t
           | [] => [String c EmptyString]
           end
  end.

(** [parts.pop()] as a value: the last element. *)
Definition pop (parts : list string) : string := last parts EmptyString.

(** The longest run of characters satisfying [p] at the head of [s], and what
    follows it. *)
Fixpoint span (p : ascii -> bool) (s : string) : string * string :=
  match s with
  | String c r =>
      if p c then let '(run, tl) := span p r in (String c run, tl)
      else (EmptyString, s)
  | EmptyString => (EmptyString, EmptyString)
  end.

(** [n.toString()] for a counter [n]. *)
Definition toString (n : N) : string := NilZero.string_of_uint (N.to_uint n).

(** *** Numbers: binary64

    [prec] is 53 and [emax] 1024; [binary_normalize] and [binary_round_aux]
    are the roundings to nearest, ties to even, by which the Standard Library
    specifies the primitive operations. *)

(** The value of a digit in a radix up to 36. *)
Definition digit_of (c : ascii) : option Z :=
  let n := Z.of_nat (nat_of_ascii c) in
  if (48 <=? n)%Z && (n <=? 57)%Z then Some (n - 48)%Z
  else if (97 <=? n)%Z && (n <=? 122)%Z then Some (n - 87)%Z
  else if (65 <=? n)%Z && (n <=? 90)%Z then Some (n - 55)%Z
  else None.

Definition is_radix_digit (radix : Z) (c : ascii) : bool :=
  match digit_of c with
  | Some v => (v <? radix)%Z
  | None => false
  end.

(** Value of a string of digits in [radix], most significant first. *)
Fixpoint radix_value_from (radix acc : Z) (s : string) : Z :=
  match s with
  | EmptyString => acc
  | String c r =>
      radix_value_from radix
        (radix * acc + match digit_of c with Some v => v | None => 0 end)%Z r
  end.

(** Value of a string of decimal digits. *)
Definition dec_value (s : string) : Z := radix_value_from 10 0 s.

(** The number nearest to the integer [z]. *)
Definition float_of_Z (z : Z) : float :=
  SF2Prim (binary_normalize prec emax z 0 false).

(** The number nearest to [n / d] for [n >= 0] and [d > 0], with the sign
    [neg]. *)
Definition float_of_ratio (neg : bool) (n d : Z) : float :=
  if (n =? 0)%Z then (if neg then neg_zero else zero)
  else
    let '(q, e, loc) := SFdiv_core_binary prec emax n 0 d 0 in
    SF2Prim (binary_round_aux prec emax neg q e loc).

(** The number nearest to [m * 10^e10] for [m >= 0], with the sign [neg]. *)
Definition float_of_decimal (neg : bool) (m e10 : Z) : float :=
  if (0 <=? e10)%Z then
    let x := float_of_Z (m * 10 ^ e10) in if neg then PrimFloat.opp x else x
  else float_of_ratio neg m (10 ^ (- e10)).

(** An [ExponentPart], or nothing: the exponent, [None] when ill-formed. *)
Definition exponent_part (s : string) : option Z :=
  match s with
  | EmptyString => Some 0%Z
  | String c r =>
      if Ascii.eqb c "e" || Ascii.eqb c "E" then
        let '(neg, ds) :=
          match r with
          | String "-" ds => (true, ds)
          | String "+" ds => (false, ds)
          | _ => (false, r)
          end in
        if negb (ds =? "") && string_forallb is_digit ds
        then Some (if neg then - dec_value ds else dec_value ds)%Z
        else None
      else None
  end.

(** A [StrUnsignedDecimalLiteral], its sign already read. *)
Definition unsigned_decimal (neg : bool) (s : string) : float :=
  if s =? "Infinity" then (if neg then neg_infinity else infinity)
  else
    let '(int, rest) := span is_digit s in
    let '(frac, rest) :=
      match rest with
      | String "." r => span is_digit r
      | _ => (EmptyString, rest)
      end in
    if (int =? "") && (frac =? "") then nan
    else
      match exponent_part rest with
      | Some e =>
          float_of_decimal neg (dec_value (int ++ frac))
            (e - Z.of_nat (String.length frac))
      | None => nan
      end.

(** The literals [0x...], [0o...] and [0b...], which take no sign. *)
Definition non_decimal (s : string) : option float :=
  match s with
  | String "0" (String x ds) =>
      let radix :=
        if Ascii.eqb x "x" || Ascii.eqb x "X" then Some 16%Z
        else if Ascii.eqb x "o" || Ascii.eqb x "O" then Some 8%Z
        else if Ascii.eqb x "b" || Ascii.eqb x "B" then Some 2%Z
        else None in
      match radix with
      | Some r =>
          Some (if negb (ds =? "") && string_forallb (is_radix_digit r) ds
                then float_of_Z (radix_value_from r 0 ds) else nan)
      | None => None
      end
  | _ => None
  end.

(** [Number(s)]: white space is trimmed, the empty text is [0], a numeric
    literal is rounded to the nearest number, anything else is [NaN]. *)
Definition Number (s : string) : float :=
  let s := trim s in
  if s =? "" then zero
  else
    match non_decimal s with
    | Some x => x
    | None =>
        match s with
        | String "-" r => unsigned_decimal true r
        | String "+" r => unsigned_decimal false r
        | _ => unsigned_decimal false s
        end
    end.

(** [parseInt(s)] without radix: leading white space and a sign are skipped,
    [0x] selects radix 16, the longest run of digits is read and rounded to
    the nearest number; no digit gives [NaN]. *)
Definition parseInt (s : string) : float :=
  let s := trimStart s in
  let '(neg, s) :=
    match s with
    | String "-" r => (true, r)
    | String "+" r => (false, r)
    | _ => (false, s)
    end in
  let '(radix, s) :=
    match s with
    | String "0" (String x r) =>
        if Ascii.eqb x "x" || Ascii.eqb x "X" then (16%Z, r) else (10%Z, s)
    | _ => (10%Z, s)
    end in
  let '(ds, _) := span (is_radix_digit radix) s in
  if ds =? "" then nan
  else
    let x := float_of_Z (radix_value_from radix 0 ds) in
    if neg then PrimFloat.opp x else x.

(** The integer a number is, when it is one. *)
Definition integer_value (x : float) : option Z :=
  match Prim2SF x with
  | S754_zero _ => Some 0%Z
  | S754_finite s m e =>
      if (0 <=? e)%Z then Some (cond_Zopp s (Zpos m * 2 ^ e))
      else if (Zpos m mod 2 ^ (- e) =? 0)%Z
           then Some (cond_Zopp s (Zpos m / 2 ^ (- e)))
           else None
  | _ => None
  end.

(** [Math.max(a, b)] *)
Definition Math_max (a b : float) : float :=
  if is_nan a || is_nan b then nan
  else if PrimFloat.ltb a b then b
  else if PrimFloat.ltb b a then a
  else if get_sign a then b else a.

(** A number after [JSON.parse (JSON.stringify x)]; [None] is [null]. *)
Definition JSON_number (x : float) : option float :=
  if is_nan x || is_infinity x then None
  else if is_zero x then Some zero
  else Some x.

(** The decimal digits of a non-negative integer. *)
Definition dec_digits (z : Z) : string := toString (Z.to_N z).

(** The least [k], counted from [k], with [den <= num * 10^k]. *)
Fixpoint scale_up (fuel : nat) (num den : Z) (k : Z) : Z :=
  match fuel with
  | O => k
  | S fuel' =>
      if (den <=? num)%Z then k else scale_up fuel' (num * 10) den (k + 1)
  end.

(** The [n] with [10^(n-1) <= num/den < 10^n], for a positive binary64
    value. *)
Definition decimal_exponent (num den : Z) : Z :=
  if (den <=? num)%Z then Z.of_nat (String.length (dec_digits (num / den)))
  else (1 - scale_up 400 num den 0)%Z.

(** The integer part of [(num/den) / 10^p]. *)
Definition scaled_floor (num den p : Z) : Z :=
  if (0 <=? p)%Z then (num / (den * 10 ^ p))%Z else (num * 10 ^ (- p) / den)%Z.

(** [2 * num/den] compared with [t * 10^p]. *)
Definition twice_compare (num den t p : Z) : comparison :=
  if (0 <=? p)%Z then (2 * num ?= t * 10 ^ p * den)%Z
  else (2 * num * 10 ^ (- p) ?= t * den)%Z.

(** The digits [s] and the exponent [n] of [Number::toString]: the decimal
    [s * 10^(n-k)] of fewest digits [k] that reads back as [x], the one
    nearest to [x] if there are two; [num/den] is [x] itself. *)
Fixpoint shortest_from (fuel : nat) (x : float) (num den n k : Z) : Z * Z :=
  let lo := scaled_floor num den (n - k) in
  let hi := (lo + 1)%Z in
  let ok_lo := Leibniz.eqb (float_of_decimal false lo (n - k)) x in
  let ok_hi := Leibniz.eqb (float_of_decimal false hi (n - k)) x in
  let up := if (hi =? 10 ^ k)%Z then (10 ^ (k - 1), n + 1)%Z else (hi, n) in
  match fuel with
  | O => (lo, n)
  | S fuel' =>
      if ok_lo && ok_hi then
        match twice_compare num den (lo + hi) (n - k) with
        | Lt => (lo, n)
        | Gt => up
        | Eq => if Z.even lo then (lo, n) else up
        end
      else if ok_lo then (lo, n)
      else if ok_hi then up
      else shortest_from fuel' x num den n (k + 1)
  end.

Definition zeros (n : Z) : string := String.concat "" (repeat "0" (Z.to_nat n)).

Definition substring_from (n : nat) (s : string) : string :=
  String.substring n (String.length s - n) s.

(** [x.toString()], also what a template literal writes for [x]. *)
Definition num_toString (x : float) : string :=
  match Prim2SF x with
  | S754_nan => "NaN"
  | S754_zero _ => "0"
  | S754_infinity s => if s then "-Infinity" else "Infinity"
  | S754_finite neg m e =>
      let num := if (0 <=? e)%Z then (Zpos m * 2 ^ e)%Z else Zpos m in
      let den := if (0 <=? e)%Z then 1%Z else (2 ^ (- e))%Z in
      let '(s, n) :=
        shortest_from 17 (PrimFloat.abs x) num den (decimal_exponent num den) 1 in
      let digits := dec_digits s in
      let k := Z.of_nat (String.length digits) in
      let body :=
        if (k <=? n)%Z && (n <=? 21)%Z then digits ++ zeros (n - k)
        else if (0 <? n)%Z && (n <=? 21)%Z then
          String.substring 0 (Z.to_nat n) digits ++ "."
          ++ substring_from (Z.to_nat n) digits
        else if (-6 <? n)%Z && (n <=? 0)%Z then "0." ++ zeros (- n) ++ digits
        else
          let exp :=
            (if (0 <=? n - 1)%Z then "+" else "-") ++ dec_digits (Z.abs (n - 1)) in
          if (k =? 1)%Z then digits ++ "e" ++ exp
          else String.substring 0 1 digits ++ "." ++ substring_from 1 digits
               ++ "e" ++ exp in
      if neg then "-" ++ body else body
  end.

(** [ToString(v)].  An object is converted through its [toString] method;
    an own property of that name, which after [JSON.parse] is never a
    function, hides the inherited method, and the conversion then raises. *)
Fixpoint to_string (v : jsval) : outcome string :=
  match v with
  | JUndefined => Ret "undefined"
  | JNull => Ret "null"
  | JBool b => Ret (if b then "true" else "false")
  | JNum x => Ret (num_toString x)
  | JStr s => Ret s
  | JArr l =>
      parts <- (fix each (l : list jsval) : outcome (list string) :=
                  match l with
                  | [] => Ret []
                  | e :: r =>
                      s <- match e with
                           | JUndefined | JNull => Ret ""
                           | _ => to_string e
                           end ;;
                      t <- each r ;;
                      Ret (s :: t)
                  end) l ;;
      Ret (String.concat "," parts)
  | JObj props =>
      if existsb (fun kv => fst kv =? "toString") props
      then Throw "TypeError: Cannot convert object to primitive value"
      else Ret "[object Object]"
  end.

(** [ToNumber(v)] *)
Definition to_number (v : jsval) : outcome float :=
  match v with
  | JUndefined => Ret nan
  | JNull => Ret zero
  | JBool b => Ret (if b then one else zero)
  | JNum x => Ret x
  | JStr s => Ret (Number s)
  | JArr _ | JObj _ => s <- to_string v ;; Ret (Number s)
  end.

(** [v.length] for a [v] that is neither [null] nor [undefined]. *)
Definition length_of (v : jsval) : jsval :=
  match v with
  | JStr s => JNum (float_of_Z (Z.of_nat (String.length s)))
  | JArr l => JNum (float_of_Z (Z.of_nat (List.length l)))
  | JObj props =>
      match List.find (fun kv => fst kv =? "length") props with
      | Some kv => snd kv
      | None => JUndefined
      end
  | _ => JUndefined
  end.

(** [list.includes(s)] on an array of strings. *)
Definition array_includes (l : list string) (s : string) : bool :=
  existsb (String.eqb s) l.

(** [s.padStart(2, '0')] *)
Definition padStart2 (s : string) : string :=
  match String.length s with
  | 0%nat => "00"
  | 1%nat => "0" ++ s
  | _ => s
  end.

(** *** Regular expressions tested against a whole string

    Patterns anchored by [^] and [$] and used through [test] only ask whether
    the whole string belongs to the language; derivatives decide that. *)

Inductive regex : Type :=
| Void
| Eps
| Cls (p : ascii -> bool)
| Seq (r1 r2 : regex)
| Alt (r1 r2 : regex)
| Star (r : regex).

Definition Plus (r : regex) : regex := Seq r (Star r).
Definition Opt (r : regex) : regex := Alt Eps r.
Definition Chr (c : ascii) : regex := Cls (Ascii.eqb c).

Fixpoint nullable (r : regex) : bool :=
  match r with
  | Void => false
  | Eps => true
  | Cls _ => false
  | Seq r1 r2 => nullable r1 && nullable r2
  | Alt r1 r2 => nullable r1 || nullable r2
  | Star _ => true
  end.

Fixpoint deriv (c : ascii) (r : regex) : regex :=
  match r with
  | Void => Void
  | Eps => Void
  | Cls p => if p c then Eps else Void
  | Seq r1 r2 =>
      if nullable r1
      then Alt (Seq (deriv c r1) r2) (deriv c r2)
      else Seq (deriv c r1) r2
  | Alt r1 r2 => Alt (deriv c r1) (deriv c r2)
  | Star r1 => Seq (deriv c r1) (Star r1)
  end.

(** [/^r$/.test(s)] *)
Fixpoint test (r : regex) (s : string) : bool :=
  match s with
  | EmptyString => nullable r
  | String c rest => test (deriv c r) rest
  end.

(** The language of a pattern, for reference. *)
Inductive in_lang : regex -> string -> Prop :=
| lang_eps : in_lang Eps EmptyString
| lang_cls (p : ascii -> bool) (c : ascii) :
    p c = true -> in_lang (Cls p) (String c EmptyString)
| lang_seq (r1 r2 : regex) (s1 s2 : string) :
    in_lang r1 s1 -> in_lang r2 s2 -> in_lang (Seq r1 r2) (s1 ++ s2)
| lang_alt_l (r1 r2 : regex) (s : string) :
    in_lang r1 s -> in_lang (Alt r1 r2) s
| lang_alt_r (r1 r2 : regex) (s : string) :
    in_lang r2 s -> in_lang (Alt r1 r2) s
| lang_star_nil (r : regex) : in_lang (Star r) EmptyString
| lang_star_more (r : regex) (s1 s2 : string) :
    in_lang r s1 -> in_lang (Star r) s2 -> in_lang (Star r) (s1 ++ s2).

(** *** Methods that throw on a receiver of the wrong kind *)

(** [arr.find(p)]: the first element satisfying [p], [undefined] if none.
    A receiver without a [find] method raises a [TypeError]. *)
Fixpoint find_elems (p : jsval -> outcome bool) (l : list jsval) : outcome jsval :=
  match l with
  | [] => Ret JUndefined
  | x :: r => b <- p x ;; if b then Ret x else find_elems p r
  end.

Definition method_find (recv : jsval) (p : jsval -> outcome bool) : outcome jsval :=
  match recv with
  | JArr l => find_elems p l
  | _ => Throw "TypeError: find is not a function"
  end.

Definition method_toUpperCase (recv : jsval) : outcome string :=
  match recv with
  | JStr s => Ret (toUpperCase s)
  | _ => Throw "TypeError: toUpperCase is not a function"
  end.

End JS.
Import JS.

(* ================================================================= *)
(** ** Restriction parser ([assets/app.js]) *)

Module Restriction.

(** The capture group [(AM|PM)] under the [i] flag, tried at the head of [s]:
    the two characters as written. *)
Definition period_at (s : string) : option string :=
  match s with
  | String a (String m _) =>
      let a' := upper_char a in
      if (Ascii.eqb a' "A" || Ascii.eqb a' "P") && Ascii.eqb (upper_char m) "M"
      then Some (String a (String m EmptyString))
      else None
  | _ => None
  end.

(** The longest run of digits at the head of [s], and what follows it. *)
Fixpoint span_digits (s : string) : string * string :=
  match s with
  | String c r =>
      if is_digit c
      then let '(ds, tl) := span_digits r in (String c ds, tl)
      else (EmptyString, s)
  | EmptyString => (EmptyString, EmptyString)
  end.

(** [s.match(/(\d+)(AM|PM)/i)]: the leftmost match, as the pair of its two
    capture groups, or [None] for [null].  An attempt at a position succeeds
    exactly when the greedy digit run starting there is followed by the
    period: giving back digits cannot help, since the character after a
    shorter run is a digit. *)
Fixpoint regex_hour_period (s : string) : option (string * string) :=
  match s with
  | EmptyString => None
  | String c r =>
      if is_digit c then
        let '(ds, tl) := span_digits s in
        match period_at tl with
        | Some p => Some (ds, p)
        | None => regex_hour_period r
        end
      else regex_hour_period r
  end.

(** [recv.match(/(\d+)(AM|PM)/i)] *)
Definition method_match (recv : jsval) : outcome (option (string * string)) :=
  match recv with
  | JStr s => Ret (regex_hour_period s)
  | _ => Throw "TypeError: match is not a function"
  end.

Definition PHRASE : string := "DO NOT BOOK AFTER".

(** The callback given to [notes.find]:
    [typeof note === 'string' && note.toUpperCase().includes(PHRASE)]. *)
Definition is_restriction_note (note : jsval) : outcome bool :=
  if typeof_string note
  then u <- method_toUpperCase note ;; Ret (includes u PHRASE)
  else Ret false.

(** The two adjustments applied to the parsed hour. *)
Definition to_24h (hours : float) (period : string) : float :=
  let hours :=
    if (period =? "PM") && negb (PrimFloat.eqb hours 12)
    then PrimFloat.add hours 12 else hours in
  let hours :=
    if (period =? "AM") && PrimFloat.eqb hours 12 then zero else hours in
  hours.

(** [parseTimeRestriction(notes)]; [None] is [null]. *)
Definition parseTimeRestriction (notes : jsval) : outcome (option float) :=
  if negb (truthy notes) || negb (isArray notes) then Ret None else
  restriction <- method_find notes is_restriction_note ;;
  if negb (truthy restriction) then Ret None else
  m <- method_match restriction ;;
  match m with
  | None => Ret None
  | Some (g1, g2) => Ret (Some (to_24h (parseInt g1) (toUpperCase g2)))
  end.

(** [p] is AM or PM in any case. *)
Definition is_period (p : string) : bool :=
  (toUpperCase p =? "AM") || (toUpperCase p =? "PM").

(** [s] holds, after [pre], a run of digits [ds] followed by the period [p]:
    an occurrence of the pattern [(\d+)(AM|PM)] with these two groups. *)
Definition hour_pattern_at (pre ds p post s : string) : Prop :=
  s = pre ++ ds ++ p ++ post
  /\ ds <> "" /\ string_forallb is_digit ds = true /\ is_period p = true.

(** The callback of [notes.find] read as a plain predicate. *)
Definition phrase_note (note : jsval) : bool :=
  match note with
  | JStr s => includes (toUpperCase s) PHRASE
  | _ => false
  end.

(** The first note that is a string containing the phrase, in any case. *)
Definition first_phrase_note (notes : list jsval) : option string :=
  match List.find phrase_note notes with
  | Some (JStr s) => Some s
  | _ => None
  end.

(** [timeString.split(':').map(Number)], first element. *)
Definition time_hours (timeString : string) : float :=
  hd nan (map Number (split ":" timeString)).

(** [violatesTimeRestriction(service, timeString)], given [service.notes]. *)
Definition violatesTimeRestriction (service_notes : jsval) (timeString : string)
  : outcome bool :=
  maxHour <- parseTimeRestriction service_notes ;;
  match maxHour with
  | None => Ret false
  | Some h => Ret (PrimFloat.ltb h (time_hours timeString))
  end.

End Restriction.
Import Restriction.


(* ================================================================= *)
(** ** Data model *)

Module Service.
(** A catalog entry; [notes] is whatever the catalog JSON holds there. *)
Record t : Type := mk {
  id : string;
  title : string;
  price : float;
  notes : jsval
}.
End Service.

Module Customer.
(** [FormData.get] answers [null] ([None]) for a field the form lacks. *)
Record t : Type := mk {
  name : option string;
  phone : option string;
  email : option string
}.
End Customer.

Module BookingData.
(** The body of [POST /api/bookings] as the gateway parses it; a number that
    was not finite when [handleBookingSubmit] wrote the body is [null]
    ([None]). *)
Record t : Type := mk {
  serviceId : string;
  serviceTitle : string;
  date : string;
  time : string;
  customer : Customer.t;
  notes : string;
  depositPercent : option float;
  amountDue : option float;
  depositAmount : option float
}.
End BookingData.

Module Booking.
(** A stored booking: the request body plus what the gateway stamps. *)
Record t : Type := mk {
  id : string;
  status : string;
  createdAt : string;
  data : BookingData.t
}.
Definition date (b : t) : string := BookingData.date (data b).
Definition time (b : t) : string := BookingData.time (data b).
(** [{ ...b, status: s }] *)
Definition with_status (b : t) (s : string) : t :=
  mk (id b) s (createdAt b) (data b).
End Booking.

Module Slot.
Record t : Type := mk {
  time : string;
  available : bool;
  label : string
}.
End Slot.

Module Block.
(** An admin-declared date exclusion. *)
Record t : Type := mk {
  id : string;
  date : string;
  type : string;
  notes : string
}.
End Block.

(** The [localStorage] keys the booking core reads and writes; [None] is an
    absent key.  [sb_blackout_dates] is the list the client calendar reads,
    [sb_blocks] the list the admin dashboard maintains. *)
Record Storage : Type := mkStorage {
  sb_bookings : option (list Booking.t);
  sb_blackout_dates : option (list string);
  sb_blocks : option (list Block.t)
}.

(** [JSON.parse(localStorage.getItem('sb_bookings') || '[]')], and in
    [admin.js] [loadFromStorage(CONFIG.STORAGE_KEYS.BOOKINGS) || []]. *)
Definition stored_bookings (ls : Storage) : list Booking.t :=
  match sb_bookings ls with
  | Some l => l
  | None => []
  end.

Definition set_bookings (ls : Storage) (l : list Booking.t) : Storage :=
  mkStorage (Some l) (sb_blackout_dates ls) (sb_blocks ls).

(** What the page cannot decide by itself: the clock and the random draw of
    [getBlackoutDates]. *)
Record Env : Type := mkEnv {
  now : N;                       (* Date.now() *)
  nowISO : string;               (* new Date().toISOString() *)
  random_dates : list string     (* the three dates getBlackoutDates draws *)
}.

Record Config : Type := mkConfig {
  DEPOSIT_PERCENT : float;
  DEPOSIT_MIN : float
}.

#[warnings="-inexact-float"] Definition CONFIG : Config := mkConfig 0.35 15.

(* ================================================================= *)
(** ** Client application ([assets/app.js]) *)

Module App.

(** *** Availability *)

(** [formatTimeLabel(time)].  [minutes] is [undefined] when [time] has no
    colon, and [minutes.toString()] then raises. *)
Definition formatTimeLabel (time : string) : outcome string :=
  let parts := map Number (split ":" time) in
  let hours := hd nan parts in
  match nth_error parts 1 with
  | None => Throw "TypeError: Cannot read properties of undefined (reading 'toString')"
  | Some minutes =>
      let period := if PrimFloat.leb 12 hours then "PM" else "AM" in
      let displayHours :=
        if PrimFloat.ltb 12 hours then PrimFloat.sub hours 12
        else if PrimFloat.eqb hours 0 then 12%float else hours in
      Ret (num_toString displayHours ++ ":" ++ padStart2 (num_toString minutes)
             ++ " " ++ period)
  end.

Definition startHour : N := 7.
Definition endHour : N := 19.

(** The values [hour] takes in [for (let hour = lo; hour < hi; hour++)]. *)
Definition hour_range (lo hi : N) : list N :=
  map N.of_nat (seq (N.to_nat lo) (N.to_nat hi - N.to_nat lo)).

(** [`${hour.toString().padStart(2, '0')}:00`] *)
Definition slot_time (hour : N) : string := padStart2 (toString hour) ++ ":00".

(** The body of the loop of [generateTimeSlots], pushing onto [slots]. *)
Fixpoint slots_loop (bookedTimes : list string) (hours : list N)
  (slots : list Slot.t) : outcome (list Slot.t) :=
  match hours with
  | [] => Ret slots
  | hour :: rest =>
      let time := slot_time hour in
      let available := negb (array_includes bookedTimes time) in
      label <- formatTimeLabel time ;;
      slots_loop bookedTimes rest (slots ++ [Slot.mk time available label])%list
  end.

(** [generateTimeSlots(dateString)]: the pair [{ date, slots }]. *)
Definition generateTimeSlots (ls : Storage) (dateString : string)
  : outcome (string * list Slot.t) :=
  let bookings := stored_bookings ls in
  let dateBookings := filter (fun b => Booking.date b =? dateString) bookings in
  let bookedTimes := map Booking.time dateBookings in
  slots <- slots_loop bookedTimes (hour_range startHour endHour) [] ;;
  Ret (dateString, slots).

(** The [bookedTimes] of [generateTimeSlots]. *)
Definition booked_times (ls : Storage) (dateString : string) : list string :=
  map Booking.time
    (filter (fun b => Booking.date b =? dateString) (stored_bookings ls)).

(** The twelve slot times of a day with their labels. *)
Definition day_grid : list (string * string) :=
  [("07:00", "7:00 AM"); ("08:00", "8:00 AM"); ("09:00", "9:00 AM");
   ("10:00", "10:00 AM"); ("11:00", "11:00 AM"); ("12:00", "12:00 PM");
   ("13:00", "1:00 PM"); ("14:00", "2:00 PM"); ("15:00", "3:00 PM");
   ("16:00", "4:00 PM"); ("17:00", "5:00 PM"); ("18:00", "6:00 PM")].

Definition grid_slot (bookedTimes : list string) (entry : string * string) : Slot.t :=
  Slot.mk (fst entry) (negb (array_includes bookedTimes (fst entry))) (snd entry).

(** The resolver currently reports [(date, time)] as available. *)
Definition slot_offered (ls : Storage) (date time : string) : Prop :=
  exists slots s,
    generateTimeSlots ls date = Ret (date, slots)
    /\ In s slots /\ Slot.time s = time /\ Slot.available s = true.

(** [getBlackoutDates()]: the stored list, or a fresh random one that it
    stores. *)
Definition getBlackoutDates (env : Env) (ls : Storage) : list string * Storage :=
  match sb_blackout_dates ls with
  | Some dates => (dates, ls)
  | None =>
      (random_dates env,
       mkStorage (sb_bookings ls) (Some (random_dates env)) (sb_blocks ls))
  end.

(** *** Calendar *)

Record DayButton : Type := mkDayButton {
  classes : list string;
  data_date : string;
  disabled_attr : bool
}.

(** One iteration of the loop over the days of the month in
    [renderCalendar]. *)
Definition render_day (blackoutDates : list string) (selectedDate : option string)
  (isPast isToday : bool) (dateString : string) : DayButton :=
  let isBlackout := array_includes blackoutDates dateString in
  let isSelected :=
    match selectedDate with
    | Some d => d =? dateString
    | None => false
    end in
  let classes := ["calendar-date"] in
  let classes := if isPast || isBlackout then (classes ++ ["disabled"])%list else classes in
  let classes := if isToday then (classes ++ ["today"])%list else classes in
  let classes := if isSelected then (classes ++ ["selected"])%list else classes in
  mkDayButton classes dateString (isPast || isBlackout).

(** Whether [.calendar-date:not(.disabled):not(.other-month)] selects the
    button, i.e. whether it gets the click listener calling [selectDate]. *)
Definition selectable (btn : DayButton) : bool :=
  array_includes (classes btn) "calendar-date"
  && negb (array_includes (classes btn) "disabled")
  && negb (array_includes (classes btn) "other-month").

(** *** Mock gateway *)

Record Request : Type := mkRequest {
  endpoint : string;
  method : option string;             (* options.method *)
  body : option BookingData.t         (* options.body, parsed *)
}.

Inductive Response : Type :=
| Availability (date : string) (slots : list Slot.t)
| BlackoutDates (dates : list string)
| BookingCreated (bookingId status : string)
    (amountDue depositAmount : option float) (clientSecret : string).

(** Text after the first occurrence of [sep], [None] when there is none. *)
Fixpoint after_first (sep : ascii) (s : string) : option string :=
  match s with
  | EmptyString => None
  | String c r => if Ascii.eqb c sep then Some r else after_first sep r
  end.

(** [new URL(endpoint, 'http://localhost').searchParams.get('date')] for a
    query without percent escapes, [+] or fragment, which is what
    [selectDate] builds from a [YYYY-MM-DD] date. *)
Definition search_param_date (endpoint : string) : option string :=
  match after_first "?" endpoint with
  | None => None
  | Some query =>
      match List.find (fun kv => startsWith kv "date=") (split "&" query) with
      | Some kv => after_first "=" kv
      | None => None
      end
  end.

Definition mockApiRequest (env : Env) (req : Request) (ls : Storage)
  : outcome Response * Storage :=
  let method := match method req with
                | Some m => if m =? "" then "GET" else m
                | None => "GET"
                end in
  if startsWith (endpoint req) "/api/availability" && (method =? "GET") then
    match search_param_date (endpoint req) with
    | Some (String c r as date) =>
        (res <- generateTimeSlots ls date ;;
         Ret (Availability (fst res) (snd res)), ls)
    | _ =>
        let '(dates, ls') := getBlackoutDates env ls in
        (Ret (BlackoutDates dates), ls')
    end
  else if (endpoint req =? "/api/bookings") && (method =? "POST") then
    match body req with
    | None => (Throw "SyntaxError: JSON.parse", ls)
    | Some data =>
        let booking :=
          Booking.mk ("booking-" ++ toString (now env)) "deposit_pending"
            (nowISO env) data in
        let bookings := stored_bookings ls in
        let ls' := set_bookings ls (bookings ++ [booking])%list in
        (Ret (BookingCreated (Booking.id booking) "deposit_pending"
                (BookingData.amountDue data) (BookingData.depositAmount data)
                ("mock_client_secret_" ++ Booking.id booking)), ls')
    end
  else (Throw "Endpoint not implemented in mock mode", ls).

(** *** Page state *)

(** The part of [STATE] the booking flow uses. *)
Record State : Type := mkState {
  catalog : list Service.t;
  selectedService : option Service.t;
  selectedDate : option string;
  selectedTime : option string
}.

(** A selected (truthy) value as a string; [v || ''] otherwise. *)
Definition string_of (v : option string) : string :=
  match v with
  | Some s => s
  | None => ""
  end.

(** Truthiness of a value that is [null] or a string. *)
Definition selected (v : option string) : bool :=
  match v with
  | Some s => negb (s =? "")
  | None => false
  end.

Record Toast : Type := mkToast {
  message : string;
  type : string
}.

(** What the page shows and sends: toasts, the [.form-error] texts written
    (field name, text), the requests passed to [apiRequest], [localStorage],
    and the number of [change] listeners the time dropdown carries. *)
Record Page : Type := mkPage {
  toasts : list Toast;
  form_errors : list (string * string);
  requests : list Request;
  storage : Storage;
  time_listeners : nat
}.

Definition showToast (msg ty : string) (pg : Page) : Page :=
  mkPage (toasts pg ++ [mkToast msg ty])%list (form_errors pg) (requests pg)
    (storage pg) (time_listeners pg).

(** The request [handleBookingSubmit] sends. *)
Definition post_booking (data : BookingData.t) : Request :=
  mkRequest "/api/bookings" (Some "POST") (Some data).

(** [apiRequest] with [CONFIG.API_BASE_URL] empty. *)
Definition apiRequest (env : Env) (req : Request) (pg : Page) : outcome Response * Page :=
  let '(res, ls') := mockApiRequest env req (storage pg) in
  (res, mkPage (toasts pg) (form_errors pg) (requests pg ++ [req])%list ls'
          (time_listeners pg)).

(** *** Time options *)

(** An [<option>] of the time dropdown. *)
Record TimeOption : Type := mkTimeOption {
  value : string;
  text : string
}.

Definition WARNING : string := " ⚠️ (Not recommended - check service notes)".

(** The options [populateTimeSlots] appends after the placeholder: one per
    available slot, with the warning text when the time violates the
    restriction of the selected service. *)
Fixpoint time_options (st : State) (slots : list Slot.t) : outcome (list TimeOption) :=
  match slots with
  | [] => Ret []
  | slot :: rest =>
      if Slot.available slot then
        warn <- match selectedService st with
                | Some service =>
                    violatesTimeRestriction (Service.notes service) (Slot.time slot)
                | None => Ret false
                end ;;
        opts <- time_options st rest ;;
        Ret (mkTimeOption (Slot.time slot)
               (Slot.label slot ++ (if warn then WARNING else "")) :: opts)
      else time_options st rest
  end.

(** [populateTimeSlots(slots)]: the options, and one more [change] listener
    on the dropdown, added after the options are written. *)
Definition populateTimeSlots (st : State) (slots : list Slot.t) (pg : Page)
  : outcome (list TimeOption) * Page :=
  match time_options st slots with
  | Ret options =>
      (Ret options,
       mkPage (toasts pg) (form_errors pg) (requests pg) (storage pg)
         (S (time_listeners pg)))
  | Throw err => (Throw err, pg)
  end.

Definition RESTRICTION_TOAST : Toast :=
  mkToast "This time may not allow us to complete your service. Please check the service notes for booking restrictions." "warning".

(** One [change] listener of the time dropdown, run for the option value
    [chosen]. *)
Definition time_listener (chosen : string) (sp : State * Page) : State * Page :=
  let '(st, pg) := sp in
  let st' := mkState (catalog st) (selectedService st) (selectedDate st) (Some chosen) in
  match selectedService st' with
  | Some service =>
      if selected (selectedTime st') then
        match violatesTimeRestriction (Service.notes service) chosen with
        | Ret true => (st', showToast (message RESTRICTION_TOAST) (type RESTRICTION_TOAST) pg)
        | _ => (st', pg)
        end
      else (st', pg)
  | None => (st', pg)
  end.

(** A [change] event of the time dropdown: every listener added so far runs,
    in turn. *)
Definition on_time_change (st : State) (chosen : string) (pg : Page) : State * Page :=
  Nat.iter (time_listeners pg) (time_listener chosen) (st, pg).

(** *** Form validation *)

(** A form control.  [errorDiv] tells whether its parent holds a
    [.form-error] element. *)
Record Field : Type := mkField {
  name : string;
  ftype : string;
  required : bool;
  fvalue : string;
  errorDiv : bool
}.

Definition email_char (c : ascii) : bool := negb (is_space c) && negb (Ascii.eqb c "@").

(** [/^[^\s@]+@[^\s@]+\.[^\s@]+$/] *)
Definition emailRegex : regex :=
  Seq (Plus (Cls email_char))
    (Seq (Chr "@") (Seq (Plus (Cls email_char)) (Seq (Chr ".") (Plus (Cls email_char))))).

Definition phone_char (c : ascii) : bool :=
  is_digit c || is_space c || Ascii.eqb c "-" || Ascii.eqb c "(" || Ascii.eqb c ")".

(** [/^\+?[\d\s\-\(\)]+$/] *)
Definition phoneRegex : regex := Seq (Opt (Chr "+")) (Plus (Cls phone_char)).

(** The error text [validateField] computes; the empty string is no error. *)
Definition field_error (field : Field) : string :=
  let value := trim (fvalue field) in
  let empty := value =? "" in
  if required field && empty then "This field is required"
  else if (ftype field =? "email") && negb empty then
    if negb (test emailRegex value) then "Please enter a valid email address" else ""
  else if (ftype field =? "tel") && negb empty then
    if negb (test phoneRegex value)
       || (String.length (string_filter is_digit value) <? 10)%nat
    then "Please enter a valid phone number" else ""
  else if (name field =? "service") && empty then "Please select a service"
  else if (name field =? "time") && empty then "Please select a time slot"
  else "".

(** [validateField(field)]: writes the text of the [.form-error] element when
    there is one, and answers whether the field is valid. *)
Definition validateField (field : Field) (pg : Page) : bool * Page :=
  let error := field_error field in
  (error =? "",
   if errorDiv field
   then mkPage (toasts pg) (form_errors pg ++ [(name field, error)])%list
          (requests pg) (storage pg) (time_listeners pg)
   else pg).

(** [fields.forEach(field => { if (!validateField(field)) isValid = false })] *)
Fixpoint validate_each (fields : list Field) (isValid : bool) (pg : Page) : bool * Page :=
  match fields with
  | [] => (isValid, pg)
  | field :: rest =>
      let '(ok, pg') := validateField field pg in
      validate_each rest (if ok then isValid else false) pg'
  end.

(** [formData.get(key)] *)
Definition formData_get (form : list Field) (key : string) : option string :=
  match List.find (fun f => name f =? key) form with
  | Some f => Some (fvalue f)
  | None => None
  end.

(** [Math.max(total * CONFIG.DEPOSIT_PERCENT, CONFIG.DEPOSIT_MIN)] *)
Definition depositAmount (cfg : Config) (total : float) : float :=
  Math_max (PrimFloat.mul total (DEPOSIT_PERCENT cfg)) (DEPOSIT_MIN cfg).

(** The [bookingData] object of [handleBookingSubmit], as
    [JSON.parse (JSON.stringify bookingData)] gives it to the gateway. *)
Definition booking_data (cfg : Config) (st : State) (form : list Field)
  (service : Service.t) : BookingData.t :=
  let total := Service.price service in
  BookingData.mk (Service.id service) (Service.title service)
    (string_of (selectedDate st)) (string_of (selectedTime st))
    (Customer.mk (formData_get form "name") (formData_get form "phone")
       (formData_get form "email"))
    (string_of (formData_get form "notes"))
    (JSON_number (DEPOSIT_PERCENT cfg)) (JSON_number total)
    (JSON_number (depositAmount cfg total)).

(** How a call of [handleBookingSubmit] ends. *)
Inductive Ending : Type :=
| Aborted                         (* validation failed: plain return *)
| Raised (err : string)           (* uncaught exception before the request *)
| Confirmed (res : Response)      (* the request resolved *)
| Failed (err : string).          (* the request rejected, caught *)

(** [handleBookingSubmit(e)] on the form [form], up to the end of its
    [try]/[catch]. *)
Definition handleBookingSubmit (cfg : Config) (env : Env) (st : State)
  (form : list Field) (pg : Page) : Ending * Page :=
  let requiredFields := filter required form in
  let '(isValid, pg) := validate_each requiredFields true pg in
  let '(isValid, pg) :=
    if negb (selected (selectedDate st))
    then (false, showToast "Please select a date" "error" pg)
    else (isValid, pg) in
  let '(isValid, pg) :=
    if negb (selected (selectedTime st))
    then (false, showToast "Please select a time" "error" pg)
    else (isValid, pg) in
  if negb isValid then (Aborted, pg) else
  match selectedService st with
  | None => (Raised "TypeError: Cannot read properties of null (reading 'price')", pg)
  | Some service =>
      let bookingData := booking_data cfg st form service in
      let '(res, pg) := apiRequest env (post_booking bookingData) pg in
      match res with
      | Ret response =>
          (Confirmed response,
           showToast "Your booking has been created! Redirecting to payment..." "success" pg)
      | Throw err =>
          (Failed err,
           showToast "Failed to create booking. Please try again or contact us directly." "error" pg)
      end
  end.

(** *** Readings of the validation used in the statements below *)

Definition field_valid (field : Field) : bool := field_error field =? "".

(** The [.form-error] texts a pass over [fields] writes. *)
Definition shown_errors (fields : list Field) : list (string * string) :=
  map (fun f => (name f, field_error f)) (filter errorDiv fields).

(** The toasts for a missing date and a missing time. *)
Definition missing_toasts (st : State) : list Toast :=
  ((if selected (selectedDate st) then [] else [mkToast "Please select a date" "error"])
   ++ (if selected (selectedTime st) then [] else [mkToast "Please select a time" "error"]))%list.

(** The page after the validation part of [handleBookingSubmit]. *)
Definition validated_page (st : State) (form : list Field) (pg : Page) : Page :=
  mkPage (toasts pg ++ missing_toasts st)%list
    (form_errors pg ++ shown_errors (filter required form))%list
    (requests pg) (storage pg) (time_listeners pg).

(** All the checks of [handleBookingSubmit] pass. *)
Definition submission_valid (st : State) (form : list Field) : bool :=
  forallb field_valid (filter required form)
  && selected (selectedDate st) && selected (selectedTime st).

(** The booking a confirmed submission stores. *)
Definition new_booking (cfg : Config) (env : Env) (st : State) (form : list Field)
  (service : Service.t) : Booking.t :=
  Booking.mk ("booking-" ++ toString (now env)) "deposit_pending" (nowISO env)
    (booking_data cfg st form service).

End App.

(* ================================================================= *)
(** ** Admin dashboard ([assets/admin.js]) *)

Module Admin.

(** [mockApiRequest] for [PATCH /api/bookings/<id>]: the first stored booking
    with the id gets [{ ...booking, ...updates }], where [updates] is
    [{ status }]. *)
Fixpoint findIndex (id : string) (bookings : list Booking.t) : option nat :=
  match bookings with
  | [] => None
  | b :: rest =>
      if Booking.id b =? id then Some 0%nat
      else match findIndex id rest with
           | Some i => Some (S i)
           | None => None
           end
  end.

(** [bookings[index] = v] for an index within bounds. *)
Fixpoint set_nth (index : nat) (v : Booking.t) (bookings : list Booking.t)
  : list Booking.t :=
  match bookings, index with
  | [], _ => []
  | _ :: rest, O => v :: rest
  | b :: rest, S i => b :: set_nth i v rest
  end.

Definition mock_patch_booking (endpoint : string) (status : string) (ls : Storage)
  : outcome Booking.t * Storage :=
  if startsWith endpoint "/api/bookings/" then
    let id := pop (split "/" endpoint) in
    let bookings := stored_bookings ls in
    match findIndex id bookings with
    | Some index =>
        match nth_error bookings index with
        | Some old =>
            let updated := Booking.with_status old status in
            (Ret updated, set_bookings ls (set_nth index updated bookings))
        | None => (Throw "Booking not found", ls)
        end
    | None => (Throw "Booking not found", ls)
    end
  else (Throw "Endpoint not implemented", ls).

(** [mockApiRequest] for [POST /api/availability/blocks] with the body
    [addBlock] sends. *)
Definition mock_post_block (env : Env) (date notes : string) (ls : Storage)
  : outcome Block.t * Storage :=
  let block := Block.mk ("block-" ++ toString (now env)) date "blackout" notes in
  let blocks := match sb_blocks ls with Some l => l | None => [] end in
  (Ret block,
   mkStorage (sb_bookings ls) (sb_blackout_dates ls) (Some (blocks ++ [block])%list)).

(** [b => b.id === id] *)
Definition has_id (id : string) (b : Booking.t) : bool := Booking.id b =? id.

(** The identifier holds no slash, as the identifiers the gateway issues. *)
Definition plain_id (id : string) : bool :=
  string_forallb (fun c => negb (Ascii.eqb c "/")) id.

(** The admin page: [STATE.currentPanel], [STATE.bookings], toasts, whether
    the booking drawer carries the class [open], and [localStorage].  The
    elements the scripts look up by id are those of the admin page. *)
Record Page : Type := mkPage {
  currentPanel : string;
  bookings : list Booking.t;
  toasts : list App.Toast;
  drawer_open : bool;
  storage : Storage
}.

(** [STATE.bookings.find(b => b.id === bookingId)] followed by
    [booking.status = newStatus]. *)
Fixpoint set_local_status (bookingId newStatus : string) (l : list Booking.t)
  : list Booking.t :=
  match l with
  | [] => []
  | b :: rest =>
      if Booking.id b =? bookingId
      then Booking.with_status b newStatus :: rest
      else b :: set_local_status bookingId newStatus rest
  end.

(** What [renderCurrentPanel()] does to [STATE.bookings]: on the dashboard
    panel [renderRecentBookings] sorts the array in place, newest first by
    [new Date(b.createdAt || b.date)]; the other panels leave it alone.  The
    order the host's [Date] and [sort] produce is the parameter
    [recent_first]. *)
Definition renderCurrentPanel (recent_first : list Booking.t -> list Booking.t)
  (panel : string) (bookings : list Booking.t) : list Booking.t :=
  if panel =? "dashboard" then recent_first bookings else bookings.

(** [updateBookingStatus(bookingId, newStatus)]: the request, the local
    status, the toast, [closeBookingDrawer()] and [renderCurrentPanel()]; the
    [catch] branch when the request fails. *)
Definition updateBookingStatus (recent_first : list Booking.t -> list Booking.t)
  (bookingId newStatus : string) (pg : Page) : Page :=
  let '(res, ls') :=
    mock_patch_booking ("/api/bookings/" ++ bookingId) newStatus (storage pg) in
  match res with
  | Ret _ =>
      mkPage (currentPanel pg)
        (renderCurrentPanel recent_first (currentPanel pg)
           (set_local_status bookingId newStatus (bookings pg)))
        (toasts pg ++ [App.mkToast "Booking status updated" "success"])%list
        false ls'
  | Throw _ =>
      mkPage (currentPanel pg) (bookings pg)
        (toasts pg ++ [App.mkToast "Failed to update booking status" "error"])%list
        (drawer_open pg) ls'
  end.

(** The status changes the buttons of [openBookingDrawer] offer for a booking
    in [status]. *)
Definition drawer_actions (status : string) : list string :=
  ((if status =? "deposit_pending" then ["deposit_paid"] else [])
   ++ (if status =? "deposit_paid" then ["completed"] else [])
   ++ (if negb (status =? "cancelled") && negb (status =? "no_show")
       then ["cancelled"; "no_show"] else []))%list.

End Admin.

(* ================================================================= *)
(** ** The specification's own notions, for comparison with the code *)

Module Spec.

Definition STATUSES : list string :=
  ["deposit_pending"; "deposit_paid"; "completed"; "cancelled"; "no_show"].

(** The transition table of the booking state machine. *)
Definition transition_allowed (from to : string) : bool :=
  ((from =? "deposit_pending")
   && ((to =? "deposit_paid") || (to =? "cancelled") || (to =? "no_show")))
  || ((from =? "deposit_paid")
      && ((to =? "completed") || (to =? "cancelled") || (to =? "no_show"))).

(** An active booking is one that is not cancelled. *)
Definition active (b : Booking.t) : bool := negb (Booking.status b =? "cancelled").

Definition slot_key (b : Booking.t) : string * string :=
  (Booking.date b, Booking.time b).

(** Some active booking occupies [(date, time)]. *)
Definition occupied_by_active (l : list Booking.t) (date time : string) : bool :=
  existsb (fun b => active b && (Booking.date b =? date) && (Booking.time b =? time)) l.

(** Double-booking prevention: no two active bookings share a
    [(date, time)]. *)
Definition no_double_booking (l : list Booking.t) : Prop :=
  NoDup (map slot_key (filter active l)).

(** The blocked set of the specification: the dates an admin block of type
    blackout names. *)
Definition has_blackout_block (ls : Storage) (date : string) : bool :=
  existsb (fun b => (Block.date b =? date) && (Block.type b =? "blackout"))
    (match sb_blocks ls with Some l => l | None => [] end).

(** A date is blocked when the client's blackout list holds it or an admin
    block of type blackout names it. *)
Definition blocked (ls : Storage) (date : string) : bool :=
  array_includes (match sb_blackout_dates ls with Some l => l | None => [] end) date
  || existsb (fun b => (Block.date b =? date) && (Block.type b =? "blackout"))
       (match sb_blocks ls with Some l => l | None => [] end).

(** A note the restriction parser matches, in the specification's words: a
    string that contains the phrase, in any case, and an hour pattern. *)
Definition note_matches (note : jsval) : bool :=
  match note with
  | JStr s =>
      includes (toUpperCase s) PHRASE
      && match regex_hour_period s with Some _ => true | None => false end
  | _ => false
  end.

(** The conversion rule: 12PM is 12, 12AM is 0, otherwise [hour + 12] for PM
    and [hour] for AM, on numbers. *)
Definition convert (hour : float) (period : string) : float :=
  if period =? "PM"
  then (if PrimFloat.eqb hour 12 then 12%float else PrimFloat.add hour 12)
  else (if PrimFloat.eqb hour 12 then zero else hour).

(** [note] is the first element of [notes] that is a string holding the
    phrase, in any case. *)
Definition first_phrase_note_is (notes : list jsval) (note : string) : Prop :=
  exists before after,
    notes = (before ++ JStr note :: after)%list
    /\ includes (toUpperCase note) PHRASE = true
    /\ forall v, In v before -> phrase_note v = false.

(** [ds] and [p] are the digits and the period of the leftmost occurrence of
    the hour pattern in [s]: no occurrence starts before it. *)
Definition leftmost_hour_pattern (s ds p : string) : Prop :=
  exists pre post,
    hour_pattern_at pre ds p post s
    /\ forall pre' ds' p' post',
         hour_pattern_at pre' ds' p' post' s ->
         (String.length pre <= String.length pre')%nat.

(** The restriction of a notes sequence: that of its first matching note. *)
Definition restriction (notes : list jsval) : option float :=
  match List.find note_matches notes with
  | Some (JStr s) =>
      match regex_hour_period s with
      | Some (ds, p) => Some (convert (parseInt ds) (toUpperCase p))
      | None => None
      end
  | _ => None
  end.

(** What a submission fails on first, checking the required fields in form
    order, then the date, then the time. *)
Inductive Failure : Type :=
| FieldInvalid (f : App.Field)
| DateMissing
| TimeMissing.

Definition first_failure (st : App.State) (form : list App.Field) : option Failure :=
  match List.find (fun f => App.required f && negb (App.field_error f =? "")) form with
  | Some f => Some (FieldInvalid f)
  | None =>
      if negb (App.selected (App.selectedDate st)) then Some DateMissing
      else if negb (App.selected (App.selectedTime st)) then Some TimeMissing
      else None
  end.

End Spec.

(* ================================================================= *)
(** ** Operations on the shared store *)

(** One write access to [localStorage] by either script: any request served
    by the client's mock gateway, a status update or a new block by the
    admin's. *)
Inductive step : Storage -> Storage -> Prop :=
| step_client (env : Env) (req : App.Request) (ls : Storage) :
    step ls (snd (App.mockApiRequest env req ls))
| step_patch (endpoint status : string) (ls : Storage) :
    step ls (snd (Admin.mock_patch_booking endpoint status ls))
| step_block (env : Env) (date notes : string) (ls : Storage) :
    step ls (snd (Admin.mock_post_block env date notes ls)).

Inductive reachable : Storage -> Storage -> Prop :=
| reach_refl (ls : Storage) : reachable ls ls
| reach_step (ls ls1 ls2 : Storage) :
    reachable ls ls1 -> step ls1 ls2 -> reachable ls ls2.

(* ================================================================= *)
(** ** Sample data, after the README *)

Module Sample.

Definition day : string := "2025-11-15".

Definition fulani : Service.t :=
  Service.mk "smedium-bohemian-fulani" "Smedium Bohemian Fulani" 250%float
    (JArr [JStr "SELECT"; JStr "Human and braiding hair NOT included";
           JStr "Base length is lower back"; JStr "DO NOT BOOK AFTER 8AM"]).

Definition jane : Customer.t :=
  Customer.mk (Some "Jane Doe") (Some "+1 (555) 123-4567") (Some "jane@example.com").

(** A request for [fulani] on [day] at nine. *)
#[warnings="-inexact-float"] Definition at_nine : BookingData.t :=
  BookingData.mk "smedium-bohemian-fulani" "Smedium Bohemian Fulani" day "09:00"
    jane "" (Some 0.35%float) (Some 250%float) (Some 87.5%float).

(** The same request at ten. *)
#[warnings="-inexact-float"] Definition at_ten : BookingData.t :=
  BookingData.mk "smedium-bohemian-fulani" "Smedium Bohemian Fulani" day "10:00"
    jane "" (Some 0.35%float) (Some 250%float) (Some 87.5%float).

Definition booking (id status : string) : Booking.t :=
  Booking.mk id status "2025-10-26T10:30:00.000Z" at_nine.

Definition env : Env :=
  mkEnv 1761474600000 "2025-10-26T10:30:00.000Z"
    ["2025-12-01"; "2025-12-08"; "2025-12-20"].

Definition no_storage : Storage := mkStorage None None None.

(** The slots of a day without bookings. *)
Definition all_free : list Slot.t :=
  [Slot.mk "07:00" true "7:00 AM"; Slot.mk "08:00" true "8:00 AM";
   Slot.mk "09:00" true "9:00 AM"; Slot.mk "10:00" true "10:00 AM";
   Slot.mk "11:00" true "11:00 AM"; Slot.mk "12:00" true "12:00 PM";
   Slot.mk "13:00" true "1:00 PM"; Slot.mk "14:00" true "2:00 PM";
   Slot.mk "15:00" true "3:00 PM"; Slot.mk "16:00" true "4:00 PM";
   Slot.mk "17:00" true "5:00 PM"; Slot.mk "18:00" true "6:00 PM"].

(** The slots of a day whose nine o'clock is taken. *)
Definition nine_taken : list Slot.t :=
  [Slot.mk "07:00" true "7:00 AM"; Slot.mk "08:00" true "8:00 AM";
   Slot.mk "09:00" false "9:00 AM"; Slot.mk "10:00" true "10:00 AM";
   Slot.mk "11:00" true "11:00 AM"; Slot.mk "12:00" true "12:00 PM";
   Slot.mk "13:00" true "1:00 PM"; Slot.mk "14:00" true "2:00 PM";
   Slot.mk "15:00" true "3:00 PM"; Slot.mk "16:00" true "4:00 PM";
   Slot.mk "17:00" true "5:00 PM"; Slot.mk "18:00" true "6:00 PM"].

(** A booking form filled in correctly. *)
Definition form : list App.Field :=
  [App.mkField "service" "select-one" true "smedium-bohemian-fulani" true;
   App.mkField "time" "select-one" true "09:00" true;
   App.mkField "name" "text" true "Jane Doe" true;
   App.mkField "phone" "tel" true "+1 (555) 123-4567" true;
   App.mkField "email" "email" true "jane@example.com" true;
   App.mkField "notes" "textarea" false "" false].

(** The same form with the email of the specification's example. *)
Definition form_bad_email : list App.Field :=
  [App.mkField "service" "select-one" true "smedium-bohemian-fulani" true;
   App.mkField "time" "select-one" true "09:00" true;
   App.mkField "name" "text" true "Jane Doe" true;
   App.mkField "phone" "tel" true "+1 (555) 123-4567" true;
   App.mkField "email" "email" true "not-an-email" true;
   App.mkField "notes" "textarea" false "" false].

Definition state : App.State :=
  App.mkState [fulani] (Some fulani) (Some day) (Some "09:00").

Definition blank_page (ls : Storage) : App.Page := App.mkPage [] [] [] ls 0.

End Sample.

(* ================================================================= *)
(** ** More of the client ([assets/app.js]): catalog, modal, contact form

    The elements the script looks up by id or selector are taken to be
    present, as in the page the script is written for. *)

Module Client.

(** *** Catalog grouped by category *)

(** The keys of the [categories] object of [renderServices], in order. *)
Definition CATEGORIES : list string :=
  ["Bohemian Barbie"; "Knotless & Twists"; "Fulani & Extras"; "Men's Styles"].

(** The property names an object literal inherits from [Object.prototype]:
    [categories[key]] is truthy for them, and holds no [push]. *)
Definition OBJECT_PROTOTYPE_KEYS : list string :=
  ["constructor"; "__defineGetter__"; "__defineSetter__"; "hasOwnProperty";
   "__lookupGetter__"; "__lookupSetter__"; "isPrototypeOf";
   "propertyIsEnumerable"; "toString"; "valueOf"; "__proto__"; "toLocaleString"].

(** *** Notes of a service written into the page *)

(** [notes && notes.length > n] *)
Definition notes_longer_than (n : float) (notes : jsval) : outcome bool :=
  if truthy notes then
    len <- to_number (length_of notes) ;;
    Ret (PrimFloat.ltb n len)
  else Ret false.

(** [escapeHtml(note)] for each note in turn: the note is assigned to
    [textContent], which takes [null] and [undefined] as the empty text and
    converts any other value to a string.  Only whether this raises is kept. *)
Fixpoint escape_each (notes : list jsval) : outcome unit :=
  match notes with
  | [] => Ret tt
  | note :: rest =>
      _ <- match note with
           | JNull | JUndefined => Ret ""
           | _ => to_string note
           end ;;
      escape_each rest
  end.

(** [notes.map(note => `<li>${escapeHtml(note)}</li>`)]: only arrays have a
    [map]. *)
Definition notes_items (notes : jsval) : outcome unit :=
  match notes with
  | JArr l => escape_each l
  | _ => Throw "TypeError: service.notes.map is not a function"
  end.

(** The notes list of [updateServiceDetails] and [renderServiceCard]:
    [notes && notes.length > 0 ? notes.map(...) : ...]. *)
Definition notes_list (notes : jsval) : outcome unit :=
  has <- notes_longer_than 0 notes ;;
  if has then notes_items notes else Ret tt.

(** [renderServiceCard(service)] for a service with string title, duration
    and identifier and a number as price, as far as it can raise. *)
Definition renderServiceCard (notes : jsval) : outcome unit :=
  _ <- notes_list notes ;;
  _ <- notes_longer_than 3 notes ;;
  Ret tt.

Section Grouping.

Variable A : Type.
Variable category : A -> string.
Variable notes : A -> jsval.

(** [service] is pushed onto the list of the category [name]. *)
Definition belongs (name : string) (service : A) : bool :=
  array_includes CATEGORIES (category service) && (name =? category service).

(** The body of [STATE.catalog.forEach]. *)
Definition push_service (categories : list (string * list A)) (service : A)
  : outcome (list (string * list A)) :=
  let key := category service in
  if array_includes CATEGORIES key then
    Ret (map (fun entry =>
                if fst entry =? key then (fst entry, (snd entry ++ [service])%list)
                else entry) categories)
  else if array_includes OBJECT_PROTOTYPE_KEYS key then
    Throw "TypeError: categories[service.category].push is not a function"
  else Ret categories.

Fixpoint push_all (categories : list (string * list A)) (catalog : list A)
  : outcome (list (string * list A)) :=
  match catalog with
  | [] => Ret categories
  | service :: rest =>
      categories' <- push_service categories service ;;
      push_all categories' rest
  end.

(** [services.map(service => renderServiceCard(service))] *)
Fixpoint render_cards (services : list A) : outcome unit :=
  match services with
  | [] => Ret tt
  | service :: rest =>
      _ <- renderServiceCard (notes service) ;;
      render_cards rest
  end.

(** The loop over [Object.keys(categories)], on the categories with
    services. *)
Fixpoint render_sections (sections : list (string * list A)) : outcome unit :=
  match sections with
  | [] => Ret tt
  | section :: rest =>
      _ <- render_cards (snd section) ;;
      render_sections rest
  end.

(** [renderServices()]: the category sections written to the container, each
    with the services of its grid; empty categories are skipped.  Nothing is
    written when a card raises. *)
Definition renderServices (catalog : list A) : outcome (list (string * list A)) :=
  categories <- push_all (map (fun name => (name, [])) CATEGORIES) catalog ;;
  let sections :=
    filter (fun entry => negb (Nat.eqb (List.length (snd entry)) 0)) categories in
  _ <- render_sections sections ;;
  Ret sections.

End Grouping.

(** *** Times of the day *)

(** The text [HH:MM] of hour [h] and minute [m]. *)
Definition clock_time (h m : N) : string :=
  padStart2 (toString h) ++ ":" ++ padStart2 (toString m).

(** Whether [formatTimeLabel] shows [h]:[m] on the twelve-hour clock. *)
Definition label_on_12h_clock (h m : N) : bool :=
  match App.formatTimeLabel (clock_time h m) with
  | Ret label =>
      label =? toString ((h + 11) mod 12 + 1) ++ ":" ++ padStart2 (toString m)
               ++ " " ++ (if (h <? 12)%N then "AM" else "PM")
  | Throw _ => false
  end.

(** *** Booking modal *)

Definition find_service (catalog : list Service.t) (serviceId : string)
  : option Service.t :=
  List.find (fun s => Service.id s =? serviceId) catalog.

Definition set_service (st : App.State) (service : option Service.t) : App.State :=
  App.mkState (App.catalog st) service (App.selectedDate st) (App.selectedTime st).

Definition set_storage (pg : App.Page) (ls : Storage) : App.Page :=
  App.mkPage (App.toasts pg) (App.form_errors pg) (App.requests pg) ls
    (App.time_listeners pg).

(** What [renderCalendar()] does to the page: [getBlackoutDates] may store
    its draw. *)
Definition renderCalendar (env : Env) (pg : App.Page) : App.Page :=
  set_storage pg (snd (App.getBlackoutDates env (App.storage pg))).

(** The three amounts of the deposit summary. *)
Record DepositSummary : Type := mkSummary {
  total : float;
  deposit : float;
  remaining : float
}.

(** [updateDepositCalculation()]: the summary shown, [None] when hidden. *)
Definition updateDepositCalculation (cfg : Config) (st : App.State)
  : option DepositSummary :=
  match App.selectedService st with
  | None => None
  | Some service =>
      let total := Service.price service in
      let depositAmount :=
        Math_max (PrimFloat.mul total (DEPOSIT_PERCENT cfg)) (DEPOSIT_MIN cfg) in
      let remaining := PrimFloat.sub total depositAmount in
      Some (mkSummary total depositAmount remaining)
  end.

(** [updateServiceDetails()], given the value of the service dropdown.  When
    writing the notes list raises, the service stays selected and the rest
    of the function is not run. *)
Definition updateServiceDetails (env : Env) (select_value : string)
  (st : App.State) (pg : App.Page) : App.State * App.Page :=
  if select_value =? "" then (set_service st None, pg)
  else
    match find_service (App.catalog st) select_value with
    | None => (st, pg)
    | Some service =>
        let st' := set_service st (Some service) in
        match notes_list (Service.notes service) with
        | Ret _ =>
            (st', if App.selected (App.selectedDate st') then renderCalendar env pg
                  else pg)
        | Throw _ => (st', pg)
        end
    end.

(** [openBookingModal(serviceId)]; the dropdown holds one option per catalog
    entry, so it takes the value of a service that was found. *)
Definition openBookingModal (env : Env) (serviceId : option string)
  (st : App.State) (pg : App.Page) : App.State * App.Page :=
  if App.selected serviceId then
    match find_service (App.catalog st) (App.string_of serviceId) with
    | Some service =>
        updateServiceDetails env (App.string_of serviceId)
          (set_service st (Some service)) pg
    | None => (st, pg)
    end
  else (st, pg).

(** [closeBookingModal()] *)
Definition closeBookingModal (st : App.State) : App.State :=
  App.mkState (App.catalog st) None None None.

Definition LOAD_ERROR : App.Toast :=
  App.mkToast "Failed to load available times. Please try again." "error".

(** [selectDate(dateString)]: the new state, the page, and the options put
    into the time dropdown ([None] when loading failed). *)
Definition selectDate (env : Env) (dateString : string) (st : App.State)
  (pg : App.Page) : App.State * App.Page * option (list App.TimeOption) :=
  let st' := App.mkState (App.catalog st) (App.selectedService st)
               (Some dateString) None in
  let pg := renderCalendar env pg in
  let '(res, pg) :=
    App.apiRequest env
      (App.mkRequest ("/api/availability?date=" ++ dateString) None None) pg in
  match res with
  | Ret (App.Availability _ slots) =>
      match App.populateTimeSlots st' slots pg with
      | (Ret options, pg) => (st', pg, Some options)
      | (Throw _, pg) =>
          (st', App.showToast (App.message LOAD_ERROR) (App.type LOAD_ERROR) pg, None)
      end
  | _ => (st', App.showToast (App.message LOAD_ERROR) (App.type LOAD_ERROR) pg, None)
  end.

(** A date the query string carries as it is: digits and dashes. *)
Definition plain_date (d : string) : bool :=
  negb (d =? "") && string_forallb (fun c => is_digit c || Ascii.eqb c "-") d.

(** The selected service, if any, is an entry of the catalog. *)
Definition service_from_catalog (st : App.State) : Prop :=
  match App.selectedService st with
  | Some service => In service (App.catalog st)
  | None => True
  end.

(** The moves of the booking modal. *)
Inductive modal_step : App.State * App.Page -> App.State * App.Page -> Prop :=
| step_open (env : Env) (serviceId : option string) st pg :
    modal_step (st, pg) (openBookingModal env serviceId st pg)
| step_service (env : Env) (select_value : string) st pg :
    modal_step (st, pg) (updateServiceDetails env select_value st pg)
| step_close st pg :
    modal_step (st, pg) (closeBookingModal st, pg)
| step_date (env : Env) (dateString : string) st pg :
    modal_step (st, pg) (fst (selectDate env dateString st pg))
| step_time (chosen : string) st pg :
    modal_step (st, pg) (App.on_time_change st chosen pg)
| step_submit (cfg : Config) (env : Env) (form : list App.Field) st pg :
    modal_step (st, pg) (st, snd (App.handleBookingSubmit cfg env st form pg)).

Inductive modal_run : App.State * App.Page -> App.State * App.Page -> Prop :=
| run_nil x : modal_run x x
| run_step x y z : modal_run x y -> modal_step y z -> modal_run x z.

(** *** Contact form *)

(** [handleContactSubmit(e)]: whether the message was accepted, and the
    page. *)
Definition handleContactSubmit (form : list App.Field) (pg : App.Page)
  : bool * App.Page :=
  let '(isValid, pg) := App.validate_each (filter App.required form) true pg in
  if negb isValid then (false, pg)
  else (true,
        App.showToast "Thank you for your message! We'll get back to you soon."
          "success" pg).

End Client.

(* ================================================================= *)
(** ** More of the dashboard ([assets/admin.js]): services, blocks, filters *)

Module Dashboard.

(** *** Objects as [JSON.parse] yields them *)

(** An object: its own properties in insertion order, each key once. *)
Definition obj : Type := list (string * jsval).

(** [o[key]] *)
Fixpoint get_prop (key : string) (o : obj) : jsval :=
  match o with
  | [] => JUndefined
  | (k, v) :: rest => if k =? key then v else get_prop key rest
  end.

(** [o[key] = v]: an existing key keeps its place, a new one goes last. *)
Fixpoint assign (key : string) (v : jsval) (o : obj) : obj :=
  match o with
  | [] => [(key, v)]
  | (k, w) :: rest => if k =? key then (k, v) :: rest else (k, w) :: assign key v rest
  end.

(** [{ ...a, ...b }] *)
Definition spread (a b : obj) : obj :=
  fold_left (fun acc kv => assign (fst kv) (snd kv) acc) b a.

(** [s.id === id] for a string [id]. *)
Definition id_is (id : string) (s : obj) : bool :=
  match get_prop "id" s with
  | JStr x => x =? id
  | _ => false
  end.

(** *** Services in [localStorage] *)

(** The value under [sb_services]; [None] is an absent key. *)
Definition ServiceStore : Type := option (list obj).

(** [loadFromStorage(CONFIG.STORAGE_KEYS.SERVICES) || []] *)
Definition load_services (store : ServiceStore) : list obj :=
  match store with
  | Some l => l
  | None => []
  end.

(** [GET /api/services] *)
Definition get_services (store : ServiceStore) : list obj := load_services store.

(** [POST /api/services] *)
Definition post_service (env : Env) (body : obj) (store : ServiceStore)
  : obj * ServiceStore :=
  let id := get_prop "id" body in
  let service :=
    assign "id" (if truthy id then id else JStr ("service-" ++ toString (now env))) body in
  let services := load_services store in
  (service, Some (services ++ [service])%list).

Fixpoint findIndex (id : string) (services : list obj) : option nat :=
  match services with
  | [] => None
  | s :: rest =>
      if id_is id s then Some 0%nat
      else match findIndex id rest with
           | Some i => Some (S i)
           | None => None
           end
  end.

(** [l[index] = v] for an index within bounds. *)
Fixpoint update_nth {A : Type} (index : nat) (v : A) (l : list A) : list A :=
  match l, index with
  | [], _ => []
  | _ :: rest, O => v :: rest
  | x :: rest, S i => x :: update_nth i v rest
  end.

(** [PUT /api/services/<id>] *)
Definition put_service (endpoint : string) (body : obj) (store : ServiceStore)
  : outcome obj * ServiceStore :=
  if startsWith endpoint "/api/services/" then
    let id := pop (split "/" endpoint) in
    let services := load_services store in
    match findIndex id services with
    | Some index =>
        match nth_error services index with
        | Some old =>
            let merged := spread old body in
            (Ret merged, Some (update_nth index merged services))
        | None => (Throw "Service not found", store)
        end
    | None => (Throw "Service not found", store)
    end
  else (Throw "Endpoint not implemented", store).

(** [DELETE /api/services/<id>] *)
Definition delete_service (endpoint : string) (store : ServiceStore)
  : outcome unit * ServiceStore :=
  if startsWith endpoint "/api/services/" then
    let id := pop (split "/" endpoint) in
    let services := load_services store in
    (Ret tt, Some (filter (fun s => negb (id_is id s)) services))
  else (Throw "Endpoint not implemented", store).

(** [moveService(index, direction)] on [STATE.services], for [index] an index
    of the array as in the buttons [renderServices] draws; the result is also
    what is saved. *)
Definition moveService {A : Type} (index : nat) (direction : Z) (services : list A)
  : list A :=
  let target := (Z.of_nat index + direction)%Z in
  if (target <? 0)%Z || (Z.of_nat (List.length services) <=? target)%Z then services
  else
    match nth_error services index, nth_error services (Z.to_nat target) with
    | Some temp, Some other =>
        update_nth (Z.to_nat target) temp (update_nth index other services)
    | _, _ => services
    end.

(** *** Notes of a service in the edit drawer *)

Definition NEWLINE : ascii := ascii_of_nat 10.

(** [service.notes.join('\n')], what [openServiceDrawer] puts into the notes
    box. *)
Definition notes_text (notes : list string) : string :=
  String.concat (String NEWLINE EmptyString) notes.

Definition RETURN : ascii := ascii_of_nat 13.

(** The value a [textarea] gives back for the text put into it: a carriage
    return, with the line feed that follows it if there is one, is a line
    feed.  [FormData] hands the value on as it is. *)
Fixpoint textarea_value (raw : string) : string :=
  match raw with
  | EmptyString => EmptyString
  | String c r =>
      if Ascii.eqb c RETURN then
        match r with
        | String c' r' =>
            if Ascii.eqb c' NEWLINE then String NEWLINE (textarea_value r')
            else String NEWLINE (textarea_value r)
        | EmptyString => String NEWLINE EmptyString
        end
      else String c (textarea_value r)
  end.

(** A character that is no line break. *)
Definition line_char (c : ascii) : bool :=
  negb (Ascii.eqb c NEWLINE) && negb (Ascii.eqb c RETURN).

(** A note of one line: no line break in it, and not blank. *)
Definition one_line (n : string) : Prop :=
  string_forallb line_char n = true /\ trim n <> "".

(** What [saveService] reads back from the box holding [raw]: the lines of
    its value that are not blank. *)
Definition notes_of_text (raw : string) : list string :=
  filter (fun n => negb (trim n =? "")) (split NEWLINE (textarea_value raw)).

(** *** Service images *)

(** [self.indexOf(x)] *)
Fixpoint indexOf (x : string) (self : list string) : option nat :=
  match self with
  | [] => None
  | y :: rest =>
      if y =? x then Some 0%nat
      else match indexOf x rest with
           | Some i => Some (S i)
           | None => None
           end
  end.

(** [l.filter((x, index) => p x index)], counting from [index]. *)
Fixpoint filter_indexed (p : string -> nat -> bool) (index : nat) (l : list string)
  : list string :=
  match l with
  | [] => []
  | x :: rest =>
      if p x index then x :: filter_indexed p (S index) rest
      else filter_indexed p (S index) rest
  end.

(** The images [renderServiceImages] shows, from the [img] of each service
    (a string, empty when the service has none). *)
Definition service_images (imgs : list string) : list string :=
  let self := filter (fun img => negb (img =? "")) imgs in
  filter_indexed
    (fun img index =>
       match indexOf img self with
       | Some i => Nat.eqb i index
       | None => false
       end) 0 self.

(** The first occurrence of each element of [l] that is not in [seen], in
    the order of [l]: what the [indexOf] test above selects. *)
Fixpoint first_occurrences (seen l : list string) : list string :=
  match l with
  | [] => []
  | x :: rest =>
      if existsb (String.eqb x) seen then first_occurrences seen rest
      else x :: first_occurrences (x :: seen) rest
  end.

(** [removeServiceImage(imagePath)] once confirmed, on the [img] of each
    service. *)
Definition removeServiceImage (imagePath : string) (imgs : list string)
  : list string :=
  map (fun img => if img =? imagePath then "" else img) imgs.

(** *** Bookings panel and dashboard figures *)

Record Filters : Type := mkFilters {
  dateFrom : string;
  dateTo : string;
  serviceId : string;
  status : string
}.

(** [if (v) l = l.filter(p)]: an empty filter value filters nothing. *)
Definition filter_if (v : string) (p : Booking.t -> bool) (l : list Booking.t)
  : list Booking.t :=
  if v =? "" then l else filter p l.

(** The rows [applyBookingFilters] hands to the table. *)
Definition applyBookingFilters (f : Filters) (bookings : list Booking.t)
  : list Booking.t :=
  let filtered := bookings in
  let filtered := filter_if (dateFrom f) (fun b => String.leb (dateFrom f) (Booking.date b)) filtered in
  let filtered := filter_if (dateTo f) (fun b => String.leb (Booking.date b) (dateTo f)) filtered in
  let filtered :=
    filter_if (serviceId f)
      (fun b => BookingData.serviceId (Booking.data b) =? serviceId f) filtered in
  let filtered := filter_if (status f) (fun b => Booking.status b =? status f) filtered in
  filtered.

(** [pendingDeposits] of [renderStats]. *)
Definition pendingDeposits (bookings : list Booking.t) : nat :=
  List.length (filter (fun b => Booking.status b =? "deposit_pending") bookings).

(** [b.amountDue || 0] *)
Definition amount_due (b : Booking.t) : float :=
  match BookingData.amountDue (Booking.data b) with
  | Some x => if is_zero x || is_nan x then zero else x
  | None => zero
  end.

(** [b.status === 'completed' || b.status === 'deposit_paid'] *)
Definition paid (status : string) : bool :=
  (status =? "completed") || (status =? "deposit_paid").

(** The amounts [totalRevenue] adds up, in the order it adds them. *)
Definition paid_amounts (bookings : list Booking.t) : list float :=
  map amount_due (filter (fun b => paid (Booking.status b)) bookings).

(** [totalRevenue] of [renderStats]. *)
Definition totalRevenue (bookings : list Booking.t) : float :=
  fold_left (fun sum b => PrimFloat.add sum (amount_due b))
    (filter (fun b => paid (Booking.status b)) bookings)
    zero.

(** What of a booking no status update touches. *)
Definition booking_record (b : Booking.t) : string * string * BookingData.t :=
  (Booking.id b, Booking.createdAt b, Booking.data b).

(** *** Calendar blocks *)

Definition stored_blocks (ls : Storage) : list Block.t :=
  match sb_blocks ls with
  | Some l => l
  | None => []
  end.

(** [addBlock()], given what the two prompts return: the new [STATE.blocks]
    and the store. *)
Definition addBlock (env : Env) (date notes : option string)
  (blocks : list Block.t) (ls : Storage) : list Block.t * Storage :=
  if negb (App.selected date) then (blocks, ls)
  else
    let '(_, ls') :=
      Admin.mock_post_block env (App.string_of date)
        (if App.selected notes then App.string_of notes else "") ls in
    (stored_blocks ls', ls').

(** [deleteBlock(blockId)], given the answer to the confirmation. *)
Definition deleteBlock (confirmed : bool) (blockId : string)
  (blocks : list Block.t) (ls : Storage) : list Block.t * Storage :=
  if negb confirmed then (blocks, ls)
  else
    let filtered := filter (fun b => negb (Block.id b =? blockId)) (stored_blocks ls) in
    (filtered, mkStorage (sb_bookings ls) (sb_blackout_dates ls) (Some filtered)).

End Dashboard.

(* ================================================================= *)
(** ** Every write to the booking keys of the store *)

(** One write access to [sb_bookings], [sb_blackout_dates] or [sb_blocks] by
    either script: the accesses of [step], the client drawing its blackout
    dates, and the admin removing a block. *)
Inductive write : Storage -> Storage -> Prop :=
| write_step (ls ls' : Storage) : step ls ls' -> write ls ls'
| write_blackout (env : Env) (ls : Storage) :
    write ls (snd (App.getBlackoutDates env ls))
| write_unblock (confirmed : bool) (blockId : string) (blocks : list Block.t)
    (ls : Storage) :
    write ls (snd (Dashboard.deleteBlock confirmed blockId blocks ls)).

Inductive history : Storage -> Storage -> Prop :=
| history_nil (ls : Storage) : history ls ls
| history_write (ls ls1 ls2 : Storage) :
    history ls ls1 -> write ls1 ls2 -> history ls ls2.

(* ================================================================= *)
(** ** The pattern test decides the language of the pattern *)

Section RegexFacts.

Lemma append_empty (s1 s2 : string) : s1 ++ s2 = "" -> s1 = "" /\ s2 = "".
Proof. destruct s1; cbn; [auto | discriminate]. Qed.

Lemma nullable_in_lang (r : regex) : nullable r = true <-> in_lang r "".
Proof.
  split.
  - induction r; cbn; intros H; try discriminate.
    + constructor.
    + apply andb_true_iff in H as [H1 H2].
      change "" with ("" ++ ""). constructor; auto.
    + apply orb_true_iff in H as [H | H]; [apply lang_alt_l | apply lang_alt_r]; auto.
    + constructor.
  - intros H. remember "" as s eqn:Es. induction H; cbn; try discriminate; try reflexivity.
    + apply append_empty in Es as [-> ->].
      rewrite (IHin_lang1 eq_refl), (IHin_lang2 eq_refl). reflexivity.
    + rewrite (IHin_lang Es). reflexivity.
    + rewrite (IHin_lang Es), orb_true_r. reflexivity.
Qed.

Lemma deriv_sound (c : ascii) (r : regex) (s : string) :
  in_lang (deriv c r) s -> in_lang r (String c s).
Proof.
  revert s. induction r; cbn [deriv]; intros s H.
  - inversion H.
  - inversion H.
  - destruct (p c) eqn:E; inversion H; subst. now constructor.
  - assert (in_lang (Seq (deriv c r1) r2) s -> in_lang (Seq r1 r2) (String c s)) as Hseq.
    { intros H'. inversion H'; subst.
      change (String c (s1 ++ s2)) with (String c s1 ++ s2). constructor; auto. }
    destruct (nullable r1) eqn:En; [|auto].
    inversion H; subst; [auto|].
    change (String c s) with ("" ++ String c s).
    constructor; [now apply nullable_in_lang | auto].
  - inversion H; subst; [apply lang_alt_l | apply lang_alt_r]; auto.
  - inversion H; subst.
    change (String c (s1 ++ s2)) with (String c s1 ++ s2). constructor; auto.
Qed.

Lemma deriv_complete (c : ascii) (r : regex) (s : string) :
  in_lang r (String c s) -> in_lang (deriv c r) s.
Proof.
  intros H. remember (String c s) as cs eqn:E. revert c s E.
  induction H; intros c0 s0 E; cbn [deriv]; try discriminate.
  - injection E as -> <-. rewrite H. constructor.
  - destruct s1 as [|c1 s1']; cbn in E.
    + assert (nullable r1 = true) as -> by now apply nullable_in_lang.
      apply lang_alt_r. auto.
    + injection E as -> <-.
      assert (in_lang (Seq (deriv c0 r1) r2) (s1' ++ s2)) as Hs
        by (constructor; auto).
      destruct (nullable r1); [apply lang_alt_l|]; exact Hs.
  - apply lang_alt_l. auto.
  - apply lang_alt_r. auto.
  - destruct s1 as [|c1 s1']; cbn in E.
    + exact (IHin_lang2 _ _ E).
    + injection E as -> <-. constructor; auto.
Qed.

(** [test] decides membership in the language. *)
Lemma test_in_lang (r : regex) (s : string) : test r s = true <-> in_lang r s.
Proof.
  revert r. induction s as [|c s IH]; intros r; cbn [test].
  - apply nullable_in_lang.
  - rewrite IH. split; [apply deriv_sound | apply deriv_complete].
Qed.

End RegexFacts.

(* ================================================================= *)
(** ** Binary64 numbers: order, small integers, texts of digits *)

Section Binary64Facts.

Lemma SFcompare_antisym (x y : spec_float) :
  SFcompare y x = option_map CompOpp (SFcompare x y).
Proof.
  destruct x as [sx|sx| |sx mx ex], y as [sy|sy| |sy my ey]; cbn;
    try reflexivity; try (destruct sx; reflexivity); try (destruct sy; reflexivity);
    try (destruct sx, sy; reflexivity).
  pose proof (Pos.compare_cont_antisym mx my Eq) as Hm. cbn [CompOpp] in Hm.
  destruct sx, sy; cbn; try reflexivity;
    rewrite (Z.compare_antisym ex ey), <- Hm;
    destruct (ex ?= ey)%Z; cbn; try reflexivity;
    destruct (Pos.compare_cont Eq mx my); reflexivity.
Qed.

Lemma SFcompare_refl (x : spec_float) :
  SFcompare x x = match x with S754_nan => None | _ => Some Eq end.
Proof.
  destruct x as [s|s| |s m e]; cbn; try reflexivity; try (destruct s; reflexivity).
  destruct s; rewrite Z.compare_refl, Pos.compare_cont_refl; reflexivity.
Qed.

Lemma is_nan_Prim2SF (x : float) :
  is_nan x = match Prim2SF x with S754_nan => true | _ => false end.
Proof.
  unfold is_nan. rewrite FloatAxioms.eqb_spec. unfold SFeqb. rewrite SFcompare_refl.
  destruct (Prim2SF x); reflexivity.
Qed.

Lemma SFcompare_some (x y : spec_float) :
  x <> S754_nan -> y <> S754_nan -> exists c, SFcompare x y = Some c.
Proof.
  destruct x as [sx|sx| |sx mx ex], y as [sy|sy| |sy my ey]; cbn; intros Hx Hy;
    try contradiction; eauto.
Qed.

Lemma ltb_leb (a b : float) : PrimFloat.ltb a b = true -> PrimFloat.leb a b = true.
Proof.
  rewrite ltb_spec, leb_spec. unfold SFltb, SFleb.
  destruct (SFcompare _ _) as [[]|]; congruence.
Qed.

Lemma ltb_false_leb (a b : float) :
  is_nan a = false -> is_nan b = false -> PrimFloat.ltb a b = false -> PrimFloat.leb b a = true.
Proof.
  rewrite !is_nan_Prim2SF, ltb_spec, leb_spec. unfold SFltb, SFleb.
  intros Ha Hb. rewrite (SFcompare_antisym (Prim2SF a) (Prim2SF b)).
  destruct (SFcompare_some (Prim2SF a) (Prim2SF b)) as [c ->].
  - intros E. now rewrite E in Ha.
  - intros E. now rewrite E in Hb.
  - destruct c; cbn; congruence.
Qed.

Lemma leb_refl (a : float) : is_nan a = false -> PrimFloat.leb a a = true.
Proof.
  rewrite is_nan_Prim2SF, leb_spec. unfold SFleb. rewrite SFcompare_refl.
  destruct (Prim2SF a); congruence.
Qed.

(** [Math.max] of two numbers is one of them and not below either. *)
Lemma Math_max_spec (a b : float) :
  is_nan a = false -> is_nan b = false ->
  (Math_max a b = a \/ Math_max a b = b)
  /\ PrimFloat.leb a (Math_max a b) = true /\ PrimFloat.leb b (Math_max a b) = true.
Proof.
  intros Ha Hb. unfold Math_max. rewrite Ha, Hb. cbn [orb].
  destruct (PrimFloat.ltb a b) eqn:Eab.
  - split; [now right|]. split; [now apply ltb_leb | now apply leb_refl].
  - destruct (ltb b a) eqn:Eba.
    + split; [now left|]. split; [now apply leb_refl | now apply ltb_leb].
    + destruct (get_sign a).
      * split; [now right|]. split; [now apply ltb_false_leb | now apply leb_refl].
      * split; [now left|]. split; [now apply leb_refl | now apply ltb_false_leb].
Qed.

(** *** Integers below 2^53 *)

Lemma digits2_size (p : positive) : digits2_pos p = Pos.size p.
Proof. induction p; cbn; congruence. Qed.

Lemma size_bounds (p : positive) :
  (2 ^ (Zpos (Pos.size p) - 1) <= Zpos p < 2 ^ Zpos (Pos.size p))%Z.
Proof.
  pose proof (Pos.size_gt p) as Hgt. pose proof (Pos.size_le p) as Hle.
  apply Pos2Z.pos_lt_pos in Hgt. apply Pos2Z.pos_le_pos in Hle.
  rewrite Pos2Z.inj_pow in Hgt, Hle. change (Zpos p~0) with (2 * Zpos p)%Z in Hle.
  replace (Zpos (Pos.size p)) with (1 + (Zpos (Pos.size p) - 1))%Z in Hle at 1 by lia.
  rewrite Z.pow_add_r in Hle by lia. change (2 ^ 1)%Z with 2%Z in Hle. lia.
Qed.

Lemma iter_xO_pow (p k : positive) :
  Zpos (Pos.iter xO p k) = (Zpos p * 2 ^ Zpos k)%Z.
Proof.
  induction k using Pos.peano_ind.
  - cbn [Pos.iter]. change (Zpos p~0) with (2 * Zpos p)%Z. lia.
  - rewrite Pos.iter_succ, Pos2Z.inj_succ, Z.pow_succ_r by lia.
    change (Zpos (Pos.iter xO p k)~0) with (2 * Zpos (Pos.iter xO p k))%Z. lia.
Qed.

Lemma iter_xO_size (p k : positive) :
  Pos.size (Pos.iter xO p k) = (Pos.size p + k)%positive.
Proof.
  revert p. induction k using Pos.peano_ind; intros p.
  - cbn [Pos.iter Pos.size]. now rewrite Pos.add_1_r.
  - rewrite Pos.iter_succ. cbn [Pos.size]. now rewrite IHk, Pos.add_succ_r.
Qed.

(** The binary64 representation of a positive integer below 2^53: it is
    exact. *)
Lemma normalize_small (n : positive) :
  (Zpos n < 2 ^ 53)%Z ->
  exists m,
    binary_normalize prec emax (Zpos n) 0 false
    = S754_finite false m (Zpos (Pos.size n) - 53)
    /\ Zpos m = (Zpos n * 2 ^ (53 - Zpos (Pos.size n)))%Z.
Proof.
  intros Hn. pose proof (size_bounds n) as [Hlo Hhi].
  assert (Zpos (Pos.size n) <= 53)%Z as Hd.
  { destruct (Z.le_gt_cases (Zpos (Pos.size n)) 53) as [H|H]; [exact H|].
    assert (2 ^ 53 <= 2 ^ (Zpos (Pos.size n) - 1))%Z by (apply Z.pow_le_mono_r; lia).
    lia. }
  assert (forall m e, Pos.size m = 53%positive -> (-1074 <= e <= 971)%Z ->
            binary_round_aux prec emax false (Zpos m) e loc_Exact
            = S754_finite false m e) as Haux.
  { intros m e Hm He.
    assert (shr_fexp prec emax (Zpos m) e loc_Exact
            = ({| shr_m := Zpos m; shr_r := false; shr_s := false |}, e)) as Hshr.
    { unfold shr_fexp, Zdigits2, fexp, SpecFloat.emin. rewrite digits2_size, Hm.
      unfold prec, emax.
      replace (Z.max (53 + e - 53) (3 - 1024 - 53) - e)%Z with 0%Z by lia.
      reflexivity. }
    unfold binary_round_aux. rewrite Hshr. cbn [shr_m loc_of_shr_record round_nearest_even].
    rewrite Hshr. cbn [shr_m]. unfold prec, emax.
    destruct (Z.leb_spec e (1024 - 53)); [reflexivity | lia]. }
  cbn [binary_normalize]. unfold binary_round, shl_align, fexp, SpecFloat.emin.
  rewrite digits2_size. unfold prec, emax.
  replace (Z.max (Zpos (Pos.size n) + 0 - 53) (3 - 1024 - 53) - 0)%Z
    with (Zpos (Pos.size n) - 53)%Z by lia.
  replace (Z.max (Zpos (Pos.size n) + 0 - 53) (3 - 1024 - 53))%Z
    with (Zpos (Pos.size n) - 53)%Z by lia.
  destruct (Zpos (Pos.size n) - 53)%Z as [|k|k] eqn:Ek; [| lia |].
  - exists n. rewrite Haux; [| | lia].
    + split; [reflexivity|]. replace (53 - Zpos (Pos.size n))%Z with 0%Z by lia. lia.
    + lia.
  - exists (Pos.iter xO n k). rewrite Haux.
    + split; [reflexivity|]. rewrite iter_xO_pow. f_equal. f_equal. lia.
    + rewrite iter_xO_size. lia.
    + lia.
Qed.

Lemma normalize_small_valid (n : positive) :
  (Zpos n < 2 ^ 53)%Z ->
  valid_binary (binary_normalize prec emax (Zpos n) 0 false) = true.
Proof.
  intros Hn. destruct (normalize_small n Hn) as (m & -> & Hm).
  pose proof (size_bounds n) as [Hlo Hhi].
  pose proof (size_bounds m) as [Hmlo Hmhi].
  assert (Zpos (Pos.size n) <= 53)%Z as Hd.
  { destruct (Z.le_gt_cases (Zpos (Pos.size n)) 53) as [H|H]; [exact H|].
    assert (2 ^ 53 <= 2 ^ (Zpos (Pos.size n) - 1))%Z by (apply Z.pow_le_mono_r; lia).
    lia. }
  assert (Zpos (Pos.size m) = 53)%Z as Hs.
  { assert (2 ^ 52 <= Zpos m < 2 ^ 53)%Z as [H1 H2].
    { rewrite Hm. split.
      - replace 52%Z with ((Zpos (Pos.size n) - 1) + (53 - Zpos (Pos.size n)))%Z by lia.
        rewrite Z.pow_add_r by lia. apply Z.mul_le_mono_nonneg_r; [apply Z.pow_nonneg|]; lia.
      - replace 53%Z with (Zpos (Pos.size n) + (53 - Zpos (Pos.size n)))%Z at 2 by lia.
        rewrite Z.pow_add_r by lia. apply Z.mul_lt_mono_pos_r; [apply Z.pow_pos_nonneg|]; lia. }
    destruct (Z.lt_trichotomy (Zpos (Pos.size m)) 53) as [H|[H|H]]; [|exact H|].
    - assert (2 ^ Zpos (Pos.size m) <= 2 ^ 52)%Z by (apply Z.pow_le_mono_r; lia). lia.
    - assert (2 ^ 53 <= 2 ^ (Zpos (Pos.size m) - 1))%Z by (apply Z.pow_le_mono_r; lia). lia. }
  cbn [SpecFloat.valid_binary]. unfold bounded, canonical_mantissa, fexp, SpecFloat.emin.
  rewrite digits2_size, Hs. unfold prec, emax.
  apply andb_true_iff. split; [apply Z.eqb_eq | apply Z.leb_le]; lia.
Qed.

Lemma Prim2SF_float_of_Z (n : Z) :
  (0 <= n < 2 ^ 53)%Z ->
  Prim2SF (float_of_Z n) = binary_normalize prec emax n 0 false.
Proof.
  intros Hn. unfold float_of_Z. apply Prim2SF_SF2Prim.
  destruct n as [|p|p]; [reflexivity | apply normalize_small_valid; lia | lia].
Qed.

(** Below 2^53 integers keep their order as binary64 numbers. *)
Lemma float_of_Z_compare (a b : Z) :
  (0 <= a < 2 ^ 53)%Z -> (0 <= b < 2 ^ 53)%Z ->
  SFcompare (Prim2SF (float_of_Z a)) (Prim2SF (float_of_Z b)) = Some (a ?= b)%Z.
Proof.
  intros Ha Hb. rewrite !Prim2SF_float_of_Z by assumption.
  destruct a as [|p|p], b as [|q|q]; try lia; try reflexivity.
  - destruct (normalize_small q) as (m & -> & _); [lia | reflexivity].
  - destruct (normalize_small p) as (m & -> & _); [lia | reflexivity].
  - destruct (normalize_small p) as (m1 & -> & H1); [lia|].
    destruct (normalize_small q) as (m2 & -> & H2); [lia|].
    pose proof (size_bounds p) as [Hp1 Hp2]. pose proof (size_bounds q) as [Hq1 Hq2].
    cbn [SFcompare].
    destruct (Z.compare_spec (Zpos (Pos.size p) - 53) (Zpos (Pos.size q) - 53)) as [E|E|E].
    + replace (Zpos (Pos.size q)) with (Zpos (Pos.size p)) in H2 by lia.
      change (Pos.compare_cont Eq m1 m2) with (Zpos m1 ?= Zpos m2)%Z.
      rewrite H1, H2. f_equal.
      assert (0 < 2 ^ (53 - Zpos (Pos.size p)))%Z as Hpos.
      { apply Z.pow_pos_nonneg; [lia|].
        destruct (Z.le_gt_cases (Zpos (Pos.size p)) 53) as [H|H]; [lia|].
        assert (2 ^ 53 <= 2 ^ (Zpos (Pos.size p) - 1))%Z by (apply Z.pow_le_mono_r; lia).
        lia. }
      destruct (Z.compare_spec (Zpos p) (Zpos q)) as [->|H|H].
      * apply Z.compare_refl.
      * apply Z.compare_lt_iff. nia.
      * apply Z.compare_gt_iff. nia.
    + f_equal. symmetry. apply Z.compare_lt_iff.
      assert (2 ^ Zpos (Pos.size p) <= 2 ^ (Zpos (Pos.size q) - 1))%Z
        by (apply Z.pow_le_mono_r; lia).
      lia.
    + f_equal. symmetry. apply Z.compare_gt_iff.
      assert (2 ^ Zpos (Pos.size q) <= 2 ^ (Zpos (Pos.size p) - 1))%Z
        by (apply Z.pow_le_mono_r; lia).
      lia.
Qed.

Lemma float_of_Z_ltb (a b : Z) :
  (0 <= a < 2 ^ 53)%Z -> (0 <= b < 2 ^ 53)%Z ->
  PrimFloat.ltb (float_of_Z a) (float_of_Z b) = (a <? b)%Z.
Proof.
  intros Ha Hb. rewrite ltb_spec. unfold SFltb.
  rewrite float_of_Z_compare by assumption. unfold Z.ltb.
  destruct (a ?= b)%Z; reflexivity.
Qed.

Lemma float_of_Z_eqb (a b : Z) :
  (0 <= a < 2 ^ 53)%Z -> (0 <= b < 2 ^ 53)%Z ->
  PrimFloat.eqb (float_of_Z a) (float_of_Z b) = (a =? b)%Z.
Proof.
  intros Ha Hb. rewrite FloatAxioms.eqb_spec. unfold SFeqb.
  rewrite float_of_Z_compare by assumption. unfold Z.eqb.
  destruct (Z.compare_spec a b) as [->|H|H].
  - destruct b; try reflexivity. now rewrite Pos.eqb_refl. now rewrite Pos.eqb_refl.
  - destruct a, b; try reflexivity; try lia.
    destruct (Pos.eqb_spec p p0); [lia | reflexivity].
  - destruct a, b; try reflexivity; try lia.
    destruct (Pos.eqb_spec p p0); [lia | reflexivity].
Qed.


(** The number an integer below 2^53 becomes is that integer. *)
Lemma float_of_Z_exact (n : Z) :
  (0 <= n < 2 ^ 53)%Z -> integer_value (float_of_Z n) = Some n.
Proof.
  intros Hn. unfold integer_value. rewrite Prim2SF_float_of_Z by assumption.
  destruct n as [|p|p]; [reflexivity | | lia].
  destruct (normalize_small p) as (m & -> & Hm); [lia|].
  pose proof (size_bounds p) as [Hlo Hhi].
  assert (Zpos (Pos.size p) <= 53)%Z as Hd.
  { destruct (Z.le_gt_cases (Zpos (Pos.size p)) 53) as [H|H]; [exact H|].
    assert (2 ^ 53 <= 2 ^ (Zpos (Pos.size p) - 1))%Z by (apply Z.pow_le_mono_r; lia).
    lia. }
  cbn [cond_Zopp]. rewrite Hm.
  destruct (Z.leb_spec 0 (Zpos (Pos.size p) - 53)) as [H|H].
  - replace (53 - Zpos (Pos.size p))%Z with 0%Z by lia.
    replace (Zpos (Pos.size p) - 53)%Z with 0%Z by lia.
    f_equal. change (2 ^ 0)%Z with 1%Z. lia.
  - replace (- (Zpos (Pos.size p) - 53))%Z with (53 - Zpos (Pos.size p))%Z by lia.
    assert (0 < 2 ^ (53 - Zpos (Pos.size p)))%Z as Hpos
      by (apply Z.pow_pos_nonneg; lia).
    rewrite Z.mod_mul by lia. cbn [Z.eqb]. rewrite Z.div_mul by lia. reflexivity.
Qed.

Lemma span_all (p : ascii -> bool) (s : string) :
  string_forallb p s = true -> span p s = (s, "").
Proof.
  induction s as [|c r IH]; cbn; [reflexivity|].
  intros H. apply andb_true_iff in H as [-> Hr]. now rewrite (IH Hr).
Qed.

Lemma is_radix_digit_10 (c : ascii) : is_radix_digit 10 c = is_digit c.
Proof. destruct c as [[] [] [] [] [] [] [] []]; reflexivity. Qed.

Lemma digits_radix_10 (s : string) :
  string_forallb (is_radix_digit 10) s = string_forallb is_digit s.
Proof.
  induction s as [|c r IH]; cbn; [reflexivity|]. now rewrite is_radix_digit_10, IH.
Qed.

Lemma string_rev_onto_twice (s acc acc' : string) :
  string_rev_onto (string_rev_onto s acc) acc' = string_rev_onto acc (s ++ acc').
Proof.
  revert acc acc'. induction s as [|c r IH]; intros acc acc'; cbn; [reflexivity|].
  now rewrite IH.
Qed.

Lemma string_rev_onto_all (p : ascii -> bool) (s acc : string) :
  string_forallb p (string_rev_onto s acc) = string_forallb p s && string_forallb p acc.
Proof.
  revert acc. induction s as [|c r IH]; intros acc; cbn; [reflexivity|].
  rewrite IH. cbn. destruct (p c), (string_forallb p r); reflexivity.
Qed.

Lemma trimStart_plain (s : string) :
  string_forallb (fun c => negb (is_space c)) s = true -> trimStart s = s.
Proof.
  destruct s as [|c r]; cbn; [reflexivity|].
  intros H. apply andb_true_iff in H as [Hc _].
  apply negb_true_iff in Hc. now rewrite Hc.
Qed.

Lemma trim_plain (s : string) :
  string_forallb (fun c => negb (is_space c)) s = true -> trim s = s.
Proof.
  intros H. unfold trim, string_rev. rewrite (trimStart_plain s H).
  rewrite trimStart_plain.
  - rewrite string_rev_onto_twice. cbn. clear H. induction s; cbn; [reflexivity | now f_equal].
  - rewrite string_rev_onto_all, H. reflexivity.
Qed.

Lemma digit_not_space (c : ascii) : is_digit c = true -> is_space c = false.
Proof. destruct c as [[] [] [] [] [] [] [] []]; vm_compute; congruence. Qed.

Lemma digits_not_space (s : string) :
  string_forallb is_digit s = true ->
  string_forallb (fun c => negb (is_space c)) s = true.
Proof.
  induction s as [|c r IH]; cbn; [reflexivity|].
  intros H. apply andb_true_iff in H as [Hc Hr].
  now rewrite (digit_not_space c Hc), (IH Hr).
Qed.

(** Being [===] to a number other than zero is being that number. *)
Lemma eqb_finite_eq (a b : float) (sb : bool) (mb : positive) (eb : Z) :
  Prim2SF b = S754_finite sb mb eb -> PrimFloat.eqb a b = true -> a = b.
Proof.
  intros Hb. rewrite FloatAxioms.eqb_spec, Hb. unfold SFeqb. intros H.
  apply Prim2SF_inj. rewrite Hb.
  destruct (Prim2SF a) as [s|s| |s m e]; cbn in H.
  - destruct sb; discriminate H.
  - destruct s; discriminate H.
  - discriminate H.
  - destruct s, sb; try discriminate H;
      destruct (Z.compare_spec e eb) as [He|He|He]; try discriminate H;
      change (PosDef.Pos.compare_cont Eq m mb) with (Pos.compare m mb) in H;
      destruct (Pos.compare m mb) eqn:Em; try discriminate H;
      apply Pos.compare_eq in Em; now subst.
Qed.

Lemma digit_of_nonneg (c : ascii) (v : Z) : digit_of c = Some v -> (0 <= v)%Z.
Proof.
  unfold digit_of. set (n := Z.of_nat (nat_of_ascii c)).
  destruct ((48 <=? n)%Z && (n <=? 57)%Z) eqn:E1;
    [|destruct ((97 <=? n)%Z && (n <=? 122)%Z) eqn:E2;
      [|destruct ((65 <=? n)%Z && (n <=? 90)%Z) eqn:E3]];
    intros [= <-].
  - apply andb_true_iff in E1 as [E _]. apply Z.leb_le in E. lia.
  - apply andb_true_iff in E2 as [E _]. apply Z.leb_le in E. lia.
  - apply andb_true_iff in E3 as [E _]. apply Z.leb_le in E. lia.
Qed.

Lemma radix_value_from_nonneg (radix acc : Z) (s : string) :
  (0 <= radix)%Z -> (0 <= acc)%Z -> (0 <= radix_value_from radix acc s)%Z.
Proof.
  intros Hr. revert acc. induction s as [|c r IH]; intros acc Ha; cbn; [exact Ha|].
  apply IH. destruct (digit_of c) as [v|] eqn:E; [apply digit_of_nonneg in E|]; nia.
Qed.

(** [parseInt] on what the group [(\d+)] captures. *)
Lemma parseInt_digits (ds : string) :
  ds <> "" -> string_forallb is_digit ds = true ->
  parseInt ds = float_of_Z (dec_value ds).
Proof.
  intros Hne Hd. unfold parseInt.
  rewrite (trimStart_plain ds (digits_not_space ds Hd)).
  destruct ds as [|c r]; [contradiction|].
  cbn [string_forallb] in Hd. apply andb_true_iff in Hd as [Hc Hr].
  assert (span (is_radix_digit 10) (String c r) = (String c r, "")) as Hspan.
  { apply span_all. rewrite digits_radix_10. cbn. now rewrite Hc, Hr. }
  destruct c as [[] [] [] [] [] [] [] []]; try discriminate Hc;
    try (rewrite Hspan; reflexivity).
  destruct r as [|x r']; [rewrite Hspan; reflexivity|].
  cbn [string_forallb] in Hr. apply andb_true_iff in Hr as [Hx _].
  destruct x as [[] [] [] [] [] [] [] []]; try discriminate Hx;
    cbn [Ascii.eqb Bool.eqb orb andb]; rewrite Hspan; reflexivity.
Qed.

(** [Number] on a text of digits. *)
Lemma Number_digits (ds : string) :
  ds <> "" -> string_forallb is_digit ds = true ->
  Number ds = float_of_Z (dec_value ds).
Proof.
  intros Hne Hd. unfold Number.
  rewrite (trim_plain ds (digits_not_space ds Hd)).
  apply String.eqb_neq in Hne. rewrite Hne.
  assert (unsigned_decimal false ds = float_of_Z (dec_value ds)) as Hu.
  { unfold unsigned_decimal.
    assert ((ds =? "Infinity") = false) as ->.
    { apply String.eqb_neq. intros ->. discriminate Hd. }
    rewrite (span_all _ _ Hd). rewrite Hne. cbn [andb exponent_part].
    unfold float_of_decimal. cbn [String.length Z.of_nat Z.sub Z.leb Z.compare].
    assert (ds ++ "" = ds) as -> by (clear; induction ds; cbn; [reflexivity | now f_equal]).
    change (10 ^ 0)%Z with 1%Z. now rewrite Z.mul_1_r. }
  assert (non_decimal ds = None) as ->.
  { destruct ds as [|c r]; [reflexivity|].
    destruct c as [[] [] [] [] [] [] [] []]; try reflexivity.
    destruct r as [|x r]; [reflexivity|].
    cbn [string_forallb] in Hd.
    apply andb_true_iff in Hd as [_ Hd]. apply andb_true_iff in Hd as [Hx _].
    destruct x as [[] [] [] [] [] [] [] []]; try discriminate Hx; reflexivity. }
  destruct ds as [|c r]; [discriminate Hne|].
  cbn [string_forallb] in Hd. apply andb_true_iff in Hd as [Hc _].
  destruct c as [[] [] [] [] [] [] [] []]; try discriminate Hc; exact Hu.
Qed.

End Binary64Facts.

(* ================================================================= *)
(** ** Restriction parser: properties *)

Section RestrictionFacts.

Lemma find_elems_restriction (l : list jsval) :
  find_elems is_restriction_note l =
  Ret (match List.find phrase_note l with Some v => v | None => JUndefined end).
Proof.
  induction l as [|v l IH]; [reflexivity|].
  cbn [find_elems List.find].
  destruct v; cbn; try exact IH.
  destruct (includes (toUpperCase s) PHRASE); [reflexivity | exact IH].
Qed.

Lemma phrase_note_inv (v : jsval) :
  phrase_note v = true ->
  exists s, v = JStr s /\ includes (toUpperCase s) PHRASE = true /\ s <> "".
Proof.
  destruct v; cbn; try discriminate.
  intros H. exists s. repeat split; auto.
  intros ->. vm_compute in H. discriminate.
Qed.

Lemma period_at_upper (s p : string) :
  period_at s = Some p -> toUpperCase p = "AM" \/ toUpperCase p = "PM".
Proof.
  destruct s as [|a [|m r]]; cbn; try discriminate.
  destruct (Ascii.eqb (upper_char a) "A") eqn:Ea;
    destruct (Ascii.eqb (upper_char a) "P") eqn:Ep;
    destruct (Ascii.eqb (upper_char m) "M") eqn:Em; cbn; try discriminate;
    intros [= <-]; cbn;
    apply Ascii.eqb_eq in Em; rewrite Em;
    try (apply Ascii.eqb_eq in Ea; rewrite Ea; now left);
    try (apply Ascii.eqb_eq in Ep; rewrite Ep; now right).
Qed.

Lemma regex_hour_period_upper (s ds p : string) :
  regex_hour_period s = Some (ds, p) ->
  toUpperCase p = "AM" \/ toUpperCase p = "PM".
Proof.
  induction s as [|c r IH]; cbn [regex_hour_period]; [discriminate|].
  destruct (is_digit c); [|exact IH].
  destruct (span_digits (String c r)) as [ds' tl].
  destruct (period_at tl) as [p'|] eqn:Ep; [|exact IH].
  intros [= _ <-]. eapply period_at_upper; eauto.
Qed.

(** On the two periods the pattern can capture, the adjustments of the code
    are the conversion rule of the specification. *)
Lemma to_24h_convert (h : float) (period : string) :
  period = "AM" \/ period = "PM" -> to_24h h period = Spec.convert h period.
Proof.
  intros [-> | ->]; unfold to_24h, Spec.convert;
    cbn [String.eqb Ascii.eqb Bool.eqb andb].
  - reflexivity.
  - destruct (PrimFloat.eqb h 12) eqn:E; cbn [negb]; [|reflexivity].
    eapply eqb_finite_eq; [vm_compute; reflexivity | exact E].
Qed.

(** The parser on an array: total, and decided by the first note holding the
    phrase. *)
Lemma parseTimeRestriction_array (l : list jsval) :
  parseTimeRestriction (JArr l) =
  Ret (match first_phrase_note l with
       | Some s =>
           match regex_hour_period s with
           | Some (ds, p) => Some (to_24h (parseInt ds) (toUpperCase p))
           | None => None
           end
       | None => None
       end).
Proof.
  unfold parseTimeRestriction, first_phrase_note. cbn [truthy isArray negb orb method_find].
  rewrite find_elems_restriction. cbn [bind].
  destruct (List.find phrase_note l) as [v|] eqn:E; [|reflexivity].
  apply List.find_some in E as [_ Hv].
  apply phrase_note_inv in Hv as (s & -> & _ & Hne).
  cbn [truthy]. apply String.eqb_neq in Hne. rewrite Hne. cbn.
  destruct (regex_hour_period s) as [[ds p]|]; reflexivity.
Qed.

Lemma parseTimeRestriction_not_array (v : jsval) :
  isArray v = false -> parseTimeRestriction v = Ret None.
Proof.
  intros H. unfold parseTimeRestriction. rewrite H.
  rewrite orb_true_r. reflexivity.
Qed.

(** The parser never throws. *)
Lemma parseTimeRestriction_total (v : jsval) :
  exists r, parseTimeRestriction v = Ret r.
Proof.
  destruct (isArray v) eqn:E.
  - destruct v; try discriminate. rewrite parseTimeRestriction_array. eauto.
  - rewrite parseTimeRestriction_not_array by assumption. eauto.
Qed.

(** *** The pattern search against its declarative reading *)

Lemma period_at_is_period (s p : string) :
  period_at s = Some p -> is_period p = true /\ exists post, s = p ++ post.
Proof.
  intros H. split.
  - unfold is_period. destruct (period_at_upper _ _ H) as [-> | ->]; reflexivity.
  - destruct s as [|a [|m r]]; cbn in H; try discriminate.
    destruct (_ && _); [|discriminate]. injection H as <-. now exists r.
Qed.

Lemma is_period_shape (p : string) :
  is_period p = true ->
  exists a m, p = String a (String m "") /\ is_digit a = false
              /\ forall post, period_at (p ++ post) = Some p.
Proof.
  unfold is_period. intros H.
  assert (toUpperCase p = "AM" \/ toUpperCase p = "PM") as Hu.
  { apply orb_true_iff in H as [H | H]; apply String.eqb_eq in H; auto. }
  destruct p as [|a [|m [|x r]]]; cbn [toUpperCase] in Hu;
    try (destruct Hu as [Hu | Hu]; discriminate Hu).
  exists a, m. split; [reflexivity|].
  assert (upper_char m = "M"%char /\ (upper_char a = "A"%char \/ upper_char a = "P"%char))
    as [Hm Ha].
  { destruct Hu as [Hu | Hu]; injection Hu as Ha Hm; auto. }
  split.
  - destruct Ha as [Ha | Ha]; destruct (is_digit a) eqn:Ed; try reflexivity; exfalso;
      unfold upper_char in Ha; unfold is_digit in Ed;
      apply andb_true_iff in Ed as [E1 E2];
      apply Nat.leb_le in E1; apply Nat.leb_le in E2;
      destruct (_ && _) eqn:El;
      try (apply andb_true_iff in El as [E3 _]; apply Nat.leb_le in E3; lia);
      subst a; cbn in E2; lia.
  - intros post. cbn. rewrite Hm, Ascii.eqb_refl, andb_true_r.
    destruct Ha as [-> | ->]; reflexivity.
Qed.

Lemma span_digits_spec (s ds tl : string) :
  span_digits s = (ds, tl) ->
  s = ds ++ tl /\ string_forallb is_digit ds = true.
Proof.
  revert ds tl. induction s as [|c r IH]; cbn; intros ds tl H.
  - injection H as <- <-. auto.
  - destruct (is_digit c) eqn:Ec.
    + destruct (span_digits r) as [ds' tl']. injection H as <- <-.
      destruct (IH _ _ eq_refl) as [-> Hd]. cbn. rewrite Ec. auto.
    + injection H as <- <-. auto.
Qed.

Lemma span_digits_app (ds : string) (a : ascii) (tl : string) :
  string_forallb is_digit ds = true -> is_digit a = false ->
  span_digits (ds ++ String a tl) = (ds, String a tl).
Proof.
  intros Hd Ha. induction ds as [|c r IH]; cbn.
  - now rewrite Ha.
  - cbn in Hd. apply andb_true_iff in Hd as [Hc Hr].
    rewrite Hc, (IH Hr). reflexivity.
Qed.

(** A match found is an occurrence of the pattern. *)
Lemma regex_hour_period_sound (s ds p : string) :
  regex_hour_period s = Some (ds, p) ->
  exists pre post, hour_pattern_at pre ds p post s.
Proof.
  induction s as [|c r IH]; [discriminate|].
  assert (regex_hour_period r = Some (ds, p) ->
          exists pre post, hour_pattern_at pre ds p post (String c r)) as Hrec.
  { intros H. destruct (IH H) as (pre & post & -> & Hrest).
    exists (String c pre), post. split; [reflexivity | exact Hrest]. }
  cbn [regex_hour_period]. destruct (is_digit c) eqn:Ec; [|exact Hrec].
  destruct (span_digits (String c r)) as [ds' tl] eqn:Es.
  destruct (period_at tl) as [p'|] eqn:Ep; [|exact Hrec].
  intros [= <- <-].
  destruct (span_digits_spec _ _ _ Es) as [E Hd].
  destruct (period_at_is_period _ _ Ep) as [Hp (post & ->)].
  exists "", post. split; [exact E|]. split; [|auto].
  intros ->. cbn in Es. rewrite Ec in Es.
  destruct (span_digits r); discriminate.
Qed.

(** No match found means the pattern occurs nowhere. *)
Lemma regex_hour_period_complete (s : string) :
  regex_hour_period s = None ->
  ~ exists pre ds p post, hour_pattern_at pre ds p post s.
Proof.
  induction s as [|c r IH]; intros Hnone (pre & ds & p & post & E & Hne & Hd & Hp).
  - destruct pre; destruct ds; try discriminate. now apply Hne.
  - assert (regex_hour_period r = None) as Hr.
    { cbn [regex_hour_period] in Hnone. destruct (is_digit c); [|exact Hnone].
      destruct (span_digits (String c r)) as [ds' tl].
      destruct (period_at tl); [discriminate | exact Hnone]. }
    destruct pre as [|c' pre].
    + destruct (is_period_shape p Hp) as (a & m & Ep & Ha & Hat).
      cbn [append] in E.
      assert (span_digits (String c r) = (ds, p ++ post)) as Hspan.
      { rewrite E, Ep. cbn [append]. apply span_digits_app; assumption. }
      cbn [regex_hour_period] in Hnone.
      destruct ds as [|d ds]; [now apply Hne|].
      injection E as -> _. cbn in Hd. apply andb_true_iff in Hd as [Hc _].
      rewrite Hc, Hspan, Hat in Hnone. discriminate.
    + injection E as _ ->. apply (IH Hr). exists pre, ds, p, post.
      repeat split; assumption.
Qed.

Lemma find_none_all_false {A : Type} (p : A -> bool) (l : list A) :
  (forall x, In x l -> p x = false) -> List.find p l = None.
Proof.
  induction l as [|x l IH]; intros H; [reflexivity|].
  cbn. rewrite (H x (or_introl eq_refl)). apply IH.
  intros y Hy. apply H. now right.
Qed.

(** An occurrence at the head of [s] is what the search finds there. *)
Lemma head_pattern (ds p post s : string) :
  hour_pattern_at "" ds p post s ->
  exists c r,
    s = String c r /\ is_digit c = true
    /\ span_digits s = (ds, p ++ post) /\ period_at (p ++ post) = Some p.
Proof.
  intros (E & Hne & Hd & Hp). cbn [append] in E.
  destruct (is_period_shape p Hp) as (a & m & Ep & Ha & Hat).
  destruct ds as [|c ds']; [contradiction|].
  exists c, (ds' ++ p ++ post). split; [exact E|].
  pose proof Hd as Hd'. cbn [string_forallb] in Hd'.
  apply andb_true_iff in Hd' as [Hc _].
  split; [exact Hc|]. split; [|apply Hat].
  rewrite E, Ep. cbn [append]. now apply (span_digits_app (String c ds')).
Qed.

(** The match found is the leftmost occurrence. *)
Lemma regex_hour_period_is_leftmost (s ds p : string) :
  regex_hour_period s = Some (ds, p) -> Spec.leftmost_hour_pattern s ds p.
Proof.
  induction s as [|c r IH]; [discriminate|].
  intros H.
  assert ((exists tl, is_digit c = true /\ span_digits (String c r) = (ds, tl)
                     /\ period_at tl = Some p)
          \/ (regex_hour_period r = Some (ds, p)
              /\ forall ds' p' post',
                   ~ hour_pattern_at "" ds' p' post' (String c r)))
    as [Hhead | [Hrec Hno]].
  { cbn [regex_hour_period] in H. destruct (is_digit c) eqn:Ec.
    - destruct (span_digits (String c r)) as [ds1 tl] eqn:Es.
      destruct (period_at tl) as [p1|] eqn:Ep.
      + injection H as <- <-. left. now exists tl.
      + right. split; [exact H|]. intros ds' p' post' Hocc.
        destruct (head_pattern _ _ _ _ Hocc) as (c' & r' & _ & _ & Hs & Hp).
        rewrite Es in Hs. injection Hs as _ Htl. rewrite <- Htl in Hp. congruence.
    - right. split; [exact H|]. intros ds' p' post' Hocc.
      destruct (head_pattern _ _ _ _ Hocc) as (c' & r' & E & Hc & _).
      injection E as <- <-. congruence. }
  - destruct Hhead as (tl & Ec & Es & Ep).
    destruct (span_digits_spec _ _ _ Es) as [E Hd].
    destruct (period_at_is_period _ _ Ep) as [Hp (post & ->)].
    exists "", post. split.
    + split; [exact E|]. split; [|auto].
      intros ->. cbn in Es. rewrite Ec in Es. destruct (span_digits r); discriminate.
    + intros. cbn. lia.
  - destruct (IH Hrec) as (pre & post & (E & Hrest) & Hmin).
    exists (String c pre), post. split.
    + split; [cbn; now rewrite E | exact Hrest].
    + intros pre' ds' p' post' Hocc. destruct pre' as [|c' pre'].
      * exfalso. exact (Hno _ _ _ Hocc).
      * destruct Hocc as (E' & Hrest'). cbn [append] in E'. injection E' as <- E'.
        cbn [String.length]. apply le_n_S. apply (Hmin pre' ds' p' post').
        split; assumption.
Qed.

(** The leftmost occurrence fixes the digits and the period. *)
Lemma leftmost_hour_pattern_unique (s ds1 p1 ds2 p2 : string) :
  Spec.leftmost_hour_pattern s ds1 p1 -> Spec.leftmost_hour_pattern s ds2 p2 ->
  ds1 = ds2 /\ p1 = p2.
Proof.
  intros (pre1 & post1 & H1 & Hmin1) (pre2 & post2 & H2 & Hmin2).
  pose proof (Hmin1 _ _ _ _ H2) as L1. pose proof (Hmin2 _ _ _ _ H1) as L2.
  assert (String.length pre1 = String.length pre2) as Hlen by lia.
  clear Hmin1 Hmin2 L1 L2. revert s pre2 Hlen H1 H2.
  induction pre1 as [|c pre1 IH]; intros s [|c2 pre2] Hlen H1 H2; try discriminate Hlen.
  - destruct (head_pattern _ _ _ _ H1) as (c & r & _ & _ & Hs1 & Hp1).
    destruct (head_pattern _ _ _ _ H2) as (c' & r' & _ & _ & Hs2 & Hp2).
    rewrite Hs1 in Hs2. injection Hs2 as -> Htl. rewrite Htl in Hp1.
    split; [reflexivity | congruence].
  - destruct H1 as (E1 & R1), H2 as (E2 & R2). cbn [append] in E1, E2.
    destruct s as [|c0 s]; [discriminate E1|].
    injection E1 as _ E1. injection E2 as _ E2.
    apply (IH s pre2); [now injection Hlen | split; assumption | split; assumption].
Qed.

Lemma find_first_phrase_note (notes : list jsval) (note : string) :
  Spec.first_phrase_note_is notes note -> first_phrase_note notes = Some note.
Proof.
  intros (before & after & -> & Hinc & Hbefore). unfold first_phrase_note.
  induction before as [|v before IH]; cbn [app List.find].
  - cbn [phrase_note]. now rewrite Hinc.
  - rewrite (Hbefore v (or_introl eq_refl)). apply IH.
    intros w Hw. apply Hbefore. now right.
Qed.

End RestrictionFacts.

(** C6, as stated, fails: the parser commits to the first note holding the
    phrase even when that note has no hour pattern, and then ignores a later
    note that has both. *)
Lemma parser_ignores_notes_after_first_phrase :
  let notes := [JStr "DO NOT BOOK AFTER noon"; JStr "DO NOT BOOK AFTER 8AM"] in
  Spec.restriction notes = Some 8%float /\
  parseTimeRestriction (JArr notes) = Ret None /\
  parseTimeRestriction (JArr notes) <> Ret (Spec.restriction notes).
Proof.
  cbv zeta. split; [vm_compute; reflexivity|]. split; [vm_compute; reflexivity|].
  vm_compute. intros E; discriminate E.
Qed.

(** C6, amended: for every notes sequence the parser honors only the first
    note that is a string containing DO NOT BOOK AFTER in any case.  When
    that note holds a digits-AM/PM pattern, the digits of the leftmost
    occurrence are read as a binary64 number, which is their value when that
    is below 2^53 and the nearest number otherwise, and converted by the rule
    12PM to 12, 12AM to 0, hour + 12 for PM otherwise, hour unchanged for AM.
    When that note holds no such pattern, or no note contains the phrase,
    the result is no restriction. *)
Theorem parseTimeRestriction_first_phrase_note (notes : list jsval) :
  exists r,
    parseTimeRestriction (JArr notes) = Ret r
    /\ ((forall v, In v notes -> phrase_note v = false) -> r = None)
    /\ forall note,
         Spec.first_phrase_note_is notes note ->
         ((~ exists pre ds p post, hour_pattern_at pre ds p post note) -> r = None)
         /\ ((exists pre ds p post, hour_pattern_at pre ds p post note) ->
             exists ds p, Spec.leftmost_hour_pattern note ds p)
         /\ forall ds p,
              Spec.leftmost_hour_pattern note ds p ->
              r = Some (Spec.convert (parseInt ds) (toUpperCase p))
              /\ parseInt ds = float_of_Z (dec_value ds)
              /\ ((dec_value ds < 2 ^ 53)%Z ->
                  integer_value (parseInt ds) = Some (dec_value ds)).
Proof.
  eexists. split; [apply parseTimeRestriction_array|]. split.
  - intros Hnone. unfold first_phrase_note.
    now rewrite (find_none_all_false _ _ Hnone).
  - intros note Hfirst. rewrite (find_first_phrase_note _ _ Hfirst).
    split; [|split].
    + intros Hno. destruct (regex_hour_period note) as [[ds p]|] eqn:E; [|reflexivity].
      exfalso. apply Hno. destruct (regex_hour_period_sound _ _ _ E) as (pre & post & H).
      now exists pre, ds, p, post.
    + intros Hocc. destruct (regex_hour_period note) as [[ds p]|] eqn:E.
      * exists ds, p. now apply regex_hour_period_is_leftmost.
      * exfalso. exact (regex_hour_period_complete _ E Hocc).
    + intros ds p Hleft.
      destruct (regex_hour_period note) as [[ds0 p0]|] eqn:E.
      * destruct (leftmost_hour_pattern_unique _ _ _ _ _ Hleft
                    (regex_hour_period_is_leftmost _ _ _ E)) as [-> ->].
        destruct Hleft as (pre & post & (_ & Hne & Hd & _) & _).
        split; [|split].
        -- rewrite to_24h_convert; [reflexivity|].
           eapply regex_hour_period_upper; eauto.
        -- now apply parseInt_digits.
        -- intros Hsmall. rewrite parseInt_digits by assumption.
           apply float_of_Z_exact. split; [|exact Hsmall].
           apply radix_value_from_nonneg; lia.
      * exfalso. destruct Hleft as (pre & post & H & _).
        apply (regex_hour_period_complete _ E). now exists pre, ds, p, post.
Qed.

Lemma parseTimeRestriction_first_phrase_note_witness :
  parseTimeRestriction
    (JArr [JStr "SELECT"; JStr "Do not book after 3pm or 12PM"; JStr "DO NOT BOOK AFTER 8AM"])
  = Ret (Some 15%float).
Proof.
  destruct (parseTimeRestriction_first_phrase_note
              [JStr "SELECT"; JStr "Do not book after 3pm or 12PM";
               JStr "DO NOT BOOK AFTER 8AM"])
    as (r & -> & _ & H).
  destruct (H "Do not book after 3pm or 12PM") as (_ & _ & Hleft).
  - exists [JStr "SELECT"], [JStr "DO NOT BOOK AFTER 8AM"].
    split; [reflexivity|]. split; [reflexivity|].
    intros v [<- | []]. reflexivity.
  - destruct (Hleft "3" "pm") as [-> _]; [|vm_compute; reflexivity].
    apply regex_hour_period_is_leftmost. reflexivity.
Defined.

(** The examples of the specification. *)
Example restriction_8AM :
  parseTimeRestriction
    (JArr [JStr "SELECT"; JStr "Human and braiding hair NOT included";
           JStr "Base length is lower back"; JStr "DO NOT BOOK AFTER 8AM"])
  = Ret (Some 8%float).
Proof. vm_compute. reflexivity. Qed.

Example restriction_12PM :
  parseTimeRestriction (JArr [JStr "Do not book after 12pm"]) = Ret (Some 12%float).
Proof. vm_compute. reflexivity. Qed.

Example restriction_12AM :
  parseTimeRestriction (JArr [JStr "DO NOT BOOK AFTER 12AM"]) = Ret (Some 0%float).
Proof. vm_compute. reflexivity. Qed.

Example restriction_3PM :
  parseTimeRestriction (JArr [JStr "DO NOT BOOK AFTER 3PM"]) = Ret (Some 15%float).
Proof. vm_compute. reflexivity. Qed.

(** Where the first note holding the phrase also holds an hour pattern, the
    code and the specification's reading agree. *)
Lemma parseTimeRestriction_agrees_with_spec (notes : list jsval) (s : string) :
  first_phrase_note notes = Some s ->
  regex_hour_period s <> None ->
  parseTimeRestriction (JArr notes) = Ret (Spec.restriction notes).
Proof.
  intros Hs Hre. rewrite parseTimeRestriction_array, Hs.
  unfold Spec.restriction. unfold first_phrase_note in Hs.
  induction notes as [|v l IH]; [discriminate|].
  cbn [List.find] in *.
  destruct (phrase_note v) eqn:Ev.
  - apply phrase_note_inv in Ev as (s' & -> & Hinc & _).
    injection Hs as ->.
    cbn [Spec.note_matches]. rewrite Hinc.
    destruct (regex_hour_period s) as [[ds p]|] eqn:E; [|congruence].
    cbn. rewrite E, to_24h_convert; [reflexivity|].
    eapply regex_hour_period_upper; eauto.
  - assert (Spec.note_matches v = false) as ->.
    { destruct v; cbn in *; try reflexivity. now rewrite Ev. }
    apply IH. exact Hs.
Qed.

(** C10: [parseTimeRestriction] answers null, without throwing, for a notes
    value that is not an array (null and undefined among them), for an array
    in which no element is a string containing the phrase, and for an array
    whose first such note has no digits-AM/PM pattern; and
    [violatesTimeRestriction] then answers false for every time string. *)
Theorem parseTimeRestriction_null_cases (notes : jsval) (timeString : string) :
  isArray notes = false
  \/ (exists l, notes = JArr l /\ forall v, In v l -> phrase_note v = false)
  \/ (exists l s, notes = JArr l /\ first_phrase_note l = Some s
                  /\ regex_hour_period s = None) ->
  parseTimeRestriction notes = Ret None
  /\ violatesTimeRestriction notes timeString = Ret false.
Proof.
  intros H.
  assert (parseTimeRestriction notes = Ret None) as Hp.
  { destruct H as [H | [(l & -> & H) | (l & s & -> & Hs & Hre)]].
    - now apply parseTimeRestriction_not_array.
    - rewrite parseTimeRestriction_array. unfold first_phrase_note.
      now rewrite (find_none_all_false _ _ H).
    - rewrite parseTimeRestriction_array, Hs, Hre. reflexivity. }
  split; [exact Hp|].
  unfold violatesTimeRestriction. rewrite Hp. reflexivity.
Qed.

Lemma parseTimeRestriction_null_cases_witness :
  (parseTimeRestriction JNull = Ret None
   /\ violatesTimeRestriction JNull "09:00" = Ret false)
  /\ (parseTimeRestriction JUndefined = Ret None
      /\ violatesTimeRestriction JUndefined "09:00" = Ret false)
  /\ (parseTimeRestriction (JStr "DO NOT BOOK AFTER 8AM") = Ret None
      /\ violatesTimeRestriction (JStr "DO NOT BOOK AFTER 8AM") "09:00" = Ret false)
  /\ (parseTimeRestriction (JArr [JNum 8%float; JStr "SELECT"]) = Ret None
      /\ violatesTimeRestriction (JArr [JNum 8%float; JStr "SELECT"]) "09:00" = Ret false)
  /\ (parseTimeRestriction (JArr [JStr "do not book after lunch"]) = Ret None
      /\ violatesTimeRestriction (JArr [JStr "do not book after lunch"]) "09:00"
         = Ret false).
Proof.
  repeat apply conj.
  1-2: apply (parseTimeRestriction_null_cases JNull "09:00"); left; reflexivity.
  1-2: apply (parseTimeRestriction_null_cases JUndefined "09:00"); left; reflexivity.
  1-2: apply (parseTimeRestriction_null_cases (JStr "DO NOT BOOK AFTER 8AM") "09:00");
    left; reflexivity.
  1-2: apply (parseTimeRestriction_null_cases (JArr [JNum 8%float; JStr "SELECT"]) "09:00");
    right; left; exists [JNum 8%float; JStr "SELECT"]; split; [reflexivity|];
    intros v [<- | [<- | []]]; reflexivity.
  1-2: apply (parseTimeRestriction_null_cases
                (JArr [JStr "do not book after lunch"]) "09:00");
    right; right; exists [JStr "do not book after lunch"], "do not book after lunch";
    repeat split; reflexivity.
Defined.

(* ================================================================= *)
(** ** Availability resolver: properties *)

Section AvailabilityFacts.

Lemma slots_loop_day (bt : list string) :
  App.slots_loop bt (App.hour_range App.startHour App.endHour) [] =
  Ret (map (App.grid_slot bt) App.day_grid).
Proof. reflexivity. Qed.

(** The resolver is total and yields the twelve hourly slots of the day, each
    available unless its time is among the booked times of the date. *)
Lemma generateTimeSlots_eq (ls : Storage) (d : string) :
  App.generateTimeSlots ls d =
  Ret (d, map (App.grid_slot (App.booked_times ls d)) App.day_grid).
Proof.
  unfold App.generateTimeSlots.
  change (map Booking.time
            (filter (fun b => Booking.date b =? d) (stored_bookings ls)))
    with (App.booked_times ls d).
  rewrite slots_loop_day. reflexivity.
Qed.

Lemma array_includes_In (l : list string) (x : string) :
  array_includes l x = true <-> In x l.
Proof.
  unfold array_includes. rewrite existsb_exists. split.
  - intros (y & Hy & E). apply String.eqb_eq in E. now subst.
  - intros H. exists x. split; [exact H | apply String.eqb_refl].
Qed.

Lemma booked_times_In (ls : Storage) (d t : string) :
  In t (App.booked_times ls d) <->
  exists b, In b (stored_bookings ls) /\ Booking.date b = d /\ Booking.time b = t.
Proof.
  unfold App.booked_times. rewrite in_map_iff. split.
  - intros (b & <- & Hb). apply filter_In in Hb as [Hb E].
    apply String.eqb_eq in E. eauto.
  - intros (b & Hb & Hd & Ht). exists b. split; [exact Ht|].
    apply filter_In. split; [exact Hb | now apply String.eqb_eq].
Qed.

Lemma booked_times_keys (ls : Storage) (d t : string) :
  In t (App.booked_times ls d) <-> In (d, t) (map Spec.slot_key (stored_bookings ls)).
Proof.
  rewrite booked_times_In, in_map_iff. unfold Spec.slot_key. split.
  - intros (b & Hb & <- & <-). eauto.
  - intros (b & [= <- <-] & Hb). eauto.
Qed.

Lemma grid_slot_available (bt : list string) (s : Slot.t) :
  In s (map (App.grid_slot bt) App.day_grid) ->
  Slot.available s = negb (array_includes bt (Slot.time s)).
Proof.
  rewrite in_map_iff. intros (e & <- & _). reflexivity.
Qed.

Lemma split_plain (sep : ascii) (s : string) :
  string_forallb (fun c => negb (Ascii.eqb c sep)) s = true -> split sep s = [s].
Proof.
  induction s as [|c r IH]; cbn; [reflexivity|].
  intros H. apply andb_true_iff in H as [Hc Hr].
  apply negb_true_iff in Hc. rewrite Hc, (IH Hr). reflexivity.
Qed.

Lemma getBlackoutDates_bookings (env : Env) (ls : Storage) :
  sb_bookings (snd (App.getBlackoutDates env ls)) = sb_bookings ls.
Proof. unfold App.getBlackoutDates. destruct (sb_blackout_dates ls); reflexivity. Qed.

Lemma plain_date_no_ampersand (d : string) :
  string_forallb (fun c => is_digit c || Ascii.eqb c "-") d = true ->
  string_forallb (fun c => negb (Ascii.eqb c "&")) d = true.
Proof.
  induction d as [|c r IH]; cbn; [reflexivity|].
  intros H. apply andb_true_iff in H as [Hc Hr]. rewrite (IH Hr), andb_true_r.
  destruct (Ascii.eqb_spec c "&") as [->|]; [discriminate | reflexivity].
Qed.

(** The date parameter of the request [selectDate] sends reads back as the
    date. *)
Lemma search_param_plain_date (d : string) :
  Client.plain_date d = true ->
  App.search_param_date ("/api/availability?date=" ++ d) = Some d /\ d <> "".
Proof.
  unfold Client.plain_date. intros H. apply andb_true_iff in H as [Hne Hd].
  apply negb_true_iff, String.eqb_neq in Hne. split; [|exact Hne].
  unfold App.search_param_date. cbn [append App.after_first Ascii.eqb Bool.eqb].
  change (String "d" (String "a" (String "t" (String "e" (String "=" d)))))
    with ("date=" ++ d).
  assert (split "&" ("date=" ++ d) = ["date=" ++ d]) as ->.
  { apply split_plain. cbn. now apply plain_date_no_ampersand. }
  cbn. destruct d; reflexivity.
Qed.

Lemma split_line (sep : ascii) (a b : string) :
  string_forallb (fun c => negb (Ascii.eqb c sep)) a = true ->
  split sep (a ++ String sep b) = a :: split sep b.
Proof.
  induction a as [|c r IH]; cbn; intros H.
  - now rewrite Ascii.eqb_refl.
  - apply andb_true_iff in H as [Hc Hr]. apply negb_true_iff in Hc.
    now rewrite Hc, (IH Hr).
Qed.

(** The gateway on the request [selectDate] sends for a plain date. *)
Lemma availability_request (env : Env) (d : string) (ls : Storage) :
  Client.plain_date d = true ->
  App.mockApiRequest env
    (App.mkRequest ("/api/availability?date=" ++ d) None None) ls
  = (Ret (App.Availability d
            (map (App.grid_slot (App.booked_times ls d)) App.day_grid)), ls).
Proof.
  intros Hd. destruct (search_param_plain_date d Hd) as [Hq Hne].
  unfold App.mockApiRequest. cbn [App.endpoint App.method App.body].
  assert (startsWith ("/api/availability?date=" ++ d) "/api/availability" = true) as ->
    by reflexivity.
  rewrite Hq. cbn [andb String.eqb Ascii.eqb Bool.eqb].
  destruct d as [|c r]; [contradiction|].
  rewrite generateTimeSlots_eq. reflexivity.
Qed.

(** The day button of the calendar is disabled, and without click handler,
    exactly when the day is past or on the list [getBlackoutDates] answers. *)
Lemma render_day_selectable (dates : list string) (selectedDate : option string)
  (isPast isToday : bool) (d : string) :
  let btn := App.render_day dates selectedDate isPast isToday d in
  App.disabled_attr btn = (isPast || array_includes dates d)
  /\ App.selectable btn = negb (isPast || array_includes dates d).
Proof.
  cbv zeta. unfold App.render_day. split; [reflexivity|].
  destruct (isPast || array_includes dates d); destruct isToday;
    destruct (match selectedDate with Some _ => _ | None => _ end); reflexivity.
Qed.

End AvailabilityFacts.

(* ================================================================= *)
(** ** The store under the operations of both scripts *)

Section StoreFacts.

Lemma post_booking_effect (env : Env) (data : BookingData.t) (ls : Storage) :
  App.mockApiRequest env (App.post_booking data) ls =
  (let booking :=
     Booking.mk ("booking-" ++ toString (now env)) "deposit_pending" (nowISO env) data in
   (Ret (App.BookingCreated (Booking.id booking) "deposit_pending"
           (BookingData.amountDue data) (BookingData.depositAmount data)
           ("mock_client_secret_" ++ Booking.id booking)),
    set_bookings ls (stored_bookings ls ++ [booking])%list)).
Proof. reflexivity. Qed.

(** A request to the client gateway leaves the bookings alone or appends
    one. *)
Lemma client_request_bookings (env : Env) (req : App.Request) (ls : Storage) :
  stored_bookings (snd (App.mockApiRequest env req ls)) = stored_bookings ls
  \/ exists b,
       stored_bookings (snd (App.mockApiRequest env req ls))
       = (stored_bookings ls ++ [b])%list.
Proof.
  unfold App.mockApiRequest.
  destruct (startsWith (App.endpoint req) "/api/availability" && _).
  - left. destruct (App.search_param_date (App.endpoint req)) as [[|c r]|];
      try reflexivity;
      unfold App.getBlackoutDates; destruct (sb_blackout_dates ls); reflexivity.
  - destruct ((App.endpoint req =? "/api/bookings") && _); [|now left].
    destruct (App.body req) as [data|]; [|now left].
    right. eexists. reflexivity.
Qed.

Lemma set_nth_keys (l : list Booking.t) (i : nat) (old : Booking.t) (s : string) :
  nth_error l i = Some old ->
  map Spec.slot_key (Admin.set_nth i (Booking.with_status old s) l)
  = map Spec.slot_key l.
Proof.
  revert i. induction l as [|b l IH]; intros [|i] H; cbn in *; try discriminate.
  - injection H as ->. reflexivity.
  - f_equal. now apply IH.
Qed.

Lemma patch_keys (endpoint status : string) (ls : Storage) :
  map Spec.slot_key (stored_bookings (snd (Admin.mock_patch_booking endpoint status ls)))
  = map Spec.slot_key (stored_bookings ls).
Proof.
  unfold Admin.mock_patch_booking.
  destruct (startsWith endpoint "/api/bookings/"); [|reflexivity].
  destruct (Admin.findIndex _ _) as [i|]; [|reflexivity].
  destruct (nth_error (stored_bookings ls) i) as [old|] eqn:E; [|reflexivity].
  cbn. now apply set_nth_keys.
Qed.

(** No operation removes an occupied [(date, time)] from the store. *)
Lemma step_keeps_keys (ls ls' : Storage) :
  step ls ls' ->
  incl (map Spec.slot_key (stored_bookings ls)) (map Spec.slot_key (stored_bookings ls')).
Proof.
  intros [env req ls0 | endpoint status ls0 | env date notes ls0].
  - destruct (client_request_bookings env req ls0) as [-> | [b ->]].
    + apply incl_refl.
    + rewrite map_app. apply incl_appl, incl_refl.
  - rewrite patch_keys. apply incl_refl.
  - apply incl_refl.
Qed.

Lemma reachable_keeps_keys (ls ls' : Storage) :
  reachable ls ls' ->
  incl (map Spec.slot_key (stored_bookings ls)) (map Spec.slot_key (stored_bookings ls')).
Proof.
  induction 1 as [ls | ls ls1 ls2 _ IH Hs].
  - apply incl_refl.
  - eapply incl_tran; [exact IH | now apply step_keeps_keys].
Qed.

Lemma occupied_slot_unavailable (ls : Storage) (d t : string) (s : Slot.t) :
  In (d, t) (map Spec.slot_key (stored_bookings ls)) ->
  In s (map (App.grid_slot (App.booked_times ls d)) App.day_grid) ->
  Slot.time s = t ->
  Slot.available s = false.
Proof.
  intros Hk Hs Ht. rewrite (grid_slot_available _ _ Hs), Ht.
  apply booked_times_keys, array_includes_In in Hk. now rewrite Hk.
Qed.

(** Distinct pairs over all stored bookings give distinct pairs over the
    active ones. *)
Lemma distinct_keys_no_double_booking (bookings : list Booking.t) :
  NoDup (map Spec.slot_key bookings) -> Spec.no_double_booking bookings.
Proof.
  unfold Spec.no_double_booking.
  induction bookings as [|b rest IH]; cbn; intros Hnd; [constructor|].
  inversion Hnd as [|? ? Hb Hrest]; subst.
  destruct (Spec.active b); cbn; [|now apply IH].
  constructor; [|now apply IH].
  intros Hin. apply Hb. apply in_map_iff in Hin as (b' & E & Hb').
  apply filter_In in Hb' as [Hb' _]. apply in_map_iff. eauto.
Qed.

(** A booking made at a time the resolver offers keeps all occupied pairs
    distinct. *)
Lemma offered_post_keeps_distinct (env : Env) (data : BookingData.t) (ls : Storage) :
  NoDup (map Spec.slot_key (stored_bookings ls)) ->
  App.slot_offered ls (BookingData.date data) (BookingData.time data) ->
  NoDup (map Spec.slot_key
           (stored_bookings (snd (App.mockApiRequest env (App.post_booking data) ls)))).
Proof.
  intros Hnd (slots & s & Hgen & Hs & Ht & Hav).
  rewrite generateTimeSlots_eq in Hgen. injection Hgen as <-.
  rewrite (grid_slot_available _ _ Hs), Ht in Hav.
  apply negb_true_iff in Hav.
  rewrite post_booking_effect. cbn. rewrite map_app.
  apply NoDup_app; [exact Hnd | repeat constructor; intros [] |].
  intros k Hk [<- | []].
  assert (array_includes
            (App.booked_times ls (BookingData.date data)) (BookingData.time data) = true)
    as Hin by now apply array_includes_In, booked_times_keys.
  congruence.
Qed.

End StoreFacts.

(* ================================================================= *)
(** ** Availability and double booking: the claims *)

(** C1, as stated, fails: on a date with a blackout block of the admin the
    resolver still answers every slot of the day, all available, also
    through the availability request; and the calendar, which reads the
    client's own blackout list only, leaves the date selectable. *)
Lemma blocked_date_still_gets_slots :
  let ls := mkStorage None (Some ["2025-12-01"])
              (Some [Block.mk "block-1" Sample.day "blackout" ""]) in
  Spec.has_blackout_block ls Sample.day = true
  /\ Spec.blocked ls Sample.day = true
  /\ App.generateTimeSlots ls Sample.day = Ret (Sample.day, Sample.all_free)
  /\ App.mockApiRequest Sample.env
       (App.mkRequest "/api/availability?date=2025-11-15" None None) ls
     = (Ret (App.Availability Sample.day Sample.all_free), ls)
  /\ App.selectable
       (App.render_day (fst (App.getBlackoutDates Sample.env ls)) None false false
          Sample.day) = true.
Proof. cbv zeta. repeat split; reflexivity. Qed.

(** C1, amended: for every date that has a blackout block the resolver
    answers what it answers for any date, the twelve hourly slots from 07:00
    to 18:00 with availability decided by the stored bookings alone, also
    through GET /api/availability?date=; the blocks are not consulted.  The
    calendar does not consult them either: it disables a day, and gives it
    no click handler, exactly when the day is past or on the client's own
    blackout list, the stored one or else the three dates drawn at random;
    so a date with a block stays selectable unless it is past or on that
    list. *)
Theorem block_never_consulted_by_resolver_or_calendar
  (env : Env) (ls : Storage) (selectedDate : option string)
  (isPast isToday : bool) (d : string) :
  Spec.has_blackout_block ls d = true ->
  (exists slots,
      App.generateTimeSlots ls d = Ret (d, slots)
      /\ map Slot.time slots = map fst App.day_grid
      /\ (forall s, In s slots ->
           Slot.available s
           = negb (array_includes (App.booked_times ls d) (Slot.time s)))
      /\ App.generateTimeSlots (mkStorage (sb_bookings ls) None None) d
         = Ret (d, slots)
      /\ (Client.plain_date d = true ->
          App.mockApiRequest env
            (App.mkRequest ("/api/availability?date=" ++ d) None None) ls
          = (Ret (App.Availability d slots), ls)))
  /\ (let dates := fst (App.getBlackoutDates env ls) in
      dates
      = fst (App.getBlackoutDates env
               (mkStorage (sb_bookings ls) (sb_blackout_dates ls) None))
      /\ dates
         = match sb_blackout_dates ls with
           | Some stored => stored
           | None => random_dates env
           end
      /\ let btn := App.render_day dates selectedDate isPast isToday d in
         App.disabled_attr btn = (isPast || array_includes dates d)
         /\ App.selectable btn = negb (isPast || array_includes dates d)).
Proof.
  intros _. split.
  - eexists. split; [apply generateTimeSlots_eq|]. split; [|split; [|split]].
    + rewrite map_map. reflexivity.
    + intros s Hs. now apply grid_slot_available.
    + rewrite generateTimeSlots_eq. reflexivity.
    + intros Hd. now apply availability_request.
  - cbv zeta. split; [|split].
    + unfold App.getBlackoutDates. cbn [sb_blackout_dates].
      destruct (sb_blackout_dates ls); reflexivity.
    + unfold App.getBlackoutDates. destruct (sb_blackout_dates ls); reflexivity.
    + apply render_day_selectable.
Qed.

Lemma block_never_consulted_by_resolver_or_calendar_witness :
  let ls := mkStorage None None (Some [Block.mk "block-1" Sample.day "blackout" ""]) in
  (exists slots,
      App.generateTimeSlots ls Sample.day = Ret (Sample.day, slots)
      /\ map Slot.time slots = map fst App.day_grid)
  /\ App.selectable
       (App.render_day (fst (App.getBlackoutDates Sample.env ls)) None false false
          Sample.day)
     = negb (false
             || array_includes (fst (App.getBlackoutDates Sample.env ls)) Sample.day).
Proof.
  cbv zeta.
  pose proof (block_never_consulted_by_resolver_or_calendar Sample.env
                (mkStorage None None (Some [Block.mk "block-1" Sample.day "blackout" ""]))
                None false false Sample.day eq_refl) as [(slots & H1 & H2 & _) Hcal].
  split.
  - exists slots. split; [exact H1 | exact H2].
  - exact (proj2 (proj2 (proj2 Hcal))).
Defined.

(** C5, as stated, fails: a cancelled booking keeps its slot unavailable,
    although no active booking occupies it. *)
Lemma cancelled_booking_keeps_slot_unavailable :
  let ls := mkStorage (Some [Sample.booking "booking-1" "cancelled"]) None None in
  Spec.blocked ls Sample.day = false
  /\ Spec.occupied_by_active (stored_bookings ls) Sample.day "09:00" = false
  /\ App.generateTimeSlots ls Sample.day = Ret (Sample.day, Sample.nine_taken).
Proof. cbv zeta. repeat split; reflexivity. Qed.

(** C5, amended: for every date, a generated slot has available = true if and
    only if no stored booking, whatever its status, has that exact date and
    time; a cancelled booking makes its slot unavailable like any other. *)
Theorem slot_available_iff_no_stored_booking (ls : Storage) (d : string) :
  exists slots,
    App.generateTimeSlots ls d = Ret (d, slots)
    /\ forall s, In s slots ->
         (Slot.available s = true <->
          ~ exists b, In b (stored_bookings ls)
                      /\ Booking.date b = d /\ Booking.time b = Slot.time s).
Proof.
  eexists. split; [apply generateTimeSlots_eq|].
  intros s Hs. rewrite (grid_slot_available _ _ Hs), negb_true_iff.
  rewrite <- booked_times_In, <- array_includes_In.
  destruct (array_includes _ _); split; congruence.
Qed.

(** C2, as stated, fails: [POST /api/bookings] stores a second pending
    booking on a pair that a pending booking already holds. *)
Lemma createBooking_allows_shared_slot :
  let ls := mkStorage (Some [Sample.booking "booking-1" "deposit_pending"]) None None in
  let ls' := snd (App.mockApiRequest Sample.env (App.post_booking Sample.at_nine) ls) in
  Spec.no_double_booking (stored_bookings ls)
  /\ stored_bookings ls'
     = [Sample.booking "booking-1" "deposit_pending";
        Sample.booking "booking-1761474600000" "deposit_pending"]
  /\ ~ Spec.no_double_booking (stored_bookings ls').
Proof.
  cbv zeta. split; [|split].
  - unfold Spec.no_double_booking. cbn. repeat constructor. intros [].
  - reflexivity.
  - unfold Spec.no_double_booking. cbn. intros H.
    inversion H as [|? ? Hin _]. apply Hin. now left.
Qed.

(** C2, amended: for every stored booking, whatever its status
    (deposit_pending and deposit_paid included), its date and time never
    appear with available = true in a later resolver result for that date,
    after any sequence of operations on the store; createBooking itself does
    not check the pair, and keeps the pairs of the stored bookings distinct,
    hence no two non-cancelled bookings on one pair, when the requested pair
    is one the resolver currently reports available. *)
Theorem occupied_slot_never_offered_again
  (ls ls' : Storage) (b : Booking.t) (env : Env) (data : BookingData.t) :
  In b (stored_bookings ls) ->
  reachable ls ls' ->
  (exists slots,
      App.generateTimeSlots ls' (Booking.date b) = Ret (Booking.date b, slots)
      /\ forall s, In s slots -> Slot.time s = Booking.time b ->
                   Slot.available s = false)
  /\ (NoDup (map Spec.slot_key (stored_bookings ls')) ->
      App.slot_offered ls' (BookingData.date data) (BookingData.time data) ->
      let ls'' := snd (App.mockApiRequest env (App.post_booking data) ls') in
      NoDup (map Spec.slot_key (stored_bookings ls''))
      /\ Spec.no_double_booking (stored_bookings ls'')).
Proof.
  intros Hb Hreach. split.
  - eexists. split; [apply generateTimeSlots_eq|].
    intros s Hs Ht. eapply occupied_slot_unavailable; eauto.
    apply (reachable_keeps_keys _ _ Hreach).
    apply in_map_iff. exists b. split; [reflexivity | exact Hb].
  - intros Hnd Hoff. cbv zeta.
    pose proof (offered_post_keeps_distinct env data ls' Hnd Hoff) as H.
    split; [exact H | now apply distinct_keys_no_double_booking].
Qed.

Lemma occupied_slot_never_offered_again_witness :
  let ls := mkStorage (Some [Sample.booking "booking-1" "deposit_pending"]) None None in
  let ls' := snd (Admin.mock_patch_booking "/api/bookings/booking-1" "deposit_paid" ls) in
  (exists slots,
      App.generateTimeSlots ls' Sample.day = Ret (Sample.day, slots)
      /\ forall s, In s slots -> Slot.time s = "09:00" -> Slot.available s = false)
  /\ Spec.no_double_booking
       (stored_bookings
          (snd (App.mockApiRequest Sample.env (App.post_booking Sample.at_ten) ls'))).
Proof.
  cbv zeta.
  destruct (occupied_slot_never_offered_again
              (mkStorage (Some [Sample.booking "booking-1" "deposit_pending"]) None None)
              (snd (Admin.mock_patch_booking "/api/bookings/booking-1" "deposit_paid"
                      (mkStorage (Some [Sample.booking "booking-1" "deposit_pending"])
                         None None)))
              (Sample.booking "booking-1" "deposit_pending") Sample.env Sample.at_ten)
    as [H1 H2].
  - left. reflexivity.
  - eapply reach_step; [apply reach_refl | apply step_patch].
  - split; [exact H1|].
    apply H2.
    + cbn. repeat constructor. intros [].
    + exists Sample.nine_taken, (Slot.mk "10:00" true "10:00 AM").
      split; [reflexivity|]. split; [|split; reflexivity].
      cbn. tauto.
Defined.

(* ================================================================= *)
(** ** Status updates ([assets/admin.js]) *)

Section StatusFacts.

(** The identifier the gateway extracts from the endpoint
    [updateBookingStatus] builds. *)
Lemma patch_endpoint_id (id : string) :
  Admin.plain_id id = true ->
  pop (split "/" ("/api/bookings/" ++ id)) = id
  /\ startsWith ("/api/bookings/" ++ id) "/api/bookings/" = true.
Proof.
  intros H. split.
  - cbn. rewrite (split_plain _ _ H). reflexivity.
  - unfold startsWith. cbn. destruct id; reflexivity.
Qed.

Lemma findIndex_spec (id s : string) (l : list Booking.t) :
  match Admin.findIndex id l with
  | Some i =>
      exists b, nth_error l i = Some b
                /\ List.find (Admin.has_id id) l = Some b
                /\ Admin.set_nth i (Booking.with_status b s) l
                   = Admin.set_local_status id s l
  | None =>
      List.find (Admin.has_id id) l = None /\ Admin.set_local_status id s l = l
  end.
Proof.
  induction l as [|b l IH]; cbn; [auto|].
  unfold Admin.has_id at 1 3. destruct (Booking.id b =? id) eqn:E.
  - exists b. auto.
  - destruct (Admin.findIndex id l) as [i|].
    + destruct IH as (b' & Hn & Hf & Hs). exists b'. cbn.
      repeat split; auto. now rewrite Hs.
    + destruct IH as [Hf Hs]. split; [exact Hf | now rewrite Hs].
Qed.


(** The gateway on the endpoint of [updateBookingStatus]. *)
Lemma mock_patch_booking_eq (id status : string) (ls : Storage) :
  Admin.plain_id id = true ->
  Admin.mock_patch_booking ("/api/bookings/" ++ id) status ls =
  match List.find (Admin.has_id id) (stored_bookings ls) with
  | Some b =>
      (Ret (Booking.with_status b status),
       set_bookings ls (Admin.set_local_status id status (stored_bookings ls)))
  | None => (Throw "Booking not found", ls)
  end.
Proof.
  intros H. unfold Admin.mock_patch_booking.
  destruct (patch_endpoint_id id H) as [-> ->].
  pose proof (findIndex_spec id status (stored_bookings ls)) as Hs.
  destruct (Admin.findIndex id (stored_bookings ls)) as [i|].
  - destruct Hs as (b & -> & -> & ->). reflexivity.
  - destruct Hs as [-> _]. reflexivity.
Qed.

(** The buttons of the drawer offer the transitions of the table, and
    cancelling or marking as no-show a completed booking besides. *)
Lemma drawer_actions_table :
  forallb (fun from =>
    forallb (fun to =>
      Bool.eqb (array_includes (Admin.drawer_actions from) to)
        (Spec.transition_allowed from to
         || ((from =? "completed") && ((to =? "cancelled") || (to =? "no_show")))))
      Spec.STATUSES) Spec.STATUSES = true.
Proof. reflexivity. Qed.

End StatusFacts.




(* ================================================================= *)
(** ** Booking submission ([assets/app.js]) *)

Section SubmitFacts.

Lemma validate_each_eq (fields : list App.Field) (isValid : bool) (pg : App.Page) :
  App.validate_each fields isValid pg =
  (isValid && forallb App.field_valid fields,
   App.mkPage (App.toasts pg) (App.form_errors pg ++ App.shown_errors fields)%list
     (App.requests pg) (App.storage pg) (App.time_listeners pg)).
Proof.
  revert isValid pg. induction fields as [|f rest IH]; intros isValid pg.
  - cbn. rewrite andb_true_r, app_nil_r. destruct pg; reflexivity.
  - cbn [App.validate_each App.validateField]. rewrite IH.
    unfold App.shown_errors, App.field_valid. cbn [forallb filter].
    destruct (App.errorDiv f);
      cbn [map App.toasts App.form_errors App.requests App.storage App.time_listeners].
    + rewrite <- app_assoc.
      destruct (App.field_error f =? ""); destruct isValid; reflexivity.
    + destruct (App.field_error f =? ""); destruct isValid; reflexivity.
Qed.

(** [handleBookingSubmit] in one equation: it aborts unless every check
    passes, raises when no service is selected, and otherwise sends the
    request, which the mock gateway always serves. *)
Lemma handleBookingSubmit_eq (cfg : Config) (env : Env) (st : App.State)
  (form : list App.Field) (pg : App.Page) :
  App.handleBookingSubmit cfg env st form pg =
  let pg1 := App.validated_page st form pg in
  if App.submission_valid st form then
    match App.selectedService st with
    | None =>
        (App.Raised "TypeError: Cannot read properties of null (reading 'price')", pg1)
    | Some service =>
        let b := App.new_booking cfg env st form service in
        (App.Confirmed
           (App.BookingCreated (Booking.id b) "deposit_pending"
              (JSON_number (Service.price service))
              (JSON_number (App.depositAmount cfg (Service.price service)))
              ("mock_client_secret_" ++ Booking.id b)),
         App.mkPage
           (App.toasts pg1
            ++ [App.mkToast "Your booking has been created! Redirecting to payment..."
                  "success"])%list
           (App.form_errors pg1)
           (App.requests pg ++ [App.post_booking (App.booking_data cfg st form service)])%list
           (set_bookings (App.storage pg) (stored_bookings (App.storage pg) ++ [b])%list)
           (App.time_listeners pg))
    end
  else (App.Aborted, pg1).
Proof.
  unfold App.handleBookingSubmit, App.submission_valid, App.validated_page, App.missing_toasts.
  rewrite validate_each_eq. cbn [andb].
  destruct (forallb App.field_valid (filter App.required form));
    destruct (App.selected (App.selectedDate st));
    destruct (App.selected (App.selectedTime st));
    unfold App.showToast;
    cbn [negb andb App.toasts App.form_errors App.requests App.storage
         App.time_listeners app];
    rewrite ?app_nil_r, <- ?app_assoc; reflexivity.
Qed.

Lemma first_failure_none (st : App.State) (form : list App.Field) :
  Spec.first_failure st form = None <-> App.submission_valid st form = true.
Proof.
  unfold Spec.first_failure, App.submission_valid.
  assert (List.find (fun f => App.required f && negb (App.field_error f =? "")) form = None
          <-> forallb App.field_valid (filter App.required form) = true) as Hf.
  { induction form as [|f l IH]; cbn; [tauto|].
    unfold App.field_valid at 1.
    destruct (App.required f); cbn.
    - destruct (App.field_error f =? ""); cbn; [exact IH | split; discriminate].
    - exact IH. }
  destruct (List.find _ form) as [f|].
  - split; [discriminate|]. intros H.
    apply andb_true_iff in H as [H _]. apply andb_true_iff in H as [H _].
    apply Hf in H. discriminate.
  - rewrite (proj1 Hf eq_refl). cbn.
    destruct (App.selected (App.selectedDate st)); cbn; [|split; discriminate].
    destruct (App.selected (App.selectedTime st)); cbn; [tauto | split; discriminate].
Qed.

Lemma first_failure_field (st : App.State) (form : list App.Field) (f : App.Field) :
  Spec.first_failure st form = Some (Spec.FieldInvalid f) ->
  In f (filter App.required form) /\ App.field_error f <> "".
Proof.
  unfold Spec.first_failure.
  destruct (List.find _ form) as [g|] eqn:E.
  - intros [= ->]. apply List.find_some in E as [Hin H].
    apply andb_true_iff in H as [Hr He]. split.
    + apply filter_In. auto.
    + apply negb_true_iff, String.eqb_neq in He. exact He.
  - destruct (negb _); [discriminate|]. destruct (negb _); discriminate.
Qed.

End SubmitFacts.

Section FieldFacts.

(** What [validateField] asks of a required field. *)
Lemma required_field_valid (f : App.Field) :
  App.required f = true ->
  let v := trim (App.fvalue f) in
  App.field_valid f = true <->
  v <> ""
  /\ (App.ftype f = "email" -> test App.emailRegex v = true)
  /\ (App.ftype f = "tel" ->
      test App.phoneRegex v = true
      /\ (10 <= String.length (string_filter is_digit v))%nat).
Proof.
  intros Hreq v. unfold App.field_valid, App.field_error. fold v. rewrite Hreq.
  cbn [andb].
  destruct (String.eqb_spec v "") as [Ev|Ev].
  - cbn. split; [intros E; discriminate E | intros [H _]; contradiction].
  - cbn [negb andb]. rewrite !andb_false_r, !andb_true_r.
    destruct (String.eqb_spec (App.ftype f) "email") as [Ht|Ht].
    + destruct (test App.emailRegex v); cbn.
      * split; [|reflexivity]. intros _. split; [exact Ev|]. split; [reflexivity|].
        intros Htel. rewrite Ht in Htel. discriminate.
      * split; [intros E; discriminate E|]. intros (_ & He & _). specialize (He Ht). discriminate.
    + destruct (String.eqb_spec (App.ftype f) "tel") as [Ht2|Ht2].
      * destruct (test App.phoneRegex v);
          destruct (Nat.ltb_spec (String.length (string_filter is_digit v)) 10)
            as [Hl|Hl]; cbn.
        -- split; [intros E; discriminate E|]. intros (_ & _ & Hp).
           destruct (Hp Ht2) as [_ Hl']. lia.
        -- split; [|reflexivity]. intros _. split; [exact Ev|]. split.
           ++ intros He. contradiction.
           ++ intros _. split; [reflexivity | assumption].
        -- split; [intros E; discriminate E|]. intros (_ & _ & Hp).
           destruct (Hp Ht2) as [Hp' _]. discriminate.
        -- split; [intros E; discriminate E|]. intros (_ & _ & Hp).
           destruct (Hp Ht2) as [Hp' _]. discriminate.
      * cbn. split; [|reflexivity]. intros _. split; [exact Ev|].
        split; intros He; contradiction.
Qed.

End FieldFacts.

(* ================================================================= *)
(** ** Deposit, restriction warning and validation: the claims *)

Section RestrictionWarningFacts.

Lemma violates_with_restriction (notes : jsval) (h : float) (time : string) :
  parseTimeRestriction notes = Ret (Some h) ->
  violatesTimeRestriction notes time = Ret (PrimFloat.ltb h (time_hours time)).
Proof. intros H. unfold violatesTimeRestriction. now rewrite H. Qed.

Lemma digits_no_colon (ds : string) :
  string_forallb is_digit ds = true ->
  string_forallb (fun c => negb (Ascii.eqb c ":")) ds = true.
Proof.
  induction ds as [|c r IH]; cbn; [reflexivity|].
  intros H. apply andb_true_iff in H as [Hc Hr]. rewrite (IH Hr), andb_true_r.
  destruct (Ascii.eqb_spec c ":") as [->|]; [discriminate | reflexivity].
Qed.

(** The hour field of a time whose text before the colon is digits. *)
Lemma time_hours_digits (ds rest : string) :
  ds <> "" -> string_forallb is_digit ds = true ->
  time_hours (ds ++ String ":" rest) = float_of_Z (dec_value ds).
Proof.
  intros Hne Hd. unfold time_hours.
  rewrite (split_line ":" ds rest (digits_no_colon ds Hd)).
  cbn [map hd]. now apply Number_digits.
Qed.

(** The options of the dropdown under a restriction: every available slot,
    in order, the flagged ones with the warning after their label. *)
Lemma time_options_restricted (st : App.State) (service : Service.t) (h : float)
  (slots : list Slot.t) :
  App.selectedService st = Some service ->
  parseTimeRestriction (Service.notes service) = Ret (Some h) ->
  App.time_options st slots =
  Ret (map (fun slot =>
              App.mkTimeOption (Slot.time slot)
                (Slot.label slot
                 ++ (if PrimFloat.ltb h (time_hours (Slot.time slot))
                     then App.WARNING else "")))
         (filter Slot.available slots)).
Proof.
  intros Hs Hp. induction slots as [|slot rest IH]; cbn [App.time_options filter map].
  - reflexivity.
  - destruct (Slot.available slot); [|exact IH].
    rewrite Hs, (violates_with_restriction _ h _ Hp). cbn [bind].
    rewrite IH. reflexivity.
Qed.

(** One listener under a restriction: the choice is recorded, and the toast
    shown when the choice is a time and flagged. *)
Lemma time_listener_restricted (st : App.State) (service : Service.t) (h : float)
  (chosen : string) (pg : App.Page) :
  App.selectedService st = Some service ->
  parseTimeRestriction (Service.notes service) = Ret (Some h) ->
  App.time_listener chosen (st, pg) =
  (App.mkState (App.catalog st) (Some service) (App.selectedDate st) (Some chosen),
   if negb (chosen =? "") && PrimFloat.ltb h (time_hours chosen)
   then App.showToast (App.message App.RESTRICTION_TOAST)
          (App.type App.RESTRICTION_TOAST) pg
   else pg).
Proof.
  intros Hs Hp. unfold App.time_listener.
  cbn [App.selectedService App.selectedTime App.selected]. rewrite Hs.
  rewrite (violates_with_restriction _ h _ Hp).
  destruct (chosen =? ""); cbn [negb andb]; [reflexivity|].
  destruct (PrimFloat.ltb h (time_hours chosen)); reflexivity.
Qed.

(** All the listeners of the dropdown, run in turn. *)
Lemma time_listeners_restricted (st : App.State) (service : Service.t) (h : float)
  (chosen : string) (pg : App.Page) (n : nat) :
  App.selectedService st = Some service ->
  parseTimeRestriction (Service.notes service) = Ret (Some h) ->
  Nat.iter (S n) (App.time_listener chosen) (st, pg) =
  (App.mkState (App.catalog st) (Some service) (App.selectedDate st) (Some chosen),
   App.mkPage
     (App.toasts pg
      ++ repeat App.RESTRICTION_TOAST
           (if negb (chosen =? "") && PrimFloat.ltb h (time_hours chosen)
            then S n else 0))%list
     (App.form_errors pg) (App.requests pg) (App.storage pg) (App.time_listeners pg)).
Proof.
  intros Hs Hp. induction n as [|n IH].
  - cbn [Nat.iter nat_rect]. rewrite (time_listener_restricted st service h chosen pg Hs Hp).
    destruct (negb (chosen =? "") && PrimFloat.ltb h (time_hours chosen)).
    + reflexivity.
    + cbn [repeat]. rewrite app_nil_r. destruct pg; reflexivity.
  - change (Nat.iter (S (S n)) (App.time_listener chosen) (st, pg))
      with (App.time_listener chosen (Nat.iter (S n) (App.time_listener chosen) (st, pg))).
    rewrite IH.
    erewrite time_listener_restricted; [|reflexivity|exact Hp].
    cbn [App.catalog App.selectedDate].
    destruct (negb (chosen =? "") && PrimFloat.ltb h (time_hours chosen)).
    + unfold App.showToast.
      cbn [App.toasts App.form_errors App.requests App.storage App.time_listeners].
      rewrite <- app_assoc.
      change (App.mkToast (App.message App.RESTRICTION_TOAST)
                (App.type App.RESTRICTION_TOAST)) with App.RESTRICTION_TOAST.
      rewrite <- (repeat_cons (S n) App.RESTRICTION_TOAST). reflexivity.
    + reflexivity.
Qed.

End RestrictionWarningFacts.

(** The example of the specification in binary64, the arithmetic the script
    runs on: the share of 250 is 87.5 exactly, and above the minimum. *)
#[warnings="-inexact-float"] Lemma share_of_250_binary64 :
  PrimFloat.mul 250%float 0.35%float = 87.5%float
  /\ PrimFloat.ltb 15%float (PrimFloat.mul 250%float 0.35%float) = true.
Proof. split; vm_compute; reflexivity. Qed.

(** C4, as stated, fails: for a price below the configured minimum the
    deposit is the minimum, which exceeds the price although the share is at
    most the price; and the deposit is the maximum of binary64 numbers, which
    for the price 45 is 15.749999999999998 and not the 15.75 that 45 times
    0.35 is. *)
#[warnings="-inexact-float"] Lemma deposit_floor_exceeds_low_price :
  let cheap := Service.mk "retouch" "Retouch" 10%float JNull in
  let st := App.mkState [cheap] (Some cheap) (Some Sample.day) (Some "09:00") in
  let pg := snd (App.handleBookingSubmit CONFIG Sample.env st Sample.form
                   (Sample.blank_page Sample.no_storage)) in
  PrimFloat.leb 0 10 = true
  /\ PrimFloat.leb (PrimFloat.mul 10 (DEPOSIT_PERCENT CONFIG)) 10 = true
  /\ App.depositAmount CONFIG 10 = 15%float
  /\ PrimFloat.leb (App.depositAmount CONFIG 10) 10 = false
  /\ map (fun b => BookingData.amountDue (Booking.data b))
       (stored_bookings (App.storage pg)) = [Some 10%float]
  /\ map (fun b => BookingData.depositAmount (Booking.data b))
       (stored_bookings (App.storage pg)) = [Some 15%float]
  /\ num_toString (App.depositAmount CONFIG 45) = "15.749999999999998"
  /\ PrimFloat.eqb (App.depositAmount CONFIG 45) 15.75 = false.
Proof. cbv zeta. repeat split; vm_compute; reflexivity. Qed.

(** C4, amended: for every price, the deposit is Math.max of the binary64
    product price * pct and min, for the configured pct and min: when neither
    is NaN it is one of the two and not below either, and it is at most the
    price whenever price * pct <= price and min <= price; when one is NaN it
    is NaN.  A confirmed booking stores the price as amountDue and the
    deposit as depositAmount, as JSON carries them, and the response repeats
    both; and price 250 with pct 0.35 and min 15 yields 87.5. *)
Theorem deposit_is_max_of_share_and_minimum
  (cfg : Config) (env : Env) (st : App.State) (form : list App.Field)
  (pg : App.Page) (service : Service.t) :
  App.selectedService st = Some service ->
  App.submission_valid st form = true ->
  let price := Service.price service in
  let share := PrimFloat.mul price (DEPOSIT_PERCENT cfg) in
  let deposit := App.depositAmount cfg price in
  let r := App.handleBookingSubmit cfg env st form pg in
  (exists b,
      stored_bookings (App.storage (snd r))
      = (stored_bookings (App.storage pg) ++ [b])%list
      /\ fst r = App.Confirmed
                  (App.BookingCreated (Booking.id b) "deposit_pending"
                     (BookingData.amountDue (Booking.data b))
                     (BookingData.depositAmount (Booking.data b))
                     ("mock_client_secret_" ++ Booking.id b))
      /\ BookingData.amountDue (Booking.data b) = JSON_number price
      /\ BookingData.depositAmount (Booking.data b) = JSON_number deposit)
  /\ deposit = Math_max share (DEPOSIT_MIN cfg)
  /\ (is_nan share || is_nan (DEPOSIT_MIN cfg) = true -> deposit = nan)
  /\ (is_nan share = false -> is_nan (DEPOSIT_MIN cfg) = false ->
      (deposit = share \/ deposit = DEPOSIT_MIN cfg)
      /\ PrimFloat.leb share deposit = true
      /\ PrimFloat.leb (DEPOSIT_MIN cfg) deposit = true
      /\ (PrimFloat.leb share price = true ->
          PrimFloat.leb (DEPOSIT_MIN cfg) price = true ->
          PrimFloat.leb deposit price = true))
  /\ App.depositAmount CONFIG 250 = 87.5%float.
Proof.
  intros Hs Hv price share deposit r.
  split; [|split; [reflexivity|split; [|split]]].
  - subst r. rewrite handleBookingSubmit_eq, Hv, Hs. cbv zeta.
    exists (App.new_booking cfg env st form service).
    cbn [fst snd App.storage stored_bookings set_bookings sb_bookings].
    repeat split; reflexivity.
  - intros Hnan. unfold deposit, App.depositAmount, Math_max. fold price share.
    now rewrite Hnan.
  - intros Hshare Hmin.
    assert (deposit = Math_max share (DEPOSIT_MIN cfg)) as Hdef by reflexivity.
    clearbody deposit. rewrite Hdef. clear Hdef.
    destruct (Math_max_spec share (DEPOSIT_MIN cfg) Hshare Hmin) as (Hor & H1 & H2).
    split; [exact Hor|]. split; [exact H1|]. split; [exact H2|].
    intros Hsp Hmp. destruct Hor as [-> | ->]; assumption.
  - vm_compute. reflexivity.
Qed.

#[warnings="-inexact-float"] Lemma deposit_is_max_of_share_and_minimum_witness :
  exists b,
    stored_bookings
      (App.storage
         (snd (App.handleBookingSubmit CONFIG Sample.env Sample.state Sample.form
                 (Sample.blank_page Sample.no_storage))))
    = [b]
    /\ BookingData.amountDue (Booking.data b) = JSON_number 250%float
    /\ BookingData.depositAmount (Booking.data b)
       = JSON_number (App.depositAmount CONFIG 250%float).
Proof.
  destruct (deposit_is_max_of_share_and_minimum CONFIG Sample.env Sample.state
              Sample.form (Sample.blank_page Sample.no_storage) Sample.fulani
              eq_refl eq_refl)
    as [(b & Hst & _ & Hdue & Hdep) _].
  exists b. split; [exact Hst|]. split; [exact Hdue | exact Hdep].
Defined.

(** C7: for every service whose notes parse to a restriction hour h, a time
    is flagged exactly when the number its hour field reads as is above h,
    which for an hour field of digits and h a whole number, both below 2^53,
    is the comparison of the whole numbers.  The flag is advisory: the time
    dropdown keeps every available slot as an option, the flagged ones with
    the warning after their label; choosing a time records it, with one
    warning toast per listener the dropdown carries when the time is
    flagged; and with the form valid and a date selected, the submission at
    that time, flagged or not, is sent to the gateway and stored as a
    deposit_pending booking. *)
Theorem restriction_flags_but_never_blocks
  (cfg : Config) (env : Env) (st : App.State) (form : list App.Field)
  (pg : App.Page) (service : Service.t) (t : string) (h : float)
  (slots : list Slot.t) :
  App.selectedService st = Some service ->
  App.selectedTime st = Some t ->
  parseTimeRestriction (Service.notes service) = Ret (Some h) ->
  App.submission_valid st form = true ->
  let flagged := fun time => PrimFloat.ltb h (time_hours time) in
  (forall time,
      violatesTimeRestriction (Service.notes service) time = Ret (flagged time))
  /\ (forall ds rest hz,
        ds <> "" -> string_forallb is_digit ds = true ->
        (dec_value ds < 2 ^ 53)%Z ->
        h = float_of_Z hz -> (0 <= hz < 2 ^ 53)%Z ->
        flagged (ds ++ String ":" rest) = (hz <? dec_value ds)%Z)
  /\ App.populateTimeSlots st slots pg
     = (Ret (map (fun slot =>
                    App.mkTimeOption (Slot.time slot)
                      (Slot.label slot
                       ++ (if flagged (Slot.time slot) then App.WARNING else "")))
               (filter Slot.available slots)),
        App.mkPage (App.toasts pg) (App.form_errors pg) (App.requests pg)
          (App.storage pg) (S (App.time_listeners pg)))
  /\ (forall chosen,
        App.on_time_change st chosen pg
        = match App.time_listeners pg with
          | O => (st, pg)
          | S _ =>
              (App.mkState (App.catalog st) (Some service) (App.selectedDate st)
                 (Some chosen),
               App.mkPage
                 (App.toasts pg
                  ++ repeat App.RESTRICTION_TOAST
                       (if negb (chosen =? "") && flagged chosen
                        then App.time_listeners pg else 0))%list
                 (App.form_errors pg) (App.requests pg) (App.storage pg)
                 (App.time_listeners pg))
          end)
  /\ exists res b,
       App.handleBookingSubmit cfg env st form pg
       = (App.Confirmed res,
          App.mkPage
            (App.toasts pg
             ++ [App.mkToast "Your booking has been created! Redirecting to payment..."
                   "success"])%list
            (App.form_errors pg ++ App.shown_errors (filter App.required form))%list
            (App.requests pg ++ [App.post_booking (Booking.data b)])%list
            (set_bookings (App.storage pg) (stored_bookings (App.storage pg) ++ [b])%list)
            (App.time_listeners pg))
       /\ Booking.time b = t
       /\ Booking.status b = "deposit_pending".
Proof.
  intros Hs Ht Hp Hv flagged. split; [|split; [|split; [|split]]].
  - intros time. now apply violates_with_restriction.
  - intros ds rest hz Hne Hd Hsmall -> Hhz. unfold flagged.
    rewrite (time_hours_digits ds rest Hne Hd). apply float_of_Z_ltb; [exact Hhz|].
    split; [|exact Hsmall]. apply radix_value_from_nonneg; lia.
  - unfold App.populateTimeSlots.
    now rewrite (time_options_restricted st service h slots Hs Hp).
  - intros chosen. unfold App.on_time_change.
    destruct (App.time_listeners pg) as [|n] eqn:En; [reflexivity|].
    rewrite (time_listeners_restricted st service h chosen pg n Hs Hp).
    now rewrite En.
  - rewrite handleBookingSubmit_eq, Hv, Hs. cbv zeta.
    eexists. exists (App.new_booking cfg env st form service).
    split; [|split].
    + unfold App.validated_page, App.missing_toasts.
      unfold App.submission_valid in Hv.
      apply andb_true_iff in Hv as [Hv Htime]. apply andb_true_iff in Hv as [_ Hdate].
      rewrite Hdate, Htime.
      cbn [app App.toasts App.form_errors App.time_listeners]. rewrite app_nil_r.
      reflexivity.
    + unfold Booking.time. cbn. rewrite Ht. reflexivity.
    + reflexivity.
Qed.

(** A time after the restriction of the selected service: flagged, offered
    with the warning, and booked all the same. *)
Lemma restriction_flags_but_never_blocks_witness :
  violatesTimeRestriction (Service.notes Sample.fulani) "09:00" = Ret true
  /\ App.populateTimeSlots Sample.state
       [Slot.mk "08:00" true "8:00 AM"; Slot.mk "09:00" true "9:00 AM"]
       (Sample.blank_page Sample.no_storage)
     = (Ret [App.mkTimeOption "08:00" "8:00 AM";
             App.mkTimeOption "09:00" ("9:00 AM" ++ App.WARNING)],
        App.mkPage [] [] [] Sample.no_storage 1)
  /\ exists res b,
       App.handleBookingSubmit CONFIG Sample.env Sample.state Sample.form
         (Sample.blank_page Sample.no_storage)
       = (App.Confirmed res,
          App.mkPage
            [App.mkToast "Your booking has been created! Redirecting to payment..."
               "success"]
            (App.shown_errors (filter App.required Sample.form))
            [App.post_booking (Booking.data b)]
            (mkStorage (Some [b]) None None) 0)
       /\ Booking.time b = "09:00"
       /\ Booking.status b = "deposit_pending".
Proof.
  destruct (restriction_flags_but_never_blocks CONFIG Sample.env Sample.state Sample.form
              (Sample.blank_page Sample.no_storage) Sample.fulani "09:00" 8%float
              [Slot.mk "08:00" true "8:00 AM"; Slot.mk "09:00" true "9:00 AM"]
              eq_refl eq_refl ltac:(vm_compute; reflexivity) eq_refl)
    as (Hflag & _ & Hopts & _ & Hsubmit).
  split; [|split].
  - rewrite (Hflag "09:00"). vm_compute. reflexivity.
  - rewrite Hopts. vm_compute. reflexivity.
  - exact Hsubmit.
Defined.

(** The dropdown keeps every available slot, flagged or not. *)
Lemma time_options_keep_available_slots (st : App.State) (slots : list Slot.t) :
  exists opts,
    App.time_options st slots = Ret opts
    /\ map App.value opts = map Slot.time (filter Slot.available slots).
Proof.
  induction slots as [|s rest (opts & IH & Hm)]; cbn [App.time_options filter].
  - exists []. split; reflexivity.
  - destruct (Slot.available s); [|eauto].
    assert (exists w,
              match App.selectedService st with
              | Some service =>
                  violatesTimeRestriction (Service.notes service) (Slot.time s)
              | None => Ret false
              end = Ret w) as [w ->].
    { destruct (App.selectedService st) as [service|]; [|eauto].
      unfold violatesTimeRestriction.
      destruct (parseTimeRestriction_total (Service.notes service)) as [[h|] ->];
        cbn; eauto. }
    cbn [bind]. rewrite IH. cbn [bind]. eexists. split; [reflexivity|].
    cbn. now rewrite Hm.
Qed.

(** One listener of the dropdown records the choice and leaves the store. *)
Lemma time_listener_records_choice (st : App.State) (chosen : string) (pg : App.Page) :
  exists pg',
    App.time_listener chosen (st, pg)
    = (App.mkState (App.catalog st) (App.selectedService st) (App.selectedDate st)
         (Some chosen), pg')
    /\ App.storage pg' = App.storage pg
    /\ App.time_listeners pg' = App.time_listeners pg.
Proof.
  unfold App.time_listener. cbn [App.selectedService App.selectedTime].
  destruct (App.selectedService st) as [service|]; [|eauto].
  destruct (App.selected (Some chosen)); [|eauto].
  destruct (violatesTimeRestriction (Service.notes service) chosen) as [[|]|]; eauto.
Qed.

(** C8: for every submission that fails validation, the first failing check
    is reported (a required field's error in its .form-error element, or the
    toast asking for a date or a time), the handler returns without any
    request to the gateway, and the store is unchanged, so no booking is
    created. *)
Theorem invalid_submission_never_reaches_gateway
  (cfg : Config) (env : Env) (st : App.State) (form : list App.Field)
  (pg : App.Page) (failure : Spec.Failure) :
  Spec.first_failure st form = Some failure ->
  let r := App.handleBookingSubmit cfg env st form pg in
  fst r = App.Aborted
  /\ App.requests (snd r) = App.requests pg
  /\ App.storage (snd r) = App.storage pg
  /\ match failure with
     | Spec.FieldInvalid f =>
         App.field_error f <> ""
         /\ (App.errorDiv f = true ->
             In (App.name f, App.field_error f) (App.form_errors (snd r)))
     | Spec.DateMissing =>
         In (App.mkToast "Please select a date" "error") (App.toasts (snd r))
     | Spec.TimeMissing =>
         In (App.mkToast "Please select a time" "error") (App.toasts (snd r))
     end.
Proof.
  intros Hf r. subst r. rewrite handleBookingSubmit_eq. cbv zeta.
  assert (App.submission_valid st form = false) as ->.
  { destruct (App.submission_valid st form) eqn:E; [|reflexivity].
    apply first_failure_none in E. congruence. }
  cbn [fst snd App.validated_page App.requests App.storage App.form_errors App.toasts].
  repeat (split; [reflexivity|]).
  destruct failure as [f | | ].
  - destruct (first_failure_field _ _ _ Hf) as [Hin Hne]. split; [exact Hne|].
    intros Hdiv. apply in_or_app. right. unfold App.shown_errors.
    apply in_map_iff. exists f. split; [reflexivity|].
    apply filter_In. auto.
  - unfold Spec.first_failure in Hf.
    destruct (List.find _ form); [discriminate|].
    apply in_or_app. right. unfold App.missing_toasts.
    destruct (App.selected (App.selectedDate st)); cbn in *; [|now left].
    destruct (App.selected (App.selectedTime st)); discriminate.
  - unfold Spec.first_failure in Hf.
    destruct (List.find _ form); [discriminate|].
    apply in_or_app. right. unfold App.missing_toasts.
    destruct (App.selected (App.selectedDate st)); cbn in *; [|discriminate].
    destruct (App.selected (App.selectedTime st)); cbn in *; [discriminate | now left].
Qed.

(** The invalid email of the specification's example. *)
Lemma invalid_submission_never_reaches_gateway_witness :
  let bad := App.mkField "email" "email" true "not-an-email" true in
  let r := App.handleBookingSubmit CONFIG Sample.env Sample.state Sample.form_bad_email
             (Sample.blank_page Sample.no_storage) in
  Spec.first_failure Sample.state Sample.form_bad_email = Some (Spec.FieldInvalid bad)
  /\ fst r = App.Aborted
  /\ App.requests (snd r) = []
  /\ App.storage (snd r) = Sample.no_storage
  /\ In ("email", "Please enter a valid email address") (App.form_errors (snd r)).
Proof.
  cbv zeta.
  destruct (invalid_submission_never_reaches_gateway CONFIG Sample.env Sample.state
              Sample.form_bad_email (Sample.blank_page Sample.no_storage)
              (Spec.FieldInvalid (App.mkField "email" "email" true "not-an-email" true))
              eq_refl)
    as (Hab & Hreq & Hst & _ & Herr).
  split; [reflexivity|]. split; [exact Hab|]. split; [exact Hreq|].
  split; [exact Hst|]. exact (Herr eq_refl).
Defined.

(** C9, as stated, fails: with the date on the blackout list and the time
    already held by a pending booking, the submission passes validation and
    a second booking is stored on the same date and time. *)
Lemma submission_skips_block_and_availability_checks :
  let ls := mkStorage (Some [Sample.booking "booking-1" "deposit_pending"])
              (Some [Sample.day]) None in
  let r := App.handleBookingSubmit CONFIG Sample.env Sample.state Sample.form
             (Sample.blank_page ls) in
  Spec.blocked ls Sample.day = true
  /\ App.generateTimeSlots ls Sample.day = Ret (Sample.day, Sample.nine_taken)
  /\ fst r = App.Confirmed
              (App.BookingCreated "booking-1761474600000" "deposit_pending"
                 (Some 250%float) (Some (App.depositAmount CONFIG 250))
                 "mock_client_secret_booking-1761474600000")
  /\ map (fun b => (Booking.id b, Booking.status b, Booking.date b, Booking.time b))
       (stored_bookings (App.storage (snd r)))
     = [("booking-1", "deposit_pending", Sample.day, "09:00");
        ("booking-1761474600000", "deposit_pending", Sample.day, "09:00")].
Proof. cbv zeta. repeat split; reflexivity. Qed.

(** C9, amended: for every submission the handler validates, in order, every
    required form field (present after trimming; an email field of basic
    local@domain.tld shape; a tel field of the loose phone shape with at least
    ten digits), then that a date is selected, then that a time is selected,
    and aborts exactly when one of these checks fails.  It does not check at
    submission that the service exists in the catalog, that the date is not
    blocked or that the time is still available: once the checks pass and a
    service is selected, the request is sent and the booking stored. *)
Theorem submission_validates_fields_date_time
  (cfg : Config) (env : Env) (st : App.State) (form : list App.Field)
  (pg : App.Page) :
  let r := App.handleBookingSubmit cfg env st form pg in
  (fst r = App.Aborted <-> Spec.first_failure st form <> None)
  /\ App.form_errors (snd r)
     = (App.form_errors pg ++ App.shown_errors (filter App.required form))%list
  /\ (fst r = App.Aborted ->
      App.toasts (snd r) = (App.toasts pg ++ App.missing_toasts st)%list)
  /\ (forall f, In f (filter App.required form) ->
        (App.field_valid f = true <->
         trim (App.fvalue f) <> ""
         /\ (App.ftype f = "email" -> test App.emailRegex (trim (App.fvalue f)) = true)
         /\ (App.ftype f = "tel" ->
             test App.phoneRegex (trim (App.fvalue f)) = true
             /\ (10 <= String.length
                         (string_filter is_digit (trim (App.fvalue f))))%nat)))
  /\ (forall service,
        Spec.first_failure st form = None ->
        App.selectedService st = Some service ->
        App.requests (snd r)
        = (App.requests pg ++ [App.post_booking (App.booking_data cfg st form service)])%list
        /\ stored_bookings (App.storage (snd r))
           = (stored_bookings (App.storage pg)
              ++ [App.new_booking cfg env st form service])%list).
Proof.
  cbv zeta. rewrite handleBookingSubmit_eq. cbv zeta.
  pose proof (first_failure_none st form) as Hff.
  destruct (App.submission_valid st form) eqn:Hv.
  - assert (Spec.first_failure st form = None) as Hnone by now apply Hff.
    split; [|split; [|split; [|split]]].
    + rewrite Hnone. split; [|intros H; now contradiction H].
      destruct (App.selectedService st); discriminate.
    + destruct (App.selectedService st); reflexivity.
    + destruct (App.selectedService st); discriminate.
    + intros f Hin. apply filter_In in Hin as [_ Hreq].
      exact (required_field_valid f Hreq).
    + intros service _ ->. split; reflexivity.
  - assert (Spec.first_failure st form <> None) as Hsome.
    { intros H. apply Hff in H. congruence. }
    split; [|split; [|split; [|split]]].
    + tauto.
    + reflexivity.
    + reflexivity.
    + intros f Hin. apply filter_In in Hin as [_ Hreq].
      exact (required_field_valid f Hreq).
    + intros service H. contradiction.
Qed.

Lemma submission_validates_fields_date_time_witness :
  let ls := mkStorage (Some [Sample.booking "booking-1" "deposit_pending"])
              (Some [Sample.day]) None in
  let r := App.handleBookingSubmit CONFIG Sample.env Sample.state Sample.form
             (Sample.blank_page ls) in
  App.requests (snd r)
  = [App.post_booking (App.booking_data CONFIG Sample.state Sample.form Sample.fulani)]
  /\ stored_bookings (App.storage (snd r))
     = [Sample.booking "booking-1" "deposit_pending";
        App.new_booking CONFIG Sample.env Sample.state Sample.form Sample.fulani].
Proof.
  cbv zeta.
  destruct (submission_validates_fields_date_time CONFIG Sample.env Sample.state
              Sample.form
              (Sample.blank_page
                 (mkStorage (Some [Sample.booking "booking-1" "deposit_pending"])
                    (Some [Sample.day]) None)))
    as (_ & _ & _ & _ & H).
  exact (H Sample.fulani eq_refl eq_refl).
Defined.

(* ================================================================= *)
(** ** More of the client: properties *)

Section ClockFacts.

Lemma all_clock_times_checked :
  forallb (fun h => forallb (fun m => Client.label_on_12h_clock (N.of_nat h) (N.of_nat m))
                      (seq 0 60)) (seq 0 24) = true.
Proof. vm_compute. reflexivity. Qed.

End ClockFacts.

(** X1: for every hour below 24 and minute below 60, [formatTimeLabel] turns
    HH:MM into the twelve-hour label: hour 0 reads 12, hours above 12 read
    hour - 12, the minutes keep two digits, and the period is AM below 12 and
    PM from 12 on. *)
Theorem formatTimeLabel_twelve_hour_clock (h m : N) :
  (h < 24)%N -> (m < 60)%N ->
  App.formatTimeLabel (Client.clock_time h m)
  = Ret (toString ((h + 11) mod 12 + 1) ++ ":" ++ padStart2 (toString m)
         ++ " " ++ (if (h <? 12)%N then "AM" else "PM")).
Proof.
  intros Hh Hm.
  pose proof all_clock_times_checked as H.
  rewrite forallb_forall in H.
  specialize (H (N.to_nat h)). rewrite forallb_forall in H.
  assert (In (N.to_nat h) (seq 0 24)) as Hin by (apply in_seq; lia).
  specialize (H Hin (N.to_nat m)).
  assert (In (N.to_nat m) (seq 0 60)) as Hin' by (apply in_seq; lia).
  specialize (H Hin'). rewrite !N2Nat.id in H.
  unfold Client.label_on_12h_clock in H.
  destruct (App.formatTimeLabel (Client.clock_time h m)) as [label|e]; [|discriminate].
  apply String.eqb_eq in H. now rewrite H.
Qed.

Lemma formatTimeLabel_twelve_hour_clock_witness :
  App.formatTimeLabel "00:05" = Ret "12:05 AM"
  /\ App.formatTimeLabel "12:30" = Ret "12:30 PM"
  /\ App.formatTimeLabel "23:59" = Ret "11:59 PM".
Proof.
  split; [|split].
  - exact (formatTimeLabel_twelve_hour_clock 0 5 eq_refl eq_refl).
  - exact (formatTimeLabel_twelve_hour_clock 12 30 eq_refl eq_refl).
  - exact (formatTimeLabel_twelve_hour_clock 23 59 eq_refl eq_refl).
Defined.

Section IdentifierFacts.

Lemma toString_inj (n m : N) : toString n = toString m -> n = m.
Proof.
  unfold toString. intros H.
  apply DecimalN.Unsigned.to_uint_inj.
  assert (forall k, N.to_uint k <> Decimal.Nil) as Hnn.
  { intros [|p]; [discriminate | apply DecimalPos.Unsigned.to_uint_nonnil]. }
  apply (f_equal NilZero.uint_of_string) in H.
  rewrite !NilZero.usu in H by apply Hnn. now injection H.
Qed.

Lemma uint_digits (d : Decimal.uint) :
  string_forallb is_digit (NilEmpty.string_of_uint d) = true.
Proof. induction d; cbn; auto. Qed.

Lemma toString_digits (n : N) : string_forallb is_digit (toString n) = true.
Proof.
  unfold toString, NilZero.string_of_uint.
  destruct (N.to_uint n) eqn:E; try reflexivity; rewrite <- E; apply uint_digits.
Qed.

Lemma digits_plain (s : string) :
  string_forallb is_digit s = true -> Admin.plain_id s = true.
Proof.
  unfold Admin.plain_id. induction s as [|c r IH]; cbn; [reflexivity|].
  intros H. apply andb_true_iff in H as [Hc Hr]. rewrite (IH Hr), andb_true_r.
  destruct (Ascii.eqb_spec c "/") as [->|]; [discriminate | reflexivity].
Qed.

Lemma booking_id_plain (n : N) : Admin.plain_id ("booking-" ++ toString n) = true.
Proof.
  assert (forall s, Admin.plain_id s = true -> Admin.plain_id ("booking-" ++ s) = true)
    as H by (intros s Hs; unfold Admin.plain_id in *; cbn; exact Hs).
  apply H, digits_plain, toString_digits.
Qed.

(** The first booking with an identifier takes the update; what stands behind
    it is left alone. *)
Lemma set_local_status_behind (id s : string) (l : list Booking.t) (b1 b2 : Booking.t) :
  Booking.id b1 = id ->
  exists l', Admin.set_local_status id s (l ++ [b1; b2]) = (l' ++ [b2])%list.
Proof.
  intros Hid. induction l as [|b l (l' & IH)]; cbn.
  - rewrite Hid, String.eqb_refl. now exists [Booking.with_status b1 s].
  - destruct (Booking.id b =? id).
    + exists (Booking.with_status b s :: l ++ [b1])%list.
      cbn. now rewrite <- app_assoc.
    + exists (b :: l'). cbn. now rewrite IH.
Qed.

End IdentifierFacts.

(** X2: two bookings created through the mock gateway carry the same
    identifier exactly when they were created at the same clock value; the
    gateway does not check.  When they do, a status update by that identifier
    never reaches the later booking. *)
Theorem booking_ids_follow_the_clock
  (env1 env2 : Env) (d1 d2 : BookingData.t) (ls : Storage)
  (newStatus : string) (local : list Booking.t) (toasts : list App.Toast)
  (recent_first : list Booking.t -> list Booking.t) (panel : string)
  (drawer : bool) :
  let ls1 := snd (App.mockApiRequest env1 (App.post_booking d1) ls) in
  let ls2 := snd (App.mockApiRequest env2 (App.post_booking d2) ls1) in
  exists b1 b2,
    stored_bookings ls2 = (stored_bookings ls ++ [b1; b2])%list
    /\ Booking.data b1 = d1 /\ Booking.data b2 = d2
    /\ (Booking.id b1 = Booking.id b2 <-> now env1 = now env2)
    /\ (now env1 = now env2 ->
        exists l',
          stored_bookings
            (Admin.storage
               (Admin.updateBookingStatus recent_first (Booking.id b2) newStatus
                  (Admin.mkPage panel local toasts drawer ls2)))
          = (l' ++ [b2])%list).
Proof.
  cbv zeta. rewrite !post_booking_effect. cbv zeta.
  cbn [snd stored_bookings set_bookings sb_bookings].
  eexists. eexists. split.
  { rewrite <- app_assoc. reflexivity. }
  split; [reflexivity|]. split; [reflexivity|]. split.
  - cbn [Booking.id]. split.
    + intros H. apply toString_inj.
      assert (forall a b, "booking-" ++ a = "booking-" ++ b -> a = b) as Hinj
        by (intros a b E; now injection E).
      now apply Hinj.
    + intros ->. reflexivity.
  - intros Hnow. cbn [Booking.id].
    unfold Admin.updateBookingStatus. cbn [Admin.storage].
    rewrite (mock_patch_booking_eq _ _ _ (booking_id_plain (now env2))).
    cbn [stored_bookings set_bookings sb_bookings].
    destruct (set_local_status_behind ("booking-" ++ toString (now env2)) newStatus
                (stored_bookings ls)
                (Booking.mk ("booking-" ++ toString (now env1)) "deposit_pending"
                   (nowISO env1) d1)
                (Booking.mk ("booking-" ++ toString (now env2)) "deposit_pending"
                   (nowISO env2) d2)) as [l' Hl'].
    { cbn. now rewrite Hnow. }
    rewrite <- app_assoc. cbn [app].
    destruct (List.find _ _) eqn:Ef; cbn.
    + exists l'. exact Hl'.
    + exists (stored_bookings ls ++
              [Booking.mk ("booking-" ++ toString (now env1)) "deposit_pending"
                 (nowISO env1) d1])%list.
      rewrite <- app_assoc. reflexivity.
Qed.

Lemma booking_ids_follow_the_clock_witness :
  let ls2 :=
    snd (App.mockApiRequest Sample.env (App.post_booking Sample.at_ten)
           (snd (App.mockApiRequest Sample.env (App.post_booking Sample.at_nine)
                   Sample.no_storage))) in
  map Booking.id (stored_bookings ls2)
  = ["booking-1761474600000"; "booking-1761474600000"]
  /\ exists l',
       stored_bookings
         (Admin.storage
            (Admin.updateBookingStatus (@rev Booking.t) "booking-1761474600000"
               "cancelled" (Admin.mkPage "bookings" [] [] true ls2)))
       = (l' ++ [Booking.mk "booking-1761474600000" "deposit_pending"
                   "2025-10-26T10:30:00.000Z" Sample.at_ten])%list.
Proof.
  cbv zeta. split; [reflexivity|].
  destruct (booking_ids_follow_the_clock Sample.env Sample.env Sample.at_nine
              Sample.at_ten Sample.no_storage "cancelled" [] [] (@rev Booking.t)
              "bookings" true)
    as (b1 & b2 & Hst & _ & _ & _ & Hup).
  injection Hst as <- <-.
  exact (Hup eq_refl).
Defined.

Section MoreStoreFacts.

Lemma client_request_blackout (env : Env) (req : App.Request) (ls : Storage)
  (dates : list string) :
  sb_blackout_dates ls = Some dates ->
  sb_blackout_dates (snd (App.mockApiRequest env req ls)) = Some dates.
Proof.
  intros H. unfold App.mockApiRequest.
  destruct (startsWith (App.endpoint req) "/api/availability" && _).
  - destruct (App.search_param_date (App.endpoint req)) as [[|c r]|];
      try exact H; unfold App.getBlackoutDates; rewrite H; exact H.
  - destruct ((App.endpoint req =? "/api/bookings") && _); [|exact H].
    destruct (App.body req); exact H.
Qed.

Lemma step_keeps_blackout (ls ls' : Storage) (dates : list string) :
  step ls ls' -> sb_blackout_dates ls = Some dates ->
  sb_blackout_dates ls' = Some dates.
Proof.
  intros [env req ls0 | endpoint status ls0 | env date notes ls0] H.
  - now apply client_request_blackout.
  - unfold Admin.mock_patch_booking.
    destruct (startsWith endpoint "/api/bookings/"); [|exact H].
    destruct (Admin.findIndex _ _) as [i|]; [|exact H].
    destruct (nth_error _ i); exact H.
  - exact H.
Qed.

Lemma set_nth_records (l : list Booking.t) (i : nat) (old : Booking.t) (s : string) :
  nth_error l i = Some old ->
  map Dashboard.booking_record (Admin.set_nth i (Booking.with_status old s) l)
  = map Dashboard.booking_record l.
Proof.
  revert i. induction l as [|b l IH]; intros [|i] H; cbn in *; try discriminate.
  - injection H as ->. reflexivity.
  - f_equal. now apply IH.
Qed.

Lemma step_grows_records (ls ls' : Storage) :
  step ls ls' ->
  exists extra,
    map Dashboard.booking_record (stored_bookings ls')
    = (map Dashboard.booking_record (stored_bookings ls) ++ extra)%list.
Proof.
  intros [env req ls0 | endpoint status ls0 | env date notes ls0].
  - destruct (client_request_bookings env req ls0) as [-> | [b ->]].
    + exists []. now rewrite app_nil_r.
    + exists [Dashboard.booking_record b]. now rewrite map_app.
  - exists []. rewrite app_nil_r. unfold Admin.mock_patch_booking.
    destruct (startsWith endpoint "/api/bookings/"); [|reflexivity].
    destruct (Admin.findIndex _ _) as [i|]; [|reflexivity].
    destruct (nth_error (stored_bookings ls0) i) as [old|] eqn:E; [|reflexivity].
    cbn. now apply set_nth_records.
  - exists []. now rewrite app_nil_r.
Qed.

Lemma write_keeps_blackout (ls ls' : Storage) (dates : list string) :
  write ls ls' -> sb_blackout_dates ls = Some dates ->
  sb_blackout_dates ls' = Some dates.
Proof.
  intros [ls0 ls1 Hs | env ls0 | confirmed blockId blocks ls0] H.
  - now apply (step_keeps_blackout ls0).
  - unfold App.getBlackoutDates. now rewrite H.
  - unfold Dashboard.deleteBlock. destruct confirmed; exact H.
Qed.

Lemma write_grows_records (ls ls' : Storage) :
  write ls ls' ->
  exists extra,
    map Dashboard.booking_record (stored_bookings ls')
    = (map Dashboard.booking_record (stored_bookings ls) ++ extra)%list.
Proof.
  intros [ls0 ls1 Hs | env ls0 | confirmed blockId blocks ls0].
  - now apply step_grows_records.
  - exists []. rewrite app_nil_r. unfold App.getBlackoutDates.
    now destruct (sb_blackout_dates ls0).
  - exists []. rewrite app_nil_r. unfold Dashboard.deleteBlock.
    now destruct confirmed.
Qed.

End MoreStoreFacts.

(** X3: once the blackout dates are drawn and stored, no write of either
    script to the booking keys of the store (gateway requests of the client,
    status updates, new and removed blocks, later draws) changes them: every
    later [getBlackoutDates], whatever its random draw would be, returns the
    first list and leaves the store alone. *)
Theorem blackout_dates_never_change
  (env env' : Env) (ls ls' : Storage) :
  history (snd (App.getBlackoutDates env ls)) ls' ->
  App.getBlackoutDates env' ls' = (fst (App.getBlackoutDates env ls), ls').
Proof.
  intros Hr.
  assert (sb_blackout_dates (snd (App.getBlackoutDates env ls))
          = Some (fst (App.getBlackoutDates env ls))) as H0.
  { unfold App.getBlackoutDates. destruct (sb_blackout_dates ls) eqn:E; cbn; auto. }
  assert (sb_blackout_dates ls' = Some (fst (App.getBlackoutDates env ls))) as H.
  { induction Hr as [|ls0 ls1 ls2 _ IH Hs]; [exact H0|].
    eapply write_keeps_blackout; eauto. }
  unfold App.getBlackoutDates at 1. rewrite H. reflexivity.
Qed.

Lemma blackout_dates_never_change_witness :
  let other := mkEnv 5 "later" ["2026-01-01"] in
  let ls1 := snd (App.getBlackoutDates Sample.env Sample.no_storage) in
  let ls2 := snd (App.mockApiRequest other (App.post_booking Sample.at_nine) ls1) in
  App.getBlackoutDates other ls2
  = (["2025-12-01"; "2025-12-08"; "2025-12-20"], ls2).
Proof.
  cbv zeta.
  apply (blackout_dates_never_change Sample.env (mkEnv 5 "later" ["2026-01-01"])
           Sample.no_storage).
  eapply history_write; [apply history_nil | apply write_step, step_client].
Defined.

(** X4: no write of either script to the booking keys of the store deletes a
    stored booking or alters its identifier, creation time or request data;
    after any sequence of such writes the stored bookings are the old ones,
    in order, up to status, followed by the new ones. *)
Theorem bookings_are_never_removed (ls ls' : Storage) :
  history ls ls' ->
  exists extra,
    map Dashboard.booking_record (stored_bookings ls')
    = (map Dashboard.booking_record (stored_bookings ls) ++ extra)%list.
Proof.
  induction 1 as [ls | ls ls1 ls2 _ [extra IH] Hs].
  - exists []. now rewrite app_nil_r.
  - destruct (write_grows_records _ _ Hs) as [more Hm].
    exists (extra ++ more)%list. now rewrite Hm, IH, app_assoc.
Qed.

Lemma bookings_are_never_removed_witness :
  let ls := mkStorage (Some [Sample.booking "booking-1" "deposit_pending"]) None None in
  let ls1 := snd (Admin.mock_patch_booking "/api/bookings/booking-1" "cancelled" ls) in
  exists extra,
    map Dashboard.booking_record (stored_bookings ls1)
    = (("booking-1", "2025-10-26T10:30:00.000Z", Sample.at_nine) :: extra).
Proof.
  cbv zeta.
  apply (bookings_are_never_removed
           (mkStorage (Some [Sample.booking "booking-1" "deposit_pending"]) None None)).
  eapply history_write; [apply history_nil | apply write_step, step_patch].
Defined.

Section ModalFacts.

(** [selectDate] on a plain date: the dropdown gets exactly the available
    slots of the date, in order; one request is logged and no booking
    changes. *)
Lemma selectDate_plain (env : Env) (d : string) (st : App.State) (pg : App.Page) :
  Client.plain_date d = true ->
  exists opts pg',
    Client.selectDate env d st pg
    = (App.mkState (App.catalog st) (App.selectedService st) (Some d) None,
       pg', Some opts)
    /\ map App.value opts
       = map Slot.time
           (filter Slot.available
              (map (App.grid_slot (App.booked_times (App.storage pg) d)) App.day_grid))
    /\ sb_bookings (App.storage pg') = sb_bookings (App.storage pg)
    /\ App.toasts pg' = App.toasts pg.
Proof.
  intros Hd. destruct (search_param_plain_date d Hd) as [Hq Hne].
  unfold Client.selectDate, App.apiRequest, App.mockApiRequest.
  cbn [App.endpoint App.method App.body].
  assert (startsWith ("/api/availability?date=" ++ d) "/api/availability" = true) as ->
    by reflexivity.
  rewrite Hq. cbn [andb String.eqb Ascii.eqb Bool.eqb].
  destruct d as [|c r]; [contradiction|].
  rewrite generateTimeSlots_eq. cbn [bind fst snd].
  set (st' := App.mkState (App.catalog st) (App.selectedService st)
                (Some (String c r)) None).
  set (slots := map _ App.day_grid).
  unfold App.populateTimeSlots.
  destruct (time_options_keep_available_slots st' slots) as (opts & -> & Hm).
  eexists. eexists. split; [reflexivity|].
  cbn [App.storage App.toasts Client.renderCalendar Client.set_storage].
  split; [|split; [apply getBlackoutDates_bookings | reflexivity]].
  rewrite Hm. subst slots.
  unfold App.booked_times, stored_bookings, Client.renderCalendar, Client.set_storage.
  cbn [App.storage]. now rewrite getBlackoutDates_bookings.
Qed.

End ModalFacts.

Section ModalStateFacts.

Lemma selectDate_general (env : Env) (d : string) (st : App.State) (pg : App.Page) :
  fst (fst (Client.selectDate env d st pg))
  = App.mkState (App.catalog st) (App.selectedService st) (Some d) None
  /\ sb_bookings (App.storage (snd (fst (Client.selectDate env d st pg))))
     = sb_bookings (App.storage pg).
Proof.
  unfold Client.selectDate, App.apiRequest.
  destruct (App.mockApiRequest env _ _) as [res ls'] eqn:E.
  assert (sb_bookings ls' = sb_bookings (App.storage pg)) as Hb.
  { apply (f_equal snd) in E. cbn [snd] in E. subst ls'.
    unfold App.mockApiRequest. cbn [App.endpoint App.method App.body].
    assert (startsWith ("/api/availability?date=" ++ d) "/api/availability" = true) as ->
      by reflexivity.
    cbn [andb String.eqb Ascii.eqb Bool.eqb].
    unfold Client.renderCalendar, Client.set_storage. cbn [App.storage].
    destruct (App.search_param_date _) as [[|c r]|]; cbn [snd];
      try (destruct (App.getBlackoutDates env (snd (App.getBlackoutDates env (App.storage pg))))
             as [dates ls2] eqn:E2; apply (f_equal snd) in E2; cbn [snd] in *; subst ls2);
      rewrite ?getBlackoutDates_bookings; reflexivity. }
  destruct res as [[date slots | dates | a b c e f]|err]; cbn [fst snd];
    try (split; [reflexivity | exact Hb]).
  unfold App.populateTimeSlots.
  destruct (App.time_options _ slots); cbn [fst snd]; split; try reflexivity; exact Hb.
Qed.

(** A [change] event of the time dropdown leaves the catalog and the
    selected service. *)
Lemma on_time_change_keeps_service (st : App.State) (chosen : string) (pg : App.Page) :
  App.catalog (fst (App.on_time_change st chosen pg)) = App.catalog st
  /\ App.selectedService (fst (App.on_time_change st chosen pg))
     = App.selectedService st.
Proof.
  unfold App.on_time_change. generalize (App.time_listeners pg). intros n.
  induction n as [|n [IHc IHs]]; [split; reflexivity|].
  rewrite Nat.iter_succ.
  destruct (Nat.iter n (App.time_listener chosen) (st, pg)) as [s1 p1].
  destruct (time_listener_records_choice s1 chosen p1) as (pg' & -> & _).
  cbn [fst App.catalog App.selectedService] in *. now split.
Qed.

Lemma missing_time_aborts (cfg : Config) (env : Env) (st : App.State)
  (form : list App.Field) (pg : App.Page) :
  App.selectedTime st = None ->
  let r := App.handleBookingSubmit cfg env st form pg in
  fst r = App.Aborted
  /\ App.requests (snd r) = App.requests pg
  /\ App.storage (snd r) = App.storage pg
  /\ In (App.mkToast "Please select a time" "error") (App.toasts (snd r)).
Proof.
  intros Ht. cbv zeta. rewrite handleBookingSubmit_eq. cbv zeta.
  unfold App.submission_valid. rewrite Ht. cbn [App.selected]. rewrite andb_false_r.
  cbn [fst snd App.validated_page App.requests App.storage App.toasts].
  repeat (split; [reflexivity|]).
  apply in_or_app. right. unfold App.missing_toasts. rewrite Ht. cbn [App.selected].
  apply in_or_app. right. now left.
Qed.

End ModalStateFacts.

(** X5: selecting a date always discards the time chosen before; until a time
    is chosen again, a submission aborts with the toast asking for a time,
    sends nothing and stores nothing. *)
Theorem selectDate_discards_chosen_time
  (cfg : Config) (env env' : Env) (d : string) (st : App.State)
  (form : list App.Field) (pg : App.Page) :
  let st' := fst (fst (Client.selectDate env d st pg)) in
  let pg' := snd (fst (Client.selectDate env d st pg)) in
  let r := App.handleBookingSubmit cfg env' st' form pg' in
  App.selectedDate st' = Some d
  /\ App.selectedTime st' = None
  /\ App.selectedService st' = App.selectedService st
  /\ fst r = App.Aborted
  /\ App.requests (snd r) = App.requests pg'
  /\ sb_bookings (App.storage (snd r)) = sb_bookings (App.storage pg)
  /\ In (App.mkToast "Please select a time" "error") (App.toasts (snd r)).
Proof.
  cbv zeta. destruct (selectDate_general env d st pg) as [Hst Hb].
  rewrite Hst. cbn [App.selectedDate App.selectedTime App.selectedService].
  repeat (split; [reflexivity|]).
  destruct (missing_time_aborts cfg env'
              (App.mkState (App.catalog st) (App.selectedService st) (Some d) None)
              form (snd (fst (Client.selectDate env d st pg))) eq_refl)
    as (Ha & Hr & Hs & Ht).
  repeat split; auto. now rewrite Hs.
Qed.

(** X6: closing the modal clears service, date and time; the deposit summary
    is hidden and a submission from the cleared state aborts without any
    request. *)
Theorem closeBookingModal_clears_selection
  (cfg : Config) (env : Env) (st : App.State) (form : list App.Field)
  (pg : App.Page) :
  let st' := Client.closeBookingModal st in
  let r := App.handleBookingSubmit cfg env st' form pg in
  App.catalog st' = App.catalog st
  /\ Client.updateDepositCalculation cfg st' = None
  /\ fst r = App.Aborted
  /\ App.requests (snd r) = App.requests pg
  /\ App.storage (snd r) = App.storage pg
  /\ App.toasts (snd r)
     = (App.toasts pg ++ [App.mkToast "Please select a date" "error";
                          App.mkToast "Please select a time" "error"])%list.
Proof.
  cbv zeta. rewrite handleBookingSubmit_eq. cbv zeta.
  unfold App.submission_valid, Client.closeBookingModal.
  cbn [App.selectedDate App.selectedTime App.selected]. rewrite andb_false_r.
  repeat split.
Qed.

(** X7: through every move of the booking modal (opening it for a service,
    changing the service dropdown, closing, selecting a date, choosing a
    time, submitting) the catalog stays the same and the selected service,
    if any, is an entry of the catalog. *)
Theorem selected_service_is_from_catalog
  (st st' : App.State) (pg pg' : App.Page) :
  Client.service_from_catalog st ->
  Client.modal_run (st, pg) (st', pg') ->
  App.catalog st' = App.catalog st /\ Client.service_from_catalog st'.
Proof.
  intros H0 Hrun.
  remember (st, pg) as x eqn:Ex. remember (st', pg') as y eqn:Ey.
  revert st' pg' Ey. induction Hrun as [x | x [st1 pg1] z Hrun IH Hstep];
    intros st' pg' Ey; subst.
  - injection Ey as <- <-. auto.
  - destruct (IH eq_refl st1 pg1 eq_refl) as [Hc Hs]. clear IH Hrun.
    assert (forall env v s p,
               Client.service_from_catalog s ->
               App.catalog (fst (Client.updateServiceDetails env v s p)) = App.catalog s
               /\ Client.service_from_catalog (fst (Client.updateServiceDetails env v s p)))
      as Hupd.
    { intros env v s p Hs'. unfold Client.updateServiceDetails.
      destruct (v =? ""); [cbn; auto|].
      destruct (Client.find_service (App.catalog s) v) as [service|] eqn:Ef; [|auto].
      destruct (Client.notes_list (Service.notes service));
        cbn; (split; [reflexivity|]); unfold Client.service_from_catalog; cbn;
        apply List.find_some in Ef; tauto. }
    rewrite <- Hc. inversion Hstep as
      [env sid s p E1 E2 | env v s p E1 E2 | s p E1 E2 | env d s p E1 E2
      | chosen s p E1 E2 | cfg env form s p E1 E2]; subst.
    + unfold Client.openBookingModal in E2.
      destruct (App.selected sid); [|injection E2 as <- <-; auto].
      destruct (Client.find_service (App.catalog st1) (App.string_of sid))
        as [service|] eqn:Ef; [|injection E2 as <- <-; auto].
      apply (f_equal fst) in E2. cbn [fst] in E2. subst st'.
      apply List.find_some in Ef as [Hin _].
      apply (Hupd env _ (Client.set_service st1 (Some service)) pg1).
      exact Hin.
    + apply (f_equal fst) in E2. cbn [fst] in E2. subst st'. now apply Hupd.
    + unfold Client.closeBookingModal, Client.service_from_catalog. cbn. auto.
    + destruct (selectDate_general env d st1 pg1) as [Hst _].
      apply (f_equal fst) in E2. cbn [fst] in E2. rewrite <- E2, Hst.
      unfold Client.service_from_catalog. cbn. auto.
    + destruct (on_time_change_keeps_service st1 chosen pg1) as [Hc' Hs'].
      apply (f_equal fst) in E2. cbn [fst] in E2. subst st'.
      split; [exact Hc'|].
      unfold Client.service_from_catalog in *. now rewrite Hs', Hc'.
    + auto.
Qed.

Lemma selected_service_is_from_catalog_witness :
  let st0 := App.mkState [Sample.fulani] None None None in
  let x1 := Client.openBookingModal Sample.env (Some "smedium-bohemian-fulani") st0
              (Sample.blank_page Sample.no_storage) in
  App.selectedService (fst x1) = Some Sample.fulani
  /\ Client.service_from_catalog (fst x1).
Proof.
  cbv zeta. split; [reflexivity|].
  refine (proj2 (selected_service_is_from_catalog
                   (App.mkState [Sample.fulani] None None None) _
                   (Sample.blank_page Sample.no_storage) _ I _)).
  eapply Client.run_step; [apply Client.run_nil|].
  exact (Client.step_open Sample.env (Some "smedium-bohemian-fulani") _ _).
Defined.

(** X8: after a confirmed submission for a plain date and a time, selecting
    that date again, in whatever state the modal is, fills the dropdown with
    options among which the booked time is absent; every option offered is
    one of the twelve hourly times. *)
Theorem booked_time_leaves_dropdown
  (cfg : Config) (env env' : Env) (st st2 : App.State) (form : list App.Field)
  (pg : App.Page) (service : Service.t) (d t : string) :
  App.selectedService st = Some service ->
  App.selectedDate st = Some d ->
  App.selectedTime st = Some t ->
  Client.plain_date d = true ->
  App.submission_valid st form = true ->
  let pg1 := snd (App.handleBookingSubmit cfg env st form pg) in
  exists opts,
    snd (Client.selectDate env' d st2 pg1) = Some opts
    /\ ~ In t (map App.value opts)
    /\ forall o, In o opts -> In (App.value o) (map fst App.day_grid).
Proof.
  intros Hs Hd Ht Hplain Hv. cbv zeta.
  destruct (selectDate_plain env' d st2
              (snd (App.handleBookingSubmit cfg env st form pg)) Hplain)
    as (opts & pg' & Hsel & Hm & _ & _).
  exists opts. rewrite Hsel. split; [reflexivity|].
  set (ls1 := App.storage (snd (App.handleBookingSubmit cfg env st form pg))) in *.
  assert (In (d, t) (map Spec.slot_key (stored_bookings ls1))) as Hkey.
  { subst ls1. rewrite handleBookingSubmit_eq, Hv, Hs. cbv zeta.
    cbn [snd App.storage stored_bookings set_bookings sb_bookings].
    rewrite map_app. apply in_or_app. right. left.
    unfold Spec.slot_key, Booking.date, Booking.time. cbn. now rewrite Hd, Ht. }
  split.
  - rewrite Hm. intros Hin. apply in_map_iff in Hin as (s & Hts & Hin).
    apply filter_In in Hin as [Hin Hav].
    rewrite (occupied_slot_unavailable ls1 d t s Hkey Hin Hts) in Hav. discriminate.
  - intros o Ho. apply (in_map App.value) in Ho. rewrite Hm in Ho.
    apply in_map_iff in Ho as (s & <- & Hin).
    apply filter_In in Hin as [Hin _].
    apply in_map_iff in Hin as (e & <- & He).
    apply (in_map fst) in He. exact He.
Qed.

Lemma booked_time_leaves_dropdown_witness :
  let pg1 := snd (App.handleBookingSubmit CONFIG Sample.env Sample.state Sample.form
                    (Sample.blank_page Sample.no_storage)) in
  exists opts,
    snd (Client.selectDate Sample.env Sample.day (Client.closeBookingModal Sample.state) pg1)
    = Some opts
    /\ ~ In "09:00" (map App.value opts).
Proof.
  cbv zeta.
  destruct (booked_time_leaves_dropdown CONFIG Sample.env Sample.env Sample.state
              (Client.closeBookingModal Sample.state) Sample.form
              (Sample.blank_page Sample.no_storage) Sample.fulani Sample.day "09:00"
              eq_refl eq_refl eq_refl eq_refl eq_refl)
    as (opts & H1 & H2 & _).
  exists opts. split; assumption.
Defined.

(** X9: with a service selected, the deposit summary shows the price as
    total, as deposit the amount a submission computes and sends, Math.max
    of the binary64 product price * pct and min, and as remaining balance
    the binary64 difference of the two; when neither the product nor the
    minimum is NaN the deposit shown is not below the minimum. *)
Theorem deposit_summary_matches_submission
  (cfg : Config) (st : App.State) (form : list App.Field) (service : Service.t) :
  App.selectedService st = Some service ->
  exists summary,
    Client.updateDepositCalculation cfg st = Some summary
    /\ Client.total summary = Service.price service
    /\ Client.deposit summary = App.depositAmount cfg (Service.price service)
    /\ BookingData.amountDue (App.booking_data cfg st form service)
       = JSON_number (Client.total summary)
    /\ BookingData.depositAmount (App.booking_data cfg st form service)
       = JSON_number (Client.deposit summary)
    /\ Client.remaining summary
       = PrimFloat.sub (Client.total summary) (Client.deposit summary)
    /\ (is_nan (PrimFloat.mul (Service.price service) (DEPOSIT_PERCENT cfg)) = false ->
        is_nan (DEPOSIT_MIN cfg) = false ->
        PrimFloat.leb (DEPOSIT_MIN cfg) (Client.deposit summary) = true
        /\ PrimFloat.leb (PrimFloat.mul (Service.price service) (DEPOSIT_PERCENT cfg))
             (Client.deposit summary) = true).
Proof.
  intros Hs. unfold Client.updateDepositCalculation. rewrite Hs.
  eexists. split; [reflexivity|]. cbn [Client.total Client.deposit Client.remaining].
  repeat (split; [reflexivity|]).
  intros Hshare Hmin.
  destruct (Math_max_spec _ _ Hshare Hmin) as (_ & H1 & H2). now split.
Qed.

Lemma deposit_summary_matches_submission_witness :
  let cheap := Service.mk "retouch" "Retouch" 10%float JNull in
  let st := App.mkState [cheap] (Some cheap) None None in
  exists summary,
    Client.updateDepositCalculation CONFIG st = Some summary
    /\ Client.deposit summary = 15%float
    /\ Client.remaining summary = (-5)%float.
Proof.
  cbv zeta.
  destruct (deposit_summary_matches_submission CONFIG
              (App.mkState [Service.mk "retouch" "Retouch" 10%float JNull]
                 (Some (Service.mk "retouch" "Retouch" 10%float JNull)) None None)
              [] (Service.mk "retouch" "Retouch" 10%float JNull) eq_refl)
    as (summary & H1 & H2 & H3 & _ & _ & H6 & _).
  exists summary. split; [exact H1|]. split.
  - rewrite H3. vm_compute. reflexivity.
  - rewrite H6, H2, H3. vm_compute. reflexivity.
Defined.

(* ================================================================= *)
(** ** Field patterns, contact form and catalog: properties *)

Section PatternFacts.

Lemma in_lang_seq (r1 r2 : regex) (s : string) :
  in_lang (Seq r1 r2) s <->
  exists s1 s2, s = s1 ++ s2 /\ in_lang r1 s1 /\ in_lang r2 s2.
Proof.
  split.
  - intros H. inversion H; subst. eauto.
  - intros (s1 & s2 & -> & H1 & H2). now constructor.
Qed.

Lemma in_lang_cls (p : ascii -> bool) (s : string) :
  in_lang (Cls p) s <-> exists c, s = String c "" /\ p c = true.
Proof.
  split.
  - intros H. inversion H; subst. eauto.
  - intros (c & -> & Hc). now constructor.
Qed.

Lemma in_lang_chr (c : ascii) (s : string) :
  in_lang (Chr c) s <-> s = String c "".
Proof.
  unfold Chr. rewrite in_lang_cls. split.
  - intros (c' & -> & E). apply Ascii.eqb_eq in E. now subst.
  - intros ->. exists c. split; [reflexivity | apply Ascii.eqb_refl].
Qed.

Lemma in_lang_cls_star (p : ascii -> bool) (s : string) :
  in_lang (Star (Cls p)) s <-> string_forallb p s = true.
Proof.
  split.
  - intros H. remember (Star (Cls p)) as r eqn:Er.
    induction H; try discriminate; [reflexivity|].
    injection Er as ->. apply in_lang_cls in H as (c & -> & Hc). cbn.
    rewrite Hc. now apply IHin_lang2.
  - induction s as [|c r IH]; cbn; intros H; [constructor|].
    apply andb_true_iff in H as [Hc Hr].
    change (String c r) with (String c "" ++ r).
    constructor; [now constructor | auto].
Qed.

Lemma in_lang_cls_plus (p : ascii -> bool) (s : string) :
  in_lang (Plus (Cls p)) s <-> s <> "" /\ string_forallb p s = true.
Proof.
  unfold Plus. rewrite in_lang_seq. split.
  - intros (s1 & s2 & -> & H1 & H2).
    apply in_lang_cls in H1 as (c & -> & Hc). apply in_lang_cls_star in H2.
    cbn. rewrite Hc, H2. split; [discriminate | reflexivity].
  - intros [Hne H]. destruct s as [|c r]; [contradiction|].
    cbn in H. apply andb_true_iff in H as [Hc Hr].
    exists (String c ""), r. split; [reflexivity|].
    split; [apply in_lang_cls; eauto | now apply in_lang_cls_star].
Qed.

End PatternFacts.

(** X10: the email pattern of [validateField] accepts exactly the texts
    local@domain.tld whose three parts are non-empty and free of white space
    and of the at sign. *)
Theorem emailRegex_shape (s : string) :
  test App.emailRegex s = true <->
  exists a b c,
    s = a ++ "@" ++ b ++ "." ++ c
    /\ (a <> "" /\ string_forallb App.email_char a = true)
    /\ (b <> "" /\ string_forallb App.email_char b = true)
    /\ (c <> "" /\ string_forallb App.email_char c = true).
Proof.
  rewrite test_in_lang. unfold App.emailRegex. split.
  - intros H.
    apply in_lang_seq in H as (a & r1 & -> & Ha & H).
    apply in_lang_seq in H as (at_ & r2 & -> & Hat & H).
    apply in_lang_seq in H as (b & r3 & -> & Hb & H).
    apply in_lang_seq in H as (dot & c & -> & Hdot & Hc).
    apply in_lang_chr in Hat as ->. apply in_lang_chr in Hdot as ->.
    apply in_lang_cls_plus in Ha, Hb, Hc.
    exists a, b, c. auto.
  - intros (a & b & c & -> & Ha & Hb & Hc).
    apply in_lang_cls_plus in Ha, Hb, Hc.
    apply in_lang_seq. exists a, ("@" ++ b ++ "." ++ c). split; [reflexivity|].
    split; [exact Ha|].
    apply in_lang_seq. exists "@", (b ++ "." ++ c). split; [reflexivity|].
    split; [now apply in_lang_chr|].
    apply in_lang_seq. exists b, ("." ++ c). split; [reflexivity|].
    split; [exact Hb|].
    apply in_lang_seq. exists ".", c. split; [reflexivity|].
    split; [now apply in_lang_chr | exact Hc].
Qed.

(** X11: the phone pattern of [validateField] accepts exactly an optional
    leading plus sign followed by one or more digits, white space, dashes and
    parentheses. *)
Theorem phoneRegex_shape (s : string) :
  test App.phoneRegex s = true <->
  exists body,
    (s = body \/ s = "+" ++ body)
    /\ body <> "" /\ string_forallb App.phone_char body = true.
Proof.
  rewrite test_in_lang. unfold App.phoneRegex, Opt. split.
  - intros H. apply in_lang_seq in H as (sign & body & -> & Hs & Hb).
    apply in_lang_cls_plus in Hb. exists body. split; [|exact Hb].
    inversion Hs; subst.
    + match goal with H : in_lang Eps _ |- _ => inversion H; subst end. now left.
    + match goal with H : in_lang (Chr _) _ |- _ => apply in_lang_chr in H; subst end.
      now right.
  - intros (body & Hs & Hb). apply in_lang_cls_plus in Hb.
    apply in_lang_seq. destruct Hs as [-> | ->].
    + exists "", body. split; [reflexivity|]. split; [|exact Hb].
      apply lang_alt_l. constructor.
    + exists "+", body. split; [reflexivity|]. split; [|exact Hb].
      apply lang_alt_r. now apply in_lang_chr.
Qed.

(** X12: the contact form never reaches the gateway: whatever is submitted,
    no request is sent and [localStorage] is untouched; the message is
    acknowledged with the success toast exactly when every required field
    validates, no other toast is shown, and every required field with an
    error element has its error text written, empty when it validates. *)
Theorem handleContactSubmit_sends_nothing (form : list App.Field) (pg : App.Page) :
  let r := Client.handleContactSubmit form pg in
  App.requests (snd r) = App.requests pg
  /\ App.storage (snd r) = App.storage pg
  /\ fst r = forallb App.field_valid (filter App.required form)
  /\ App.form_errors (snd r)
     = (App.form_errors pg ++ App.shown_errors (filter App.required form))%list
  /\ App.toasts (snd r)
     = (App.toasts pg
        ++ (if fst r
            then [App.mkToast "Thank you for your message! We'll get back to you soon."
                    "success"]
            else []))%list.
Proof.
  cbv zeta. unfold Client.handleContactSubmit. rewrite validate_each_eq.
  cbn [andb]. destruct (forallb App.field_valid (filter App.required form));
    cbn; rewrite ?app_nil_r; repeat split.
Qed.

Section GroupingFacts.

Variable A : Type.
Variable category : A -> string.

Lemma push_service_plain (categories : list (string * list A)) (service : A) :
  array_includes Client.OBJECT_PROTOTYPE_KEYS (category service) = false ->
  Client.push_service A category categories service
  = Ret (map (fun entry =>
                (fst entry,
                 (snd entry ++ (if Client.belongs A category (fst entry) service then [service] else []))%list))
           categories).
Proof.
  intros Hp. unfold Client.push_service, Client.belongs. rewrite Hp.
  destruct (array_includes Client.CATEGORIES (category service)); cbn [andb].
  - f_equal. apply map_ext. intros [name l]. cbn.
    destruct (name =? category service); [reflexivity | now rewrite app_nil_r].
  - f_equal. rewrite <- (map_id categories) at 1. apply map_ext.
    intros [name l]. cbn. now rewrite app_nil_r.
Qed.

Lemma push_all_plain (catalog : list A) (categories : list (string * list A)) :
  (forall s, In s catalog ->
     array_includes Client.OBJECT_PROTOTYPE_KEYS (category s) = false) ->
  Client.push_all A category categories catalog
  = Ret (map (fun entry =>
                (fst entry, (snd entry ++ filter (Client.belongs A category (fst entry)) catalog)%list))
           categories).
Proof.
  revert categories. induction catalog as [|s rest IH]; intros categories Hp.
  - cbn. f_equal. rewrite <- (map_id categories) at 1. apply map_ext.
    intros [name l]. cbn. now rewrite app_nil_r.
  - cbn [Client.push_all]. rewrite push_service_plain by (apply Hp; now left).
    cbn [bind]. rewrite IH by (intros x Hx; apply Hp; now right).
    f_equal. rewrite map_map. apply map_ext. intros [name l]. cbn.
    rewrite <- app_assoc. destruct (Client.belongs A category name s); reflexivity.
Qed.

Lemma belongs_known (name : string) (service : A) :
  In name Client.CATEGORIES -> Client.belongs A category name service = (category service =? name).
Proof.
  intros Hin. unfold Client.belongs. rewrite (String.eqb_sym name).
  destruct (String.eqb_spec (category service) name) as [->|]; [|apply andb_false_r].
  rewrite andb_true_r. now apply array_includes_In.
Qed.

Lemma push_all_throws (catalog : list A) (categories : list (string * list A)) (s : A) :
  In s catalog ->
  array_includes Client.OBJECT_PROTOTYPE_KEYS (category s) = true ->
  exists e, Client.push_all A category categories catalog = Throw e.
Proof.
  revert categories. induction catalog as [|x rest IH]; intros categories Hin Hp; [easy|].
  cbn [Client.push_all].
  destruct (Client.push_service A category categories x) as [categories'|e] eqn:E;
    [|cbn; eauto].
  cbn [bind]. destruct Hin as [-> | Hin]; [|now apply IH].
  exfalso. unfold Client.push_service in E. rewrite Hp in E.
  assert (array_includes Client.CATEGORIES (category s) = false) as Hc.
  { apply array_includes_In in Hp. cbn in Hp.
    repeat (destruct Hp as [<- | Hp]; [reflexivity|]). contradiction. }
  rewrite Hc in E. discriminate.
Qed.

Variable notes : A -> jsval.

Lemma render_cards_all (services : list A) :
  (forall s, In s services -> Client.renderServiceCard (notes s) = Ret tt) ->
  Client.render_cards A notes services = Ret tt.
Proof.
  induction services as [|s rest IH]; intros H; [reflexivity|].
  cbn [Client.render_cards]. rewrite (H s (or_introl eq_refl)). cbn [bind].
  apply IH. intros x Hx. apply H. now right.
Qed.

Lemma render_sections_all (sections : list (string * list A)) :
  (forall name l s, In (name, l) sections -> In s l ->
     Client.renderServiceCard (notes s) = Ret tt) ->
  Client.render_sections A notes sections = Ret tt.
Proof.
  induction sections as [|[name l] rest IH]; intros H; [reflexivity|].
  cbn [Client.render_sections snd].
  rewrite render_cards_all by (intros s Hs; apply (H name l); [now left | exact Hs]).
  cbn [bind]. apply IH. intros n' l' s Hin Hs. apply (H n' l'); [now right | exact Hs].
Qed.

Lemma render_cards_throws (services : list A) (s : A) (e : string) :
  In s services -> Client.renderServiceCard (notes s) = Throw e ->
  exists e', Client.render_cards A notes services = Throw e'.
Proof.
  induction services as [|x rest IH]; intros Hin He; [easy|].
  cbn [Client.render_cards].
  destruct (Client.renderServiceCard (notes x)) as [[]|e'] eqn:Ex; [|cbn; eauto].
  cbn [bind]. destruct Hin as [-> | Hin]; [congruence | now apply IH].
Qed.

Lemma render_sections_throws (sections : list (string * list A)) (name : string)
  (l : list A) (s : A) (e : string) :
  In (name, l) sections -> In s l ->
  Client.renderServiceCard (notes s) = Throw e ->
  exists e', Client.render_sections A notes sections = Throw e'.
Proof.
  induction sections as [|x rest IH]; intros Hin Hs He; [easy|].
  cbn [Client.render_sections].
  destruct (Client.render_cards A notes (snd x)) as [[]|e'] eqn:Ex; [|cbn; eauto].
  cbn [bind]. destruct Hin as [-> | Hin]; [|now apply IH].
  cbn [snd] in Ex. destruct (render_cards_throws l s e Hs He) as [e' He'].
  congruence.
Qed.

End GroupingFacts.

Section CardFacts.

Lemma escape_each_strings (l : list string) :
  Client.escape_each (map JStr l) = Ret tt.
Proof. induction l as [|s l IH]; [reflexivity | exact IH]. Qed.

(** The card of a service renders when the notes are absent, or an array of
    strings. *)
Lemma renderServiceCard_strings (l : list string) :
  Client.renderServiceCard (JArr (map JStr l)) = Ret tt.
Proof.
  unfold Client.renderServiceCard, Client.notes_list, Client.notes_longer_than.
  cbn [truthy length_of to_number bind Client.notes_items].
  rewrite escape_each_strings. now destruct (PrimFloat.ltb 0 _).
Qed.

End CardFacts.

(** X13: when no catalog entry names a category that is a property of
    [Object.prototype], and the card of every entry of the four categories
    renders, as it does when the notes are an array of strings or absent,
    [renderServices] shows, for each of the four categories in their fixed
    order, the catalog entries of that category in catalog order, skipping
    the categories without entries; an entry of any other category is shown
    nowhere.  When the card of an entry of the four categories raises, as
    for notes that are a non-empty string, [renderServices] raises. *)
Theorem renderServices_groups_by_category
  (A : Type) (category : A -> string) (notes : A -> jsval) (catalog : list A) :
  (forall s, In s catalog ->
     array_includes Client.OBJECT_PROTOTYPE_KEYS (category s) = false) ->
  let shown :=
    filter (fun entry => negb (Nat.eqb (List.length (snd entry)) 0))
      (map (fun name => (name, filter (fun s => category s =? name) catalog))
         Client.CATEGORIES) in
  ((forall s, In s catalog -> In (category s) Client.CATEGORIES ->
      Client.renderServiceCard (notes s) = Ret tt) ->
   Client.renderServices A category notes catalog = Ret shown)
  /\ (forall s e, In s catalog -> In (category s) Client.CATEGORIES ->
        Client.renderServiceCard (notes s) = Throw e ->
        exists e', Client.renderServices A category notes catalog = Throw e')
  /\ (forall s name l, In (name, l) shown ->
        In s l -> In s catalog /\ category s = name /\ In name Client.CATEGORIES)
  /\ (forall l : list string, Client.renderServiceCard (JArr (map JStr l)) = Ret tt)
  /\ Client.renderServiceCard JNull = Ret tt
  /\ Client.renderServiceCard JUndefined = Ret tt
  /\ (forall text, text <> "" -> (Z.of_nat (String.length text) < 2 ^ 53)%Z ->
      exists e, Client.renderServiceCard (JStr text) = Throw e).
Proof.
  intros Hp shown.
  assert (forall s name l, In (name, l) shown ->
            In s l -> In s catalog /\ category s = name /\ In name Client.CATEGORIES)
    as Hshown.
  { intros s name l Hin Hs. apply filter_In in Hin as [Hin _].
    apply in_map_iff in Hin as (n & [= <- <-] & Hn).
    apply filter_In in Hs as [Hs E]. apply String.eqb_eq in E. auto. }
  assert (Client.push_all A category (map (fun name => (name, [])) Client.CATEGORIES)
            catalog
          = Ret (map (fun name => (name, filter (fun s => category s =? name) catalog))
                   Client.CATEGORIES)) as Hpush.
  { rewrite (push_all_plain A category catalog _ Hp). f_equal. rewrite map_map.
    apply map_ext_in. intros name Hin. cbn. f_equal.
    apply filter_ext. intros s. now apply belongs_known. }
  split; [|split; [|split; [exact Hshown|]]].
  - intros Hcards. unfold Client.renderServices. rewrite Hpush. cbn [bind].
    fold shown. rewrite render_sections_all; [reflexivity|].
    intros name l s Hin Hs. destruct (Hshown s name l Hin Hs) as (Hc & <- & Hn).
    now apply Hcards.
  - intros s e Hin Hcat He. unfold Client.renderServices. rewrite Hpush. cbn [bind].
    fold shown.
    destruct (render_sections_throws A notes shown (category s)
                (filter (fun x => category x =? category s) catalog) s e)
      as [e' ->]; [| |exact He|cbn; eauto].
    + apply filter_In. split.
      * apply in_map_iff. exists (category s). split; [reflexivity | exact Hcat].
      * cbn [snd]. destruct (filter _ catalog) as [|x l] eqn:Ef; [|reflexivity].
        exfalso. assert (In s []) as [].
        rewrite <- Ef. apply filter_In. split; [exact Hin | apply String.eqb_refl].
    + apply filter_In. split; [exact Hin | apply String.eqb_refl].
  - split; [exact renderServiceCard_strings|].
    split; [reflexivity|]. split; [reflexivity|].
    intros text Hne Hlen. unfold Client.renderServiceCard, Client.notes_list,
      Client.notes_longer_than.
    cbn [truthy]. apply String.eqb_neq in Hne. rewrite Hne.
    cbn [negb length_of to_number bind].
    assert (PrimFloat.ltb 0 (float_of_Z (Z.of_nat (String.length text))) = true) as ->.
    { change 0%float with (float_of_Z 0).
      rewrite float_of_Z_ltb by (split; [lia | try reflexivity; try exact Hlen]).
      apply Z.ltb_lt. apply String.eqb_neq in Hne.
      destruct text; [contradiction | cbn [String.length]; lia]. }
    cbn. eauto.
Qed.

Lemma renderServices_groups_by_category_witness :
  Client.renderServices (string * string) snd (fun _ => JArr [JStr "SELECT"])
    [("a", "Fulani & Extras"); ("b", "Bohemian Barbie"); ("c", "Wigs");
     ("d", "Fulani & Extras")]
  = Ret [("Bohemian Barbie", [("b", "Bohemian Barbie")]);
         ("Fulani & Extras", [("a", "Fulani & Extras"); ("d", "Fulani & Extras")])].
Proof.
  refine (eq_trans
            (proj1 (renderServices_groups_by_category (string * string) snd
                      (fun _ => JArr [JStr "SELECT"]) _ _) _) _).
  - intros s [<- | [<- | [<- | [<- | []]]]]; reflexivity.
  - intros s _ _. reflexivity.
  - reflexivity.
Defined.

(** X14: a single catalog entry whose category is a property name of
    [Object.prototype] (constructor, toString, ...) makes [renderServices]
    raise, so that nothing of the catalog is shown. *)
Theorem renderServices_raises_on_prototype_key
  (A : Type) (category : A -> string) (notes : A -> jsval) (catalog : list A)
  (s : A) :
  In s catalog ->
  array_includes Client.OBJECT_PROTOTYPE_KEYS (category s) = true ->
  exists e, Client.renderServices A category notes catalog = Throw e.
Proof.
  intros Hin Hp. unfold Client.renderServices.
  destruct (push_all_throws A category catalog
              (map (fun name => (name, [])) Client.CATEGORIES) s Hin Hp) as [e ->].
  cbn. eauto.
Qed.

Lemma renderServices_raises_on_prototype_key_witness :
  exists e,
    Client.renderServices (string * string) snd (fun _ => JNull)
      [("a", "Fulani & Extras"); ("b", "toString")] = Throw e.
Proof.
  apply (renderServices_raises_on_prototype_key (string * string) snd (fun _ => JNull)
           _ ("b", "toString")).
  - right. left. reflexivity.
  - reflexivity.
Defined.

(* ================================================================= *)
(** ** More of the dashboard: properties *)

Section ObjectFacts.

Lemma get_prop_assign (key key' : string) (v : jsval) (o : Dashboard.obj) :
  Dashboard.get_prop key (Dashboard.assign key' v o)
  = if key' =? key then v else Dashboard.get_prop key o.
Proof.
  induction o as [|[k w] rest IH]; cbn.
  - destruct (key' =? key); reflexivity.
  - destruct (String.eqb_spec k key') as [->|Hk]; cbn.
    + destruct (key' =? key); reflexivity.
    + rewrite IH. destruct (String.eqb_spec k key) as [->|]; [|reflexivity].
      destruct (String.eqb_spec key' key) as [->|]; [contradiction | reflexivity].
Qed.

Lemma get_prop_absent (key : string) (o : Dashboard.obj) :
  existsb (fun kv => fst kv =? key) o = false -> Dashboard.get_prop key o = JUndefined.
Proof.
  induction o as [|[k w] rest IH]; cbn; [reflexivity|].
  destruct (k =? key); cbn; [discriminate | exact IH].
Qed.

Lemma get_prop_spread (key : string) (a b : Dashboard.obj) :
  NoDup (map fst b) ->
  Dashboard.get_prop key (Dashboard.spread a b)
  = if existsb (fun kv => fst kv =? key) b
    then Dashboard.get_prop key b else Dashboard.get_prop key a.
Proof.
  unfold Dashboard.spread. revert a.
  induction b as [|[k v] rest IH]; intros a Hnd; cbn; [reflexivity|].
  inversion Hnd as [|? ? Hk Hrest]; subst.
  rewrite (IH _ Hrest), get_prop_assign.
  destruct (String.eqb_spec k key) as [->|Hne]; cbn; [|reflexivity].
  assert (existsb (fun kv => fst kv =? key) rest = false) as ->; [|reflexivity].
  destruct (existsb _ rest) eqn:E; [|reflexivity].
  apply existsb_exists in E as ([k' v'] & Hin & E). cbn in E.
  apply String.eqb_eq in E. subst k'. exfalso. apply Hk.
  now apply (in_map fst) in Hin.
Qed.

Lemma assign_same (key x : string) (o : Dashboard.obj) :
  Dashboard.get_prop key o = JStr x -> Dashboard.assign key (JStr x) o = o.
Proof.
  induction o as [|[k w] rest IH]; cbn; [discriminate|].
  destruct (k =? key) eqn:E.
  - intros ->. apply String.eqb_eq in E. reflexivity.
  - intros H. now rewrite (IH H).
Qed.

Lemma services_endpoint_id (id : string) :
  Admin.plain_id id = true ->
  pop (split "/" ("/api/services/" ++ id)) = id
  /\ startsWith ("/api/services/" ++ id) "/api/services/" = true.
Proof.
  intros H. split.
  - cbn. rewrite (split_plain _ _ H). reflexivity.
  - unfold startsWith. cbn. destruct id; reflexivity.
Qed.

Lemma service_findIndex_spec (id : string) (l : list Dashboard.obj) :
  match Dashboard.findIndex id l with
  | Some i =>
      exists old, nth_error l i = Some old /\ Dashboard.id_is id old = true
                  /\ (i < List.length l)%nat
  | None => forall s, In s l -> Dashboard.id_is id s = false
  end.
Proof.
  induction l as [|s l IH]; cbn; [tauto|].
  destruct (Dashboard.id_is id s) eqn:E.
  - exists s. cbn. repeat split; auto. lia.
  - destruct (Dashboard.findIndex id l) as [i|].
    + destruct IH as (old & Hn & Hid & Hlt). exists old. cbn. repeat split; auto. lia.
    + intros x [<- | Hx]; auto.
Qed.

Lemma nth_error_update_nth {A : Type} (i j : nat) (v : A) (l : list A) :
  (i < List.length l)%nat ->
  nth_error (Dashboard.update_nth i v l) j
  = if Nat.eqb j i then Some v else nth_error l j.
Proof.
  revert i j. induction l as [|x l IH]; intros i j Hlt; cbn in Hlt; [lia|].
  destruct i as [|i]; destruct j as [|j]; cbn; try reflexivity.
  apply IH. lia.
Qed.

Lemma findIndex_none (id : string) (l : list Dashboard.obj) :
  (forall s, In s l -> Dashboard.id_is id s = false) -> Dashboard.findIndex id l = None.
Proof.
  induction l as [|s l IH]; intros H; cbn; [reflexivity|].
  rewrite (H s (or_introl eq_refl)), IH; [reflexivity|].
  intros x Hx. apply H. now right.
Qed.

End ObjectFacts.

(** X15: [PUT /api/services/<id>] on the first stored service with the
    identifier stores the merge of the old object and the body: every
    property named in the body takes the body's value, every other property
    keeps the old one, and the other services stay where they are.  Without
    such a service the request is rejected and the store is unchanged. *)
Theorem put_service_merges_or_rejects
  (id : string) (body : Dashboard.obj) (store : Dashboard.ServiceStore) :
  Admin.plain_id id = true ->
  NoDup (map fst body) ->
  let r := Dashboard.put_service ("/api/services/" ++ id) body store in
  match Dashboard.findIndex id (Dashboard.load_services store) with
  | None => r = (Throw "Service not found", store)
  | Some index =>
      exists old,
        nth_error (Dashboard.load_services store) index = Some old
        /\ Dashboard.id_is id old = true
        /\ fst r = Ret (Dashboard.spread old body)
        /\ (forall key,
              Dashboard.get_prop key (Dashboard.spread old body)
              = if existsb (fun kv => fst kv =? key) body
                then Dashboard.get_prop key body else Dashboard.get_prop key old)
        /\ (forall j,
              nth_error (Dashboard.load_services (snd r)) j
              = if Nat.eqb j index then Some (Dashboard.spread old body)
                else nth_error (Dashboard.load_services store) j)
  end.
Proof.
  intros Hplain Hnd. cbv zeta. unfold Dashboard.put_service.
  destruct (services_endpoint_id id Hplain) as [-> ->].
  pose proof (service_findIndex_spec id (Dashboard.load_services store)) as Hspec.
  destruct (Dashboard.findIndex id (Dashboard.load_services store)) as [index|];
    [|reflexivity].
  destruct Hspec as (old & Hn & Hid & Hlt). rewrite Hn. exists old.
  cbn [fst snd Dashboard.load_services].
  repeat split; auto.
  - intros key. now apply get_prop_spread.
  - intros j. now apply nth_error_update_nth.
Qed.

Lemma put_service_merges_or_rejects_witness :
  let old := [("id", JStr "s1"); ("title", JStr "Twists"); ("price", JNum 100)] in
  let r := Dashboard.put_service "/api/services/s1" [("price", JNum 120)]
             (Some [old]) in
  fst r = Ret [("id", JStr "s1"); ("title", JStr "Twists"); ("price", JNum 120)]
  /\ Dashboard.put_service "/api/services/s2" [("price", JNum 120)] (Some [old])
     = (Throw "Service not found", Some [old]).
Proof.
  cbv zeta. split.
  - destruct (put_service_merges_or_rejects "s1" [("price", JNum 120)]
                (Some [[("id", JStr "s1"); ("title", JStr "Twists"); ("price", JNum 100)]])
                eq_refl) as (old & Hn & _ & Hr & _).
    + repeat constructor. intros [].
    + injection Hn as <-. exact Hr.
  - apply (put_service_merges_or_rejects "s2" [("price", JNum 120)]
             (Some [[("id", JStr "s1"); ("title", JStr "Twists"); ("price", JNum 100)]])
             eq_refl).
    repeat constructor. intros [].
Defined.

(** X16: [DELETE /api/services/<id>] always succeeds and removes every stored
    service with the identifier, duplicates included, keeping the others in
    order; afterwards an update of that identifier is rejected. *)
Theorem delete_service_removes_every_match
  (id : string) (body : Dashboard.obj) (store : Dashboard.ServiceStore) :
  Admin.plain_id id = true ->
  let r := Dashboard.delete_service ("/api/services/" ++ id) store in
  fst r = Ret tt
  /\ Dashboard.get_services (snd r)
     = filter (fun s => negb (Dashboard.id_is id s)) (Dashboard.get_services store)
  /\ (forall s, In s (Dashboard.get_services (snd r)) -> Dashboard.id_is id s = false)
  /\ Dashboard.put_service ("/api/services/" ++ id) body (snd r)
     = (Throw "Service not found", snd r).
Proof.
  intros Hplain. cbv zeta. unfold Dashboard.delete_service, Dashboard.put_service.
  destruct (services_endpoint_id id Hplain) as [-> ->].
  cbn [fst snd Dashboard.get_services Dashboard.load_services].
  assert (forall s, In s (filter (fun s => negb (Dashboard.id_is id s))
                            (Dashboard.load_services store)) ->
                    Dashboard.id_is id s = false) as Hnone.
  { intros s Hs. apply filter_In in Hs as [_ Hs]. now apply negb_true_iff in Hs. }
  repeat split; auto.
  now rewrite (findIndex_none _ _ Hnone).
Qed.

Lemma delete_service_removes_every_match_witness :
  let a := [("id", JStr "s1"); ("title", JStr "Twists")] in
  let b := [("id", JStr "s2"); ("title", JStr "Braids")] in
  Dashboard.get_services
    (snd (Dashboard.delete_service "/api/services/s1" (Some [a; b; a])))
  = [b].
Proof.
  cbv zeta.
  exact (proj1 (proj2 (delete_service_removes_every_match "s1" []
                         (Some [[("id", JStr "s1"); ("title", JStr "Twists")];
                                [("id", JStr "s2"); ("title", JStr "Braids")];
                                [("id", JStr "s1"); ("title", JStr "Twists")]])
                         eq_refl))).
Defined.

(** X17: [POST /api/services] appends the service and gives it an identifier
    when the body has none: the body's own truthy [id] is kept, otherwise the
    identifier is service-<clock>.  Deleting a service just posted under a
    fresh, slash-free identifier restores the list. *)
Theorem post_service_then_delete
  (env : Env) (body : Dashboard.obj) (store : Dashboard.ServiceStore) :
  let r := Dashboard.post_service env body store in
  Dashboard.get_services (snd r) = (Dashboard.get_services store ++ [fst r])%list
  /\ Dashboard.get_prop "id" (fst r)
     = (if truthy (Dashboard.get_prop "id" body) then Dashboard.get_prop "id" body
        else JStr ("service-" ++ toString (now env)))
  /\ (forall key, key <> "id" ->
        Dashboard.get_prop key (fst r) = Dashboard.get_prop key body)
  /\ (forall id,
        Dashboard.get_prop "id" body = JStr id -> id <> "" ->
        Admin.plain_id id = true ->
        (forall s, In s (Dashboard.get_services store) -> Dashboard.id_is id s = false) ->
        fst r = body
        /\ Dashboard.get_services
             (snd (Dashboard.delete_service ("/api/services/" ++ id) (snd r)))
           = Dashboard.get_services store).
Proof.
  cbv zeta. unfold Dashboard.post_service.
  cbn [fst snd Dashboard.get_services Dashboard.load_services].
  split; [reflexivity|]. split; [now rewrite get_prop_assign|]. split.
  - intros key Hk. rewrite get_prop_assign.
    destruct (String.eqb_spec "id" key) as [<-|]; [contradiction | reflexivity].
  - intros id Hid Hne Hplain Hfresh. rewrite Hid. cbn [truthy].
    apply String.eqb_neq in Hne. rewrite Hne. cbn [negb].
    rewrite (assign_same _ _ _ Hid). split; [reflexivity|].
    unfold Dashboard.delete_service.
    destruct (services_endpoint_id id Hplain) as [-> ->].
    cbn [snd Dashboard.load_services]. rewrite filter_app. cbn [filter].
    assert (Dashboard.id_is id body = true) as ->.
    { unfold Dashboard.id_is. rewrite Hid. apply String.eqb_refl. }
    cbn. rewrite app_nil_r. unfold Dashboard.get_services in *.
    assert (forall l : list Dashboard.obj,
              (forall s, In s l -> Dashboard.id_is id s = false) ->
              filter (fun s => negb (Dashboard.id_is id s)) l = l) as Hkeep.
    { induction l as [|s l IH]; intros Hl; [reflexivity|].
      cbn. rewrite (Hl s (or_introl eq_refl)). cbn. f_equal.
      apply IH. intros x Hx. apply Hl. now right. }
    now apply Hkeep.
Qed.

Lemma post_service_then_delete_witness :
  let body := [("id", JStr "s9"); ("title", JStr "Locs")] in
  let a := [("id", JStr "s1"); ("title", JStr "Twists")] in
  let r := Dashboard.post_service Sample.env body (Some [a]) in
  Dashboard.get_services
    (snd (Dashboard.delete_service "/api/services/s9" (snd r)))
  = [a].
Proof.
  cbv zeta.
  destruct (post_service_then_delete Sample.env
              [("id", JStr "s9"); ("title", JStr "Locs")]
              (Some [[("id", JStr "s1"); ("title", JStr "Twists")]]))
    as (_ & _ & _ & H).
  refine (proj2 (H "s9" eq_refl _ eq_refl _)).
  - discriminate.
  - intros s [<- | []]. reflexivity.
Defined.

Section MoveFacts.

Variable A : Type.

Lemma update_nth_length (i : nat) (v : A) (l : list A) :
  List.length (Dashboard.update_nth i v l) = List.length l.
Proof.
  revert i. induction l as [|x l IH]; intros [|i]; cbn; auto.
Qed.

(** Replacing the element at a position trades it for the new one. *)
Lemma update_nth_trade (i : nat) (a b : A) (l : list A) :
  nth_error l i = Some a ->
  Permutation (b :: l) (a :: Dashboard.update_nth i b l).
Proof.
  revert i. induction l as [|x l IH]; intros [|i] H; cbn in *; try discriminate.
  - injection H as ->. apply perm_swap.
  - eapply perm_trans; [apply perm_swap|].
    eapply perm_trans; [apply perm_skip, (IH i H)|]. apply perm_swap.
Qed.

Lemma same_nth_error (l1 l2 : list A) :
  (forall j, nth_error l1 j = nth_error l2 j) -> l1 = l2.
Proof.
  revert l2. induction l1 as [|x l1 IH]; intros [|y l2] H.
  - reflexivity.
  - specialize (H 0%nat). discriminate.
  - specialize (H 0%nat). discriminate.
  - pose proof (H 0%nat) as H0. injection H0 as ->. f_equal.
    apply IH. intros j. exact (H (S j)).
Qed.

(** The swap [moveService] performs when the target is inside the array. *)
Lemma moveService_inside (index : nat) (direction : Z) (services : list A) (a b : A) :
  let target := Z.to_nat (Z.of_nat index + direction) in
  (0 <= Z.of_nat index + direction < Z.of_nat (List.length services))%Z ->
  nth_error services index = Some a ->
  nth_error services target = Some b ->
  Dashboard.moveService index direction services
  = Dashboard.update_nth target a (Dashboard.update_nth index b services).
Proof.
  intros target Hr Ha Hb. unfold Dashboard.moveService.
  destruct (Z.ltb_spec (Z.of_nat index + direction) 0); [lia|].
  destruct (Z.leb_spec (Z.of_nat (List.length services)) (Z.of_nat index + direction));
    [lia|].
  cbn [orb]. fold target. now rewrite Ha, Hb.
Qed.

End MoveFacts.

(** X18: for an index of the array, [moveService] keeps the services and
    their number and only reorders them.  A target outside the array changes
    nothing; a target inside swaps the two entries, and moving back from the
    target by the opposite direction restores the order. *)
Theorem moveService_reorders
  (A : Type) (index : nat) (direction : Z) (services : list A) :
  (index < List.length services)%nat ->
  let target := (Z.of_nat index + direction)%Z in
  let moved := Dashboard.moveService index direction services in
  List.length moved = List.length services
  /\ Permutation moved services
  /\ ((target < 0)%Z \/ (Z.of_nat (List.length services) <= target)%Z ->
      moved = services)
  /\ ((0 <= target < Z.of_nat (List.length services))%Z ->
      nth_error moved index = nth_error services (Z.to_nat target)
      /\ nth_error moved (Z.to_nat target) = nth_error services index
      /\ Dashboard.moveService (Z.to_nat target) (- direction) moved = services).
Proof.
  intros Hi target moved.
  destruct (nth_error services index) as [a|] eqn:Ha;
    [|apply nth_error_None in Ha; lia].
  assert ((target < 0)%Z \/ (Z.of_nat (List.length services) <= target)%Z
          \/ (0 <= target < Z.of_nat (List.length services))%Z) as Hcase by lia.
  assert ((target < 0)%Z \/ (Z.of_nat (List.length services) <= target)%Z ->
          moved = services) as Hout.
  { intros Ho. subst moved. unfold Dashboard.moveService. fold target.
    destruct (Z.ltb_spec target 0); [reflexivity|].
    destruct (Z.leb_spec (Z.of_nat (List.length services)) target); [reflexivity | lia]. }
  destruct Hcase as [Ho | [Ho | Hin]].
  1-2: rewrite Hout by auto; repeat split; auto; intros; lia.
  set (t := Z.to_nat target).
  assert (t < List.length services)%nat as Ht by (subst t; lia).
  destruct (nth_error services t) as [b|] eqn:Hb;
    [|apply nth_error_None in Hb; lia].
  assert (moved = Dashboard.update_nth t a (Dashboard.update_nth index b services)) as Hm.
  { subst moved t. now apply moveService_inside. }
  assert (forall j, nth_error moved j
                    = if Nat.eqb j t then Some a
                      else if Nat.eqb j index then Some b else nth_error services j)
    as Hnth.
  { intros j. rewrite Hm, nth_error_update_nth by (now rewrite update_nth_length).
    now rewrite nth_error_update_nth. }
  split; [rewrite Hm; now rewrite !update_nth_length|].
  split.
  { rewrite Hm. apply (Permutation_cons_inv (a := a)).
    apply Permutation_sym.
    eapply perm_trans; [apply (update_nth_trade A t b a services Hb)|].
    assert (nth_error (Dashboard.update_nth t a services) index = Some a) as Hx.
    { rewrite nth_error_update_nth by exact Ht.
      destruct (Nat.eqb index t); [reflexivity | exact Ha]. }
    eapply perm_trans; [apply (update_nth_trade A index a b _ Hx)|].
    apply perm_skip.
    assert (Dashboard.update_nth index b (Dashboard.update_nth t a services)
            = Dashboard.update_nth t a (Dashboard.update_nth index b services)) as ->.
    { apply same_nth_error. intros j.
      rewrite !nth_error_update_nth by (rewrite ?update_nth_length; assumption).
      destruct (Nat.eqb_spec j index) as [Ej|Ej]; destruct (Nat.eqb_spec j t) as [Et|Et];
        try reflexivity.
      rewrite Ej in Et. rewrite Et in Ha. congruence. }
    apply Permutation_refl. }
  split; [intros; lia|].
  intros _. fold t. split; [|split].
  - rewrite Hnth, Nat.eqb_refl.
    destruct (Nat.eqb_spec index t) as [E|]; [|reflexivity].
    rewrite <- E in Hb. congruence.
  - rewrite Hnth, Nat.eqb_refl. reflexivity.
  - assert (Z.to_nat (Z.of_nat t + - direction) = index) as Hback by (subst t target; lia).
    rewrite (moveService_inside A t (- direction) moved a
               (if Nat.eqb index t then a else b)).
    + rewrite Hback. apply same_nth_error. intros j.
      rewrite !nth_error_update_nth
        by (rewrite ?update_nth_length, Hm, ?update_nth_length; assumption).
      rewrite Hnth.
      destruct (Nat.eqb_spec j index) as [->|Hji].
      * exact (eq_sym Ha).
      * destruct (Nat.eqb_spec j t) as [->|]; [|reflexivity].
        destruct (Nat.eqb_spec index t) as [E|]; [congruence | exact (eq_sym Hb)].
    + rewrite Hm, !update_nth_length. subst t target. lia.
    + rewrite Hnth, Nat.eqb_refl. reflexivity.
    + rewrite Hback, Hnth, Nat.eqb_refl. destruct (Nat.eqb index t); reflexivity.
Qed.

Lemma moveService_reorders_witness :
  Dashboard.moveService 1 (-1) ["a"; "b"; "c"] = ["b"; "a"; "c"]
  /\ Dashboard.moveService 0 1 (Dashboard.moveService 1 (-1) ["a"; "b"; "c"])
     = ["a"; "b"; "c"]
  /\ Dashboard.moveService 0 (-1) ["a"; "b"; "c"] = ["a"; "b"; "c"].
Proof.
  destruct (moveService_reorders string 1 (-1) ["a"; "b"; "c"]) as (_ & _ & _ & Hin);
    [cbn; lia|].
  destruct (moveService_reorders string 0 (-1) ["a"; "b"; "c"]) as (_ & _ & Hout & _);
    [cbn; lia|].
  split; [reflexivity|]. split.
  - exact (proj2 (proj2 (Hin ltac:(cbn; lia)))).
  - apply Hout. left. cbn. lia.
Defined.

(* ================================================================= *)
(** ** Notes of a service through the edit drawer ([assets/admin.js]) *)

Section NotesFacts.

Lemma split_parts_plain (sep : ascii) (s part : string) :
  In part (split sep s) ->
  string_forallb (fun c => negb (Ascii.eqb c sep)) part = true.
Proof.
  revert part. induction s as [|c r IH]; cbn; intros part H.
  - destruct H as [<- | []]. reflexivity.
  - destruct (Ascii.eqb c sep) eqn:E.
    + destruct H as [<- | H]; [reflexivity | now apply IH].
    + destruct (split sep r) as [|h t].
      * destruct H as [<- | []]. cbn. now rewrite E.
      * destruct H as [<- | H].
        -- cbn. rewrite E. cbn. apply IH. now left.
        -- apply IH. now right.
Qed.

Lemma split_parts_keep (p : ascii -> bool) (sep : ascii) (s part : string) :
  string_forallb p s = true -> In part (split sep s) ->
  string_forallb p part = true.
Proof.
  revert part. induction s as [|c r IH]; cbn; intros part Hs H.
  - destruct H as [<- | []]. reflexivity.
  - apply andb_true_iff in Hs as [Hc Hr]. destruct (Ascii.eqb c sep).
    + destruct H as [<- | H]; [reflexivity | now apply IH].
    + destruct (split sep r) as [|h t].
      * destruct H as [<- | []]. cbn. now rewrite Hc.
      * destruct H as [<- | H].
        -- cbn. rewrite Hc. cbn. apply IH; [exact Hr | now left].
        -- apply IH; [exact Hr | now right].
Qed.

Lemma no_return_app (a b : string) :
  string_forallb (fun c => negb (Ascii.eqb c Dashboard.RETURN)) a = true ->
  string_forallb (fun c => negb (Ascii.eqb c Dashboard.RETURN)) b = true ->
  string_forallb (fun c => negb (Ascii.eqb c Dashboard.RETURN)) (a ++ b) = true.
Proof.
  intros Ha Hb. induction a as [|c r IH]; cbn [append string_forallb] in *; [exact Hb|].
  apply andb_true_iff in Ha as [Hc Hr]. apply andb_true_iff.
  split; [exact Hc | exact (IH Hr)].
Qed.

Lemma line_char_split (n : string) :
  string_forallb Dashboard.line_char n = true ->
  string_forallb (fun c => negb (Ascii.eqb c Dashboard.NEWLINE)) n = true
  /\ string_forallb (fun c => negb (Ascii.eqb c Dashboard.RETURN)) n = true.
Proof.
  induction n as [|c r IH]; cbn [string_forallb]; [auto|].
  intros H. apply andb_true_iff in H as [Hc Hr].
  apply andb_true_iff in Hc as [H1 H2]. destruct (IH Hr) as [E1 E2].
  split; apply andb_true_iff; split; assumption.
Qed.

Lemma line_char_join (n : string) :
  string_forallb (fun c => negb (Ascii.eqb c Dashboard.NEWLINE)) n = true ->
  string_forallb (fun c => negb (Ascii.eqb c Dashboard.RETURN)) n = true ->
  string_forallb Dashboard.line_char n = true.
Proof.
  induction n as [|c r IH]; cbn [string_forallb]; [auto|].
  intros H1 H2. apply andb_true_iff in H1 as [Hc1 Hr1].
  apply andb_true_iff in H2 as [Hc2 Hr2].
  apply andb_true_iff. split; [|exact (IH Hr1 Hr2)].
  unfold Dashboard.line_char. apply andb_true_iff. split; assumption.
Qed.

(** The text [openServiceDrawer] writes holds no carriage return when the
    notes hold none. *)
Lemma notes_text_no_return (notes : list string) :
  (forall n, In n notes ->
     string_forallb (fun c => negb (Ascii.eqb c Dashboard.RETURN)) n = true) ->
  string_forallb (fun c => negb (Ascii.eqb c Dashboard.RETURN))
    (Dashboard.notes_text notes) = true.
Proof.
  unfold Dashboard.notes_text.
  induction notes as [|x [|y rest] IH]; intros H.
  - reflexivity.
  - apply H. now left.
  - change (String.concat (String Dashboard.NEWLINE "") (x :: y :: rest))
      with (x ++ String Dashboard.NEWLINE
                   (String.concat (String Dashboard.NEWLINE "") (y :: rest))).
    apply no_return_app; [apply H; now left|].
    cbn [string_forallb]. apply andb_true_iff. split; [reflexivity|].
    apply IH. intros n Hn. apply H. now right.
Qed.

(** The box gives a text without carriage return back as it is. *)
Lemma textarea_value_plain (s : string) :
  string_forallb (fun c => negb (Ascii.eqb c Dashboard.RETURN)) s = true ->
  Dashboard.textarea_value s = s.
Proof.
  induction s as [|c r IH]; cbn [string_forallb Dashboard.textarea_value];
    [reflexivity|].
  intros H. apply andb_true_iff in H as [Hc Hr]. apply negb_true_iff in Hc.
  now rewrite Hc, (IH Hr).
Qed.

(** The value of the box never holds a carriage return. *)
Lemma textarea_value_no_return (raw : string) :
  string_forallb (fun c => negb (Ascii.eqb c Dashboard.RETURN))
    (Dashboard.textarea_value raw) = true.
Proof.
  assert (forall n s, (String.length s <= n)%nat ->
            string_forallb (fun c => negb (Ascii.eqb c Dashboard.RETURN))
              (Dashboard.textarea_value s) = true) as H.
  { intros n. induction n as [|n IH]; intros s Hlen.
    - destruct s; [reflexivity | cbn in Hlen; lia].
    - destruct s as [|c r]; [reflexivity|].
      cbn [String.length] in Hlen. cbn [Dashboard.textarea_value].
      destruct (Ascii.eqb c Dashboard.RETURN) eqn:Ec.
      + destruct r as [|c' r']; [reflexivity|].
        cbn [String.length] in Hlen.
        destruct (Ascii.eqb c' Dashboard.NEWLINE);
          cbn [string_forallb]; apply andb_true_iff; split; try reflexivity;
          apply IH; cbn [String.length]; lia.
      + cbn [string_forallb]. rewrite Ec. cbn [negb andb]. apply IH. lia. }
  exact (H (String.length raw) raw (Nat.le_refl _)).
Qed.

Lemma lines_round_trip (notes : list string) :
  (forall n, In n notes ->
     string_forallb (fun c => negb (Ascii.eqb c Dashboard.NEWLINE)) n = true
     /\ trim n <> "") ->
  filter (fun n => negb (trim n =? ""))
    (split Dashboard.NEWLINE (Dashboard.notes_text notes)) = notes.
Proof.
  unfold Dashboard.notes_text.
  induction notes as [|x [|y rest] IH]; intros H.
  - reflexivity.
  - destruct (H x (or_introl eq_refl)) as [Hp Ht].
    cbn [String.concat]. rewrite (split_plain _ _ Hp). cbn [filter].
    apply String.eqb_neq in Ht. now rewrite Ht.
  - destruct (H x (or_introl eq_refl)) as [Hp Ht].
    change (String.concat (String Dashboard.NEWLINE "") (x :: y :: rest))
      with (x ++ String Dashboard.NEWLINE
                   (String.concat (String Dashboard.NEWLINE "") (y :: rest))).
    rewrite (split_line _ _ _ Hp). cbn [filter].
    apply String.eqb_neq in Ht. rewrite Ht. cbn [negb]. f_equal.
    apply IH. intros n Hn. apply H. now right.
Qed.

Lemma notes_round_trip (notes : list string) :
  (forall n, In n notes -> Dashboard.one_line n) ->
  Dashboard.notes_of_text (Dashboard.notes_text notes) = notes.
Proof.
  intros H. unfold Dashboard.notes_of_text.
  rewrite textarea_value_plain.
  - apply lines_round_trip. intros n Hn. destruct (H n Hn) as [Hl Ht].
    split; [exact (proj1 (line_char_split n Hl)) | exact Ht].
  - apply notes_text_no_return. intros n Hn. destruct (H n Hn) as [Hl _].
    exact (proj2 (line_char_split n Hl)).
Qed.

End NotesFacts.

(** X19: the notes of a service survive the edit drawer.  Notes that hold no
    line break, neither line feed nor carriage return, and are not blank,
    joined into the notes box by [openServiceDrawer] and read back by
    [saveService], come back unchanged, in order; and whatever [saveService]
    reads from any text of the box, whose value has every carriage return
    turned into a line feed, are notes of that kind, so notes saved through
    the drawer are stable. *)
Theorem notes_survive_the_edit_drawer (notes : list string) (text : string) :
  (forall n, In n notes -> Dashboard.one_line n) ->
  Dashboard.notes_of_text (Dashboard.notes_text notes) = notes
  /\ (forall n, In n (Dashboard.notes_of_text text) -> Dashboard.one_line n)
  /\ Dashboard.notes_of_text (Dashboard.notes_text (Dashboard.notes_of_text text))
     = Dashboard.notes_of_text text.
Proof.
  intros H.
  assert (forall n, In n (Dashboard.notes_of_text text) -> Dashboard.one_line n)
    as Hsaved.
  { intros n Hn. unfold Dashboard.notes_of_text in Hn.
    apply filter_In in Hn as [Hn Hb]. split.
    - apply line_char_join.
      + exact (split_parts_plain _ _ _ Hn).
      + exact (split_parts_keep _ _ _ _ (textarea_value_no_return text) Hn).
    - apply negb_true_iff in Hb. now apply String.eqb_neq. }
  split; [exact (notes_round_trip notes H)|].
  split; [exact Hsaved | exact (notes_round_trip _ Hsaved)].
Qed.

Lemma notes_survive_the_edit_drawer_witness :
  Dashboard.notes_of_text
    (Dashboard.notes_text ["SELECT"; "DO NOT BOOK AFTER 8AM"])
  = ["SELECT"; "DO NOT BOOK AFTER 8AM"].
Proof.
  refine (proj1 (notes_survive_the_edit_drawer
                   ["SELECT"; "DO NOT BOOK AFTER 8AM"] "" _)).
  intros n [<- | [<- | []]]; split; solve [reflexivity | discriminate].
Defined.

(* ================================================================= *)
(** ** Service images of the media panel ([assets/admin.js]) *)

Section ImageFacts.

Lemma seen_In (x : string) (l : list string) :
  existsb (String.eqb x) l = true <-> In x l.
Proof.
  rewrite existsb_exists. split.
  - intros (y & Hy & E). apply String.eqb_eq in E. now subst.
  - intros H. exists x. split; [assumption | apply String.eqb_refl].
Qed.

Lemma first_occurrences_ext (seen1 seen2 l : list string) :
  (forall y, existsb (String.eqb y) seen1 = existsb (String.eqb y) seen2) ->
  Dashboard.first_occurrences seen1 l = Dashboard.first_occurrences seen2 l.
Proof.
  revert seen1 seen2. induction l as [|x l IH]; intros seen1 seen2 H; cbn.
  - reflexivity.
  - rewrite (H x). destruct (existsb (String.eqb x) seen2).
    + now apply IH.
    + f_equal. apply IH. intros y. cbn. now rewrite (H y).
Qed.

(** Where [indexOf] finds an element that stands behind [p]. *)
Lemma indexOf_behind (x : string) (p s : list string) :
  exists i, Dashboard.indexOf x (p ++ x :: s) = Some i
            /\ Nat.eqb i (List.length p) = negb (existsb (String.eqb x) p).
Proof.
  induction p as [|y p (i & Hi & He)]; cbn.
  - rewrite String.eqb_refl. now exists 0%nat.
  - rewrite (String.eqb_sym x y). destruct (y =? x).
    + now exists 0%nat.
    + rewrite Hi. now exists (S i).
Qed.

Lemma filter_indexed_first (p s : list string) :
  Dashboard.filter_indexed
    (fun img index =>
       match Dashboard.indexOf img (p ++ s) with
       | Some i => Nat.eqb i index
       | None => false
       end) (List.length p) s
  = Dashboard.first_occurrences p s.
Proof.
  revert p. induction s as [|y s IH]; intros p; [reflexivity|].
  cbn [Dashboard.filter_indexed Dashboard.first_occurrences].
  destruct (indexOf_behind y p s) as (i & Hi & He). rewrite Hi, He.
  specialize (IH (p ++ [y])%list).
  rewrite <- app_assoc, length_app, Nat.add_1_r in IH.
  change ([y] ++ s)%list with (y :: s) in IH.
  change (List.length [y]) with 1%nat in IH.
  assert (forall z, existsb (String.eqb z) (p ++ [y])
                    = existsb (String.eqb z) (y :: p)) as Hsame.
  { intros z. rewrite existsb_app. cbn.
    destruct (existsb (String.eqb z) p), (z =? y); reflexivity. }
  destruct (existsb (String.eqb y) p) eqn:E; cbn [negb].
  - rewrite IH. apply first_occurrences_ext. intros z. rewrite Hsame. cbn.
    destruct (String.eqb_spec z y) as [->|]; [now rewrite E | reflexivity].
  - f_equal. rewrite IH. now apply first_occurrences_ext.
Qed.

Lemma service_images_first (imgs : list string) :
  Dashboard.service_images imgs
  = Dashboard.first_occurrences [] (filter (fun img => negb (img =? "")) imgs).
Proof. exact (filter_indexed_first [] _). Qed.

Lemma first_occurrences_In (seen l : list string) (x : string) :
  In x (Dashboard.first_occurrences seen l) <-> In x l /\ ~ In x seen.
Proof.
  revert seen. induction l as [|y l IH]; intros seen; cbn.
  - tauto.
  - destruct (existsb (String.eqb y) seen) eqn:E.
    + apply seen_In in E. rewrite IH. split.
      * tauto.
      * intros [[<- | H] Hn]; tauto.
    + assert (~ In y seen) as Hy by (rewrite <- seen_In, E; discriminate).
      cbn. rewrite IH. cbn. split.
      * intros [<- | [H Hn]]; tauto.
      * intros [[<- | H] Hn]; [now left|].
        destruct (string_dec y x) as [<- | Hne]; [now left | right; tauto].
Qed.

Lemma first_occurrences_NoDup (seen l : list string) :
  NoDup (Dashboard.first_occurrences seen l).
Proof.
  revert seen. induction l as [|y l IH]; intros seen; cbn.
  - constructor.
  - destruct (existsb (String.eqb y) seen); [apply IH|].
    constructor; [|apply IH].
    rewrite first_occurrences_In. cbn. tauto.
Qed.

Lemma seen_filter (q : string -> bool) (x : string) (seen : list string) :
  q x = true ->
  existsb (String.eqb x) (filter q seen) = existsb (String.eqb x) seen.
Proof.
  intros Q. induction seen as [|y seen IH]; cbn; [reflexivity|].
  destruct (q y) eqn:Qy; cbn; rewrite IH; [reflexivity|].
  destruct (String.eqb_spec x y) as [->|]; [congruence | reflexivity].
Qed.

Lemma first_occurrences_filter (q : string -> bool) (seen l : list string) :
  Dashboard.first_occurrences (filter q seen) (filter q l)
  = filter q (Dashboard.first_occurrences seen l).
Proof.
  revert seen. induction l as [|x l IH]; intros seen; [reflexivity|].
  cbn [filter Dashboard.first_occurrences]. destruct (q x) eqn:Q.
  - cbn [Dashboard.first_occurrences]. rewrite (seen_filter q x seen Q).
    destruct (existsb (String.eqb x) seen); [apply IH|].
    cbn [filter]. rewrite Q. f_equal.
    rewrite <- IH. cbn [filter]. now rewrite Q.
  - destruct (existsb (String.eqb x) seen); [apply IH|].
    cbn [filter]. rewrite Q, <- IH. cbn [filter]. now rewrite Q.
Qed.

Lemma removed_image_filtered (imagePath : string) (imgs : list string) :
  filter (fun img => negb (img =? "")) (Dashboard.removeServiceImage imagePath imgs)
  = filter (fun img => negb (img =? imagePath))
      (filter (fun img => negb (img =? "")) imgs).
Proof.
  unfold Dashboard.removeServiceImage.
  induction imgs as [|x imgs IH]; [reflexivity|].
  cbn [map filter]. destruct (String.eqb_spec x imagePath) as [->|Hx].
  - cbn [String.eqb negb]. rewrite IH.
    destruct (imagePath =? ""); cbn [negb filter]; [reflexivity|].
    now rewrite String.eqb_refl.
  - rewrite IH. destruct (x =? ""); cbn [negb filter]; [reflexivity|].
    apply String.eqb_neq in Hx. now rewrite Hx.
Qed.

End ImageFacts.

(** X20: the media panel lists each service image exactly once: the images
    [renderServiceImages] shows are pairwise distinct, and an image is among
    them exactly when it is non-empty and the [img] of some service. *)
Theorem service_images_lists_each_image_once (imgs : list string) :
  NoDup (Dashboard.service_images imgs)
  /\ forall x, In x (Dashboard.service_images imgs) <-> In x imgs /\ x <> "".
Proof.
  rewrite service_images_first. split; [apply first_occurrences_NoDup|].
  intros x. rewrite first_occurrences_In, filter_In, negb_true_iff, String.eqb_neq.
  cbn. tauto.
Qed.

(** X21: [removeServiceImage] takes exactly one image off the media panel:
    afterwards [renderServiceImages] shows the images it showed before, in
    the same order, without the removed one. *)
Theorem removeServiceImage_takes_one_image_off
  (imagePath : string) (imgs : list string) :
  Dashboard.service_images (Dashboard.removeServiceImage imagePath imgs)
  = filter (fun img => negb (img =? imagePath)) (Dashboard.service_images imgs)
  /\ ~ In imagePath
         (Dashboard.service_images (Dashboard.removeServiceImage imagePath imgs)).
Proof.
  assert (Dashboard.service_images (Dashboard.removeServiceImage imagePath imgs)
          = filter (fun img => negb (img =? imagePath))
              (Dashboard.service_images imgs)) as E.
  { rewrite !service_images_first, removed_image_filtered.
    exact (first_occurrences_filter _ [] _). }
  split; [exact E|].
  rewrite E. intros H. apply filter_In in H as [_ H].
  now rewrite String.eqb_refl in H.
Qed.

(* ================================================================= *)
(** ** Bookings panel and dashboard figures ([assets/admin.js]) *)

Section PanelFacts.

Lemma filter_if_either (v : string) (p : Booking.t -> bool) (l : list Booking.t) :
  Dashboard.filter_if v p l = filter (fun b => (v =? "") || p b) l.
Proof.
  unfold Dashboard.filter_if. destruct (v =? ""); [|reflexivity].
  induction l as [|b l IH]; cbn in *; [reflexivity | now f_equal].
Qed.

Lemma rows_filtered_twice (p q : Booking.t -> bool) (l : list Booking.t) :
  filter q (filter p l) = filter (fun b => p b && q b) l.
Proof.
  induction l as [|b l IH]; cbn; [reflexivity|].
  destruct (p b); cbn; [destruct (q b)|]; now rewrite IH.
Qed.

(** The revenue is the sum of the paid amounts, added from the left,
    starting from zero. *)
Lemma totalRevenue_sum (l : list Booking.t) :
  Dashboard.totalRevenue l = fold_left PrimFloat.add (Dashboard.paid_amounts l) zero.
Proof.
  unfold Dashboard.totalRevenue, Dashboard.paid_amounts.
  generalize zero. induction (filter _ l) as [|b rest IH]; intros start; cbn.
  - reflexivity.
  - apply IH.
Qed.

Lemma paid_amounts_cons (b : Booking.t) (l : list Booking.t) :
  Dashboard.paid_amounts (b :: l)
  = ((if Dashboard.paid (Booking.status b) then [Dashboard.amount_due b] else [])
     ++ Dashboard.paid_amounts l)%list.
Proof.
  unfold Dashboard.paid_amounts. cbn [filter].
  now destruct (Dashboard.paid (Booking.status b)).
Qed.

Lemma pendingDeposits_cons (b : Booking.t) (l : list Booking.t) :
  Dashboard.pendingDeposits (b :: l)
  = ((if (Booking.status b =? "deposit_pending")%string then 1 else 0)
     + Dashboard.pendingDeposits l)%nat.
Proof.
  unfold Dashboard.pendingDeposits. cbn [filter].
  now destruct (Booking.status b =? "deposit_pending").
Qed.

End PanelFacts.

(** X22: the four filters of the bookings panel act as one conjunction,
    whatever their order: the table shows, in stored order, exactly the
    bookings that pass every filter that is set (from-date and to-date by
    string comparison, service and status by equality); a filter left empty
    lets every booking pass. *)
Theorem applyBookingFilters_is_a_conjunction
  (f : Dashboard.Filters) (bookings : list Booking.t) :
  Dashboard.applyBookingFilters f bookings
  = filter
      (fun b =>
         ((Dashboard.dateFrom f =? "")
          || String.leb (Dashboard.dateFrom f) (Booking.date b))
         && ((Dashboard.dateTo f =? "")
             || String.leb (Booking.date b) (Dashboard.dateTo f))
         && ((Dashboard.serviceId f =? "")
             || (BookingData.serviceId (Booking.data b) =? Dashboard.serviceId f))
         && ((Dashboard.status f =? "")
             || (Booking.status b =? Dashboard.status f)))
      bookings.
Proof.
  unfold Dashboard.applyBookingFilters.
  rewrite !filter_if_either, !rows_filtered_twice.
  apply filter_ext. intros b. now rewrite !andb_assoc.
Qed.

(** X23: the dashboard figures follow a status update.  When
    [updateBookingStatus] sets the status of the first booking with the
    given identifier in [STATE.bookings], the number of bookings stays, and
    the pending-deposit count loses the booking if it was pending and gains
    it if it becomes pending.  The paid revenue is the binary64 sum, from
    the left, of the amounts due of the bookings that count (completed or
    deposit paid): the amount of the updated booking leaves that sequence at
    its place if it counted and enters it there if it counts now, the other
    amounts staying in order; the revenue is the same number when the
    booking counts before and after, or neither. *)
Theorem stats_follow_status_update
  (bookingId newStatus : string) (bookings : list Booking.t) (b : Booking.t) :
  List.find (Admin.has_id bookingId) bookings = Some b ->
  let after := Admin.set_local_status bookingId newStatus bookings in
  let pending (s : string) := if s =? "deposit_pending" then 1%nat else 0%nat in
  let amount (s : string) :=
    if Dashboard.paid s then [Dashboard.amount_due b] else [] in
  List.length after = List.length bookings
  /\ (Dashboard.pendingDeposits after + pending (Booking.status b)
      = Dashboard.pendingDeposits bookings + pending newStatus)%nat
  /\ Dashboard.totalRevenue bookings
     = fold_left PrimFloat.add (Dashboard.paid_amounts bookings) zero
  /\ Dashboard.totalRevenue after
     = fold_left PrimFloat.add (Dashboard.paid_amounts after) zero
  /\ (exists before behind,
        Dashboard.paid_amounts bookings
        = (before ++ amount (Booking.status b) ++ behind)%list
        /\ Dashboard.paid_amounts after
           = (before ++ amount newStatus ++ behind)%list)
  /\ (Dashboard.paid (Booking.status b) = Dashboard.paid newStatus ->
      Dashboard.totalRevenue after = Dashboard.totalRevenue bookings).
Proof.
  intros Hfind after pending amount.
  assert (List.length after = List.length bookings
          /\ (Dashboard.pendingDeposits after + pending (Booking.status b)
              = Dashboard.pendingDeposits bookings + pending newStatus)%nat
          /\ exists before behind,
               Dashboard.paid_amounts bookings
               = (before ++ amount (Booking.status b) ++ behind)%list
               /\ Dashboard.paid_amounts after
                  = (before ++ amount newStatus ++ behind)%list) as (Hlen & Hpend & Hsum).
  { subst after. induction bookings as [|x l IH]; [discriminate|].
    cbn in Hfind. unfold Admin.has_id in Hfind. cbn [Admin.set_local_status].
    destruct (Booking.id x =? bookingId).
    - injection Hfind as ->. split; [reflexivity|].
      rewrite !pendingDeposits_cons, !paid_amounts_cons.
      cbn [Booking.with_status Booking.status]. subst pending amount. cbn beta.
      split; [lia|]. exists [], (Dashboard.paid_amounts l). split; reflexivity.
    - destruct (IH Hfind) as (Hl & Hp & before & behind & H1 & H2).
      split; [cbn; now rewrite Hl|].
      rewrite !pendingDeposits_cons, !paid_amounts_cons.
      split; [lia|].
      exists ((if Dashboard.paid (Booking.status x) then [Dashboard.amount_due x] else [])
              ++ before)%list, behind.
      rewrite H1, H2, <- !app_assoc. split; reflexivity. }
  split; [exact Hlen|]. split; [exact Hpend|].
  split; [apply totalRevenue_sum|]. split; [apply totalRevenue_sum|].
  split; [exact Hsum|].
  intros Hsame. rewrite !totalRevenue_sum.
  destruct Hsum as (before & behind & -> & ->). subst amount. cbn beta.
  now rewrite Hsame.
Qed.

Lemma stats_follow_status_update_witness :
  let bookings := [Sample.booking "booking-1" "deposit_pending";
                   Sample.booking "booking-2" "deposit_pending"] in
  let after := Admin.set_local_status "booking-2" "deposit_paid" bookings in
  (Dashboard.pendingDeposits after + 1 = Dashboard.pendingDeposits bookings + 0)%nat
  /\ Dashboard.totalRevenue after
     = fold_left PrimFloat.add (Dashboard.paid_amounts after) zero.
Proof.
  cbv zeta.
  destruct (stats_follow_status_update "booking-2" "deposit_paid"
              [Sample.booking "booking-1" "deposit_pending";
               Sample.booking "booking-2" "deposit_pending"]
              (Sample.booking "booking-2" "deposit_pending") eq_refl)
    as (_ & Hp & _ & Hr & _).
  split; [exact Hp | exact Hr].
Defined.

(* ================================================================= *)
(** ** Calendar blocks of the admin ([assets/admin.js]) *)

(** X24: removing a block undoes adding it.  When [addBlock] is given a date
    and no stored block carries the identifier the gateway stamps at that
    time, the new block is appended to the stored ones with type blackout
    and the entered notes, and [deleteBlock] of that identifier, once
    confirmed, restores the stored blocks and [STATE.blocks]; neither touches
    the stored bookings or the client's blackout dates. *)
Theorem deleteBlock_undoes_addBlock
  (env : Env) (date : string) (notes : option string)
  (blocks : list Block.t) (ls : Storage) :
  date <> "" ->
  (forall b, In b (Dashboard.stored_blocks ls) ->
     Block.id b <> "block-" ++ toString (now env)) ->
  let blockId := "block-" ++ toString (now env) in
  let added := Dashboard.addBlock env (Some date) notes blocks ls in
  let removed := Dashboard.deleteBlock true blockId (fst added) (snd added) in
  fst added
  = (Dashboard.stored_blocks ls
     ++ [Block.mk blockId date "blackout" (App.string_of notes)])%list
  /\ Dashboard.stored_blocks (snd added) = fst added
  /\ fst removed = Dashboard.stored_blocks ls
  /\ Dashboard.stored_blocks (snd removed) = Dashboard.stored_blocks ls
  /\ sb_bookings (snd removed) = sb_bookings ls
  /\ sb_blackout_dates (snd removed) = sb_blackout_dates ls.
Proof.
  intros Hdate Hfresh blockId added removed.
  assert ((if App.selected notes then App.string_of notes else "")
          = App.string_of notes) as Hnotes.
  { destruct notes as [n|]; [|reflexivity]. cbn.
    destruct (String.eqb_spec n "") as [->|]; reflexivity. }
  assert (added
          = ((Dashboard.stored_blocks ls
              ++ [Block.mk blockId date "blackout" (App.string_of notes)])%list,
             mkStorage (sb_bookings ls) (sb_blackout_dates ls)
               (Some (Dashboard.stored_blocks ls
                      ++ [Block.mk blockId date "blackout" (App.string_of notes)])%list)))
    as Ha.
  { subst added. unfold Dashboard.addBlock. cbn [App.selected App.string_of].
    apply String.eqb_neq in Hdate. rewrite Hdate. cbn [negb].
    unfold Admin.mock_post_block, Dashboard.stored_blocks.
    rewrite Hnotes. reflexivity. }
  assert (filter (fun b => negb (Block.id b =? blockId)) (Dashboard.stored_blocks ls)
          = Dashboard.stored_blocks ls) as Hkeep.
  { revert Hfresh. generalize (Dashboard.stored_blocks ls). intros l.
    induction l as [|x l IH]; intros Hfresh; [reflexivity|].
    cbn [filter].
    destruct (String.eqb_spec (Block.id x) blockId) as [E|_].
    - exfalso. exact (Hfresh x (or_introl eq_refl) E).
    - cbn [negb]. f_equal. apply IH. intros b Hb. apply Hfresh. now right. }
  subst removed. rewrite Ha. cbn [fst snd].
  unfold Dashboard.deleteBlock. cbn [negb]. unfold Dashboard.stored_blocks at 2 3 4.
  cbn [sb_blocks sb_bookings sb_blackout_dates fst snd Dashboard.stored_blocks].
  rewrite filter_app, Hkeep. cbn [filter Block.id].
  rewrite String.eqb_refl. cbn [negb]. rewrite app_nil_r.
  repeat split.
Qed.

Lemma deleteBlock_undoes_addBlock_witness :
  let added := Dashboard.addBlock Sample.env (Some "2025-12-24") None [] Sample.no_storage in
  fst (Dashboard.deleteBlock true ("block-" ++ toString (now Sample.env))
         (fst added) (snd added))
  = [].
Proof.
  cbv zeta.
  refine (proj1 (proj2 (proj2 (deleteBlock_undoes_addBlock Sample.env "2025-12-24" None []
                                 Sample.no_storage _ _)))).
  - discriminate.
  - intros b [].
Defined.
